(** * Frame-resource ring of the ShapesApp renderer

    A shallow embedding of the frame-pacing core of
    [Week4-4-CylinderUsingFrameResources.cpp]: the ring of frame resources,
    the fence that throttles the CPU against the GPU, the per-object dirty
    counters, the per-pass constants and the descriptor-heap indices.

    Conventions.
    - [int], [UINT] and [UINT64] values are integers of [Z]; arithmetic that
      the C++ performs in an unsigned type is reduced modulo the width.
    - [float] values are IEEE binary32 numbers ([spec_float] at precision 24
      and maximal exponent 128).
    - libm and DirectXMath routines whose code is not part of the program
      ([sinf], [XMMatrixInverse], ...) are the operations of the class
      [DirectXMath]; every definition and theorem is stated for an arbitrary
      instance.
    - A call either returns ([Done]), never returns ([Blocked]: an infinite
      wait on a fence value that is never signalled) or has no defined
      behaviour ([Undefined]: null dereference or a write outside a mapped
      buffer).  Failing API calls ([ThrowIfFailed]) end the program and are
      left out.
    - Headers the program includes but that are not part of it here
      (FrameResource.h, UploadBuffer.h, d3dApp.h) are modelled from their
      uses and from the specification; each such definition says so.

    Besides the ring, the development covers the packing of the meshes
    into the shared vertex and index buffer ([BuildShapeGeometry]) with
    the draw arguments the render items take from it, and the mouse
    handlers.  What these read from GeometryGenerator.h, d3dUtil.h and
    MathHelper.h is modelled from the uses the program makes of it; the
    routines of MathHelper.h are the operations of the class
    [MathHelper]. *)

From Stdlib Require Import ZArith List Lia Bool Permutation.
From Stdlib Require Import Floats.SpecFloat.
From stdpp Require Import base list strings gmap.
Import ListNotations.

Local Open Scope Z_scope.

(** ** Machine integers *)

Definition UINT_MAX_plus_1 : Z := 2 ^ 32.
Definition UINT64_MAX_plus_1 : Z := 2 ^ 64.

(** Arithmetic result stored in a [UINT]. *)
Definition to_UINT (z : Z) : Z := z mod UINT_MAX_plus_1.

(** Arithmetic result stored in a [UINT64]. *)
Definition to_UINT64 (z : Z) : Z := z mod UINT64_MAX_plus_1.

(** Conversion of a [UINT] value to [int] (two's complement). *)
Definition int_of_UINT (u : Z) : Z :=
  if u <? 2 ^ 31 then u else u - UINT_MAX_plus_1.

(** [const int gNumFrameResources = 3;] *)
Definition gNumFrameResources : Z := 3.

(** ** Outcome of a call *)

Inductive Result (A : Type) : Type :=
| Done (a : A)
| Blocked
| Undefined.

Arguments Done {A} a.
Arguments Blocked {A}.
Arguments Undefined {A}.

Definition bind {A B : Type} (r : Result A) (k : A -> Result B) : Result B :=
  match r with
  | Done a => k a
  | Blocked => Blocked
  | Undefined => Undefined
  end.

Notation "'let*' x ':=' r 'in' k" := (bind r (fun x => k))
  (at level 10, x name, r at level 200, k at level 200, only parsing).

(** [v[i]] on a [std::vector]: outside the bounds there is no element. *)
Definition vec_at {A : Type} (v : list A) (i : Z) : option A :=
  if i <? 0 then None else v !! Z.to_nat i.

(** ** Floats, vectors and matrices *)

(** binary32 *)
Definition float : Type := spec_float.

Definition float_of_int (i : Z) : float := binary_normalize 24 128 i 0 false.
Definition fmul (a b : float) : float := SFmul 24 128 a b.
Definition fdiv (a b : float) : float := SFdiv 24 128 a b.

Record XMFLOAT2 : Type := mkXMFLOAT2 { x2 : float; y2 : float }.
Record XMFLOAT3 : Type := mkXMFLOAT3 { x3 : float; y3 : float; z3 : float }.

(** [XMVECTOR]: four lanes. *)
Record XMVECTOR : Type :=
  XMVectorSet { vx : float; vy : float; vz : float; vw : float }.

Definition XMVectorZero : XMVECTOR :=
  XMVectorSet (float_of_int 0) (float_of_int 0) (float_of_int 0) (float_of_int 0).

(** [XMFLOAT4X4], also standing for the register form [XMMATRIX]:
    [XMLoadFloat4x4] and [XMStoreFloat4x4] move the sixteen entries
    unchanged. *)
Record XMFLOAT4X4 : Type := mkXMFLOAT4X4 {
  m11 : float; m12 : float; m13 : float; m14 : float;
  m21 : float; m22 : float; m23 : float; m24 : float;
  m31 : float; m32 : float; m33 : float; m34 : float;
  m41 : float; m42 : float; m43 : float; m44 : float
}.

(** [MathHelper::Identity4x4()] *)
Definition Identity4x4 : XMFLOAT4X4 :=
  let o := float_of_int 1 in
  let z := float_of_int 0 in
  mkXMFLOAT4X4 o z z z  z o z z  z z o z  z z z o.

Definition XMLoadFloat4x4 (m : XMFLOAT4X4) : XMFLOAT4X4 := m.
Definition XMStoreFloat4x4 (m : XMFLOAT4X4) : XMFLOAT4X4 := m.

(** Rows become columns; no arithmetic is involved. *)
Definition XMMatrixTranspose (m : XMFLOAT4X4) : XMFLOAT4X4 :=
  mkXMFLOAT4X4
    (m11 m) (m21 m) (m31 m) (m41 m)
    (m12 m) (m22 m) (m32 m) (m42 m)
    (m13 m) (m23 m) (m33 m) (m43 m)
    (m14 m) (m24 m) (m34 m) (m44 m).

(** Routines of libm and DirectXMath used by the program. *)
Class DirectXMath : Type := {
  sinf : float -> float;
  cosf : float -> float;
  XMMatrixMultiply : XMFLOAT4X4 -> XMFLOAT4X4 -> XMFLOAT4X4;
  XMMatrixDeterminant : XMFLOAT4X4 -> XMVECTOR;
  XMMatrixInverse : XMVECTOR -> XMFLOAT4X4 -> XMFLOAT4X4;
  XMMatrixLookAtLH : XMVECTOR -> XMVECTOR -> XMVECTOR -> XMFLOAT4X4
}.

(** ** Scene and per-frame data *)

(** [struct RenderItem].  A default-constructed item has
    [NumFramesDirty = gNumFrameResources]. *)
Record RenderItem : Type := mkRenderItem {
  World : XMFLOAT4X4;
  NumFramesDirty : Z;        (* int *)
  ObjCBIndex : Z;            (* UINT *)
  IndexCount : Z;            (* UINT *)
  StartIndexLocation : Z;    (* UINT *)
  BaseVertexLocation : Z     (* int *)
}.

Definition set_NumFramesDirty (n : Z) (e : RenderItem) : RenderItem :=
  mkRenderItem (World e) n (ObjCBIndex e)
    (IndexCount e) (StartIndexLocation e) (BaseVertexLocation e).

(** Modelled from the spec: [ObjectConstants] and [PassConstants] are
    declared in FrameResource.h, which is not among the sources; the fields
    are those the program assigns. *)
Record ObjectConstants : Type := mkObjectConstants { OC_World : XMFLOAT4X4 }.

Record PassConstants : Type := mkPassConstants {
  View : XMFLOAT4X4;
  InvView : XMFLOAT4X4;
  Proj : XMFLOAT4X4;
  InvProj : XMFLOAT4X4;
  ViewProj : XMFLOAT4X4;
  InvViewProj : XMFLOAT4X4;
  EyePosW : XMFLOAT3;
  RenderTargetSize : XMFLOAT2;
  InvRenderTargetSize : XMFLOAT2;
  NearZ : float;
  FarZ : float;
  TotalTime : float;
  DeltaTime : float
}.

(** Modelled from the spec: [UploadBuffer<T>] (Common/UploadBuffer.h, not
    among the sources) is a flat, indexable array of entries in mapped
    memory.  [CopyData(int elementIndex, const T&)] stores one entry; a
    store outside the array has no defined behaviour. *)
Definition UploadBuffer (T : Type) : Type := list T.

Definition CopyData {T : Type} (elementIndex : Z) (data : T)
    (b : UploadBuffer T) : Result (UploadBuffer T) :=
  if (0 <=? elementIndex) && (elementIndex <? Z.of_nat (length b))
  then Done (<[Z.to_nat elementIndex := data]> b)
  else Undefined.

(** What a frame records into its command allocator, as far as descriptor
    bindings and draws are concerned. *)
Inductive Command : Type :=
| SetPipelineState (wireframe : bool)
| SetGraphicsRootDescriptorTable (rootParameter : Z) (heapIndex : Z)
| DrawIndexedInstanced (indexCount startIndex baseVertex : Z).

(** Modelled from the spec: [struct FrameResource] (FrameResource.h, not
    among the sources): a recording target, one per-object table, one pass
    record and the completion target, which starts at 0. *)
Record FrameResource : Type := mkFrameResource {
  CmdListAlloc : list Command;
  PassCB : UploadBuffer PassConstants;
  ObjectCB : UploadBuffer ObjectConstants;
  Fence : Z                  (* UINT64 *)
}.

Definition newFrameResource (passMem : UploadBuffer PassConstants)
    (objMem : UploadBuffer ObjectConstants) : FrameResource :=
  mkFrameResource [] passMem objMem 0.

(** ** The GPU timeline *)

(** [mFence] together with [mCommandQueue]: the value the fence has
    reached, and the fence values of the [Signal] commands still in the
    queue, oldest first. *)
Record Gpu : Type := mkGpu {
  completed : Z;
  pending : list Z
}.

Definition GetCompletedValue (g : Gpu) : Z := completed g.

(** [mCommandQueue->Signal(mFence.Get(), v)] *)
Definition Signal (v : Z) (g : Gpu) : Gpu :=
  mkGpu (completed g) (pending g ++ [v]).

(** The GPU finishes the work in front of the oldest queued signal. *)
Definition gpu_retire (g : Gpu) : Gpu :=
  match pending g with
  | [] => g
  | v :: q => mkGpu v q
  end.

Fixpoint gpu_run (n : nat) (g : Gpu) : Gpu :=
  match n with
  | O => g
  | S n' => gpu_run n' (gpu_retire g)
  end.

(** [SetEventOnCompletion(target, e); WaitForSingleObject(e, INFINITE)]:
    the CPU sleeps while the GPU works through its queue, and wakes up
    once the fence has reached [target].  When no queued signal reaches the
    target the wait lasts forever. *)
Fixpoint wait_queue (target : Z) (reached : Z) (q : list Z) : Result Gpu :=
  if target <=? reached then Done (mkGpu reached q)
  else match q with
       | [] => Blocked
       | v :: q' => wait_queue target v q'
       end.

Definition WaitForSingleObject (target : Z) (g : Gpu) : Result Gpu :=
  wait_queue target (completed g) (pending g).

(** Submitted frames the GPU has not completed: queued signals whose value
    exceeds the completed value.  A signal that has left the queue has been
    the completed value, and the values only increase, so no frame outside
    the queue has a target above the completed value. *)
Definition frames_in_flight (g : Gpu) : Z :=
  Z.of_nat (length (List.filter (fun v => completed g <? v) (pending g))).

(** ** The application object *)

Record GameTimer : Type := mkGameTimer {
  gtTotalTime : float;
  gtDeltaTime : float
}.

Record ShapesApp : Type := mkShapesApp {
  mFrameResources : list FrameResource;
  mCurrFrameResource : option Z;   (* pointer to an element of mFrameResources *)
  mCurrFrameResourceIndex : Z;     (* int *)
  mAllRitems : list RenderItem;    (* mOpaqueRitems points to the same items *)
  mMainPassCB : PassConstants;
  mPassCbvOffset : Z;              (* UINT *)
  mIsWireframe : bool;
  mEyePos : XMFLOAT3;
  mView : XMFLOAT4X4;
  mProj : XMFLOAT4X4;
  mTheta : float;
  mPhi : float;
  mRadius : float;
  mClientWidth : Z;                (* int, D3DApp *)
  mClientHeight : Z;               (* int, D3DApp *)
  mCurrentFence : Z;               (* UINT64, D3DApp *)
  gpu : Gpu
}.

(** Field updates of the application object. *)

Definition set_mFrameResources (v : list FrameResource) (a : ShapesApp) : ShapesApp :=
  mkShapesApp v (mCurrFrameResource a) (mCurrFrameResourceIndex a)
    (mAllRitems a) (mMainPassCB a) (mPassCbvOffset a) (mIsWireframe a)
    (mEyePos a) (mView a) (mProj a) (mTheta a) (mPhi a) (mRadius a)
    (mClientWidth a) (mClientHeight a) (mCurrentFence a) (gpu a).

Definition set_current (p : option Z) (i : Z) (a : ShapesApp) : ShapesApp :=
  mkShapesApp (mFrameResources a) p i
    (mAllRitems a) (mMainPassCB a) (mPassCbvOffset a) (mIsWireframe a)
    (mEyePos a) (mView a) (mProj a) (mTheta a) (mPhi a) (mRadius a)
    (mClientWidth a) (mClientHeight a) (mCurrentFence a) (gpu a).

Definition set_mAllRitems (v : list RenderItem) (a : ShapesApp) : ShapesApp :=
  mkShapesApp (mFrameResources a) (mCurrFrameResource a) (mCurrFrameResourceIndex a)
    v (mMainPassCB a) (mPassCbvOffset a) (mIsWireframe a)
    (mEyePos a) (mView a) (mProj a) (mTheta a) (mPhi a) (mRadius a)
    (mClientWidth a) (mClientHeight a) (mCurrentFence a) (gpu a).

Definition set_mMainPassCB (v : PassConstants) (a : ShapesApp) : ShapesApp :=
  mkShapesApp (mFrameResources a) (mCurrFrameResource a) (mCurrFrameResourceIndex a)
    (mAllRitems a) v (mPassCbvOffset a) (mIsWireframe a)
    (mEyePos a) (mView a) (mProj a) (mTheta a) (mPhi a) (mRadius a)
    (mClientWidth a) (mClientHeight a) (mCurrentFence a) (gpu a).

Definition set_mIsWireframe (v : bool) (a : ShapesApp) : ShapesApp :=
  mkShapesApp (mFrameResources a) (mCurrFrameResource a) (mCurrFrameResourceIndex a)
    (mAllRitems a) (mMainPassCB a) (mPassCbvOffset a) v
    (mEyePos a) (mView a) (mProj a) (mTheta a) (mPhi a) (mRadius a)
    (mClientWidth a) (mClientHeight a) (mCurrentFence a) (gpu a).

Definition set_camera (eye : XMFLOAT3) (view : XMFLOAT4X4) (a : ShapesApp) : ShapesApp :=
  mkShapesApp (mFrameResources a) (mCurrFrameResource a) (mCurrFrameResourceIndex a)
    (mAllRitems a) (mMainPassCB a) (mPassCbvOffset a) (mIsWireframe a)
    eye view (mProj a) (mTheta a) (mPhi a) (mRadius a)
    (mClientWidth a) (mClientHeight a) (mCurrentFence a) (gpu a).

Definition set_window (theta phi radius : float) (proj : XMFLOAT4X4) (w h : Z)
    (a : ShapesApp) : ShapesApp :=
  mkShapesApp (mFrameResources a) (mCurrFrameResource a) (mCurrFrameResourceIndex a)
    (mAllRitems a) (mMainPassCB a) (mPassCbvOffset a) (mIsWireframe a)
    (mEyePos a) (mView a) proj theta phi radius
    w h (mCurrentFence a) (gpu a).

Definition set_mCurrentFence (v : Z) (a : ShapesApp) : ShapesApp :=
  mkShapesApp (mFrameResources a) (mCurrFrameResource a) (mCurrFrameResourceIndex a)
    (mAllRitems a) (mMainPassCB a) (mPassCbvOffset a) (mIsWireframe a)
    (mEyePos a) (mView a) (mProj a) (mTheta a) (mPhi a) (mRadius a)
    (mClientWidth a) (mClientHeight a) v (gpu a).

Definition set_gpu (g : Gpu) (a : ShapesApp) : ShapesApp :=
  mkShapesApp (mFrameResources a) (mCurrFrameResource a) (mCurrFrameResourceIndex a)
    (mAllRitems a) (mMainPassCB a) (mPassCbvOffset a) (mIsWireframe a)
    (mEyePos a) (mView a) (mProj a) (mTheta a) (mPhi a) (mRadius a)
    (mClientWidth a) (mClientHeight a) (mCurrentFence a) g.

(** [*mCurrFrameResource]: the pointer is null before the first [Update]. *)
Definition curr_frame_resource (a : ShapesApp) : Result FrameResource :=
  match mCurrFrameResource a with
  | None => Undefined
  | Some p =>
      match vec_at (mFrameResources a) p with
      | Some fr => Done fr
      | None => Undefined
      end
  end.

(** Assignment through [mCurrFrameResource]: the object lives in
    [mFrameResources], so the vector element changes. *)
Definition store_curr (fr : FrameResource) (a : ShapesApp) : ShapesApp :=
  match mCurrFrameResource a with
  | None => a
  | Some p => set_mFrameResources (<[Z.to_nat p := fr]> (mFrameResources a)) a
  end.

(** ** Descriptor-heap indices *)

(** [(UINT)mOpaqueRitems.size()] *)
Definition objCount (a : ShapesApp) : Z := to_UINT (Z.of_nat (length (mAllRitems a))).

(** [BuildDescriptorHeaps]: [numDescriptors] and [mPassCbvOffset]. *)
Definition numDescriptors (objCount : Z) : Z :=
  to_UINT ((objCount + 1) * gNumFrameResources).

Definition passCbvOffset (objCount : Z) : Z :=
  to_UINT (objCount * gNumFrameResources).

(** [int heapIndex = frameIndex * objCount + i;] in
    [BuildConstantBufferViews]: computed in [UINT], stored in an [int]. *)
Definition objHeapIndex (objCount frameIndex i : Z) : Z :=
  int_of_UINT (to_UINT (frameIndex * objCount + i)).

(** [int heapIndex = mPassCbvOffset + frameIndex;] in
    [BuildConstantBufferViews], [int passCbvIndex = mPassCbvOffset +
    mCurrFrameResourceIndex;] in [Draw]. *)
Definition passHeapIndex (passOffset frameIndex : Z) : Z :=
  int_of_UINT (to_UINT (passOffset + frameIndex)).

(** [UINT cbvIndex = mCurrFrameResourceIndex * (UINT)mOpaqueRitems.size()
    + ri->ObjCBIndex;] in [DrawRenderItems], passed to [Offset], whose
    parameter is an [INT]. *)
Definition cbvIndex (objCount frameIndex objCBIndex : Z) : Z :=
  int_of_UINT (to_UINT (frameIndex * objCount + objCBIndex)).

(** ** The descriptor heap *)

(** A constant-buffer view: which buffer entry a descriptor designates.
    [ObjectCBV f i] is the view [BuildConstantBufferViews] creates at
    address [objectCB(f) + i * objCBByteSize], [PassCBV f] the view of the
    pass record of frame resource [f]. *)
Inductive Descriptor : Type :=
| ObjectCBV (frameIndex : Z) (i : Z)
| PassCBV (frameIndex : Z).

(** [mCbvHeap]: the descriptors, [None] where none has been created. *)
Abbreviation DescriptorHeap := (list (option Descriptor)).

(** [BuildDescriptorHeaps]: a heap of [numDescriptors] descriptors. *)
Definition BuildDescriptorHeaps (objCount : Z) : DescriptorHeap :=
  replicate (Z.to_nat (numDescriptors objCount)) None.

(** [handle.Offset(heapIndex, ...); CreateConstantBufferView(&desc, handle)]:
    a handle outside the heap designates no descriptor. *)
Definition CreateConstantBufferView (d : Descriptor) (heapIndex : Z)
    (heap : DescriptorHeap) : Result DescriptorHeap :=
  if (0 <=? heapIndex) && (heapIndex <? Z.of_nat (length heap))
  then Done (<[Z.to_nat heapIndex := Some d]> heap)
  else Undefined.

(** The inner loop of [BuildConstantBufferViews],
    [for (UINT i = ...; i < objCount; ++i)], with [remaining] iterations
    to go. *)
Fixpoint object_views_loop (objCount frameIndex i : Z) (remaining : nat)
    (heap : DescriptorHeap) : Result DescriptorHeap :=
  match remaining with
  | O => Done heap
  | S rest =>
      let* h := CreateConstantBufferView (ObjectCBV frameIndex i)
                  (objHeapIndex objCount frameIndex i) heap in
      object_views_loop objCount frameIndex (to_UINT (i + 1)) rest h
  end.

(** A loop [for (int frameIndex = ...; frameIndex < gNumFrameResources;
    ++frameIndex)] with [remaining] iterations to go. *)
Fixpoint frame_resources_loop (body : Z -> DescriptorHeap -> Result DescriptorHeap)
    (frameIndex : Z) (remaining : nat) (heap : DescriptorHeap)
    : Result DescriptorHeap :=
  match remaining with
  | O => Done heap
  | S rest =>
      let* h := body frameIndex heap in
      frame_resources_loop body (frameIndex + 1) rest h
  end.

Definition BuildConstantBufferViews (objCount passOffset : Z)
    (heap : DescriptorHeap) : Result DescriptorHeap :=
  let* h :=
    frame_resources_loop
      (fun frameIndex h =>
         object_views_loop objCount frameIndex 0 (Z.to_nat objCount) h)
      0 (Z.to_nat gNumFrameResources) heap in
  frame_resources_loop
    (fun frameIndex h =>
       CreateConstantBufferView (PassCBV frameIndex)
         (passHeapIndex passOffset frameIndex) h)
    0 (Z.to_nat gNumFrameResources) h.

(** ** The per-frame functions *)

Definition INT_MAX : Z := 2 ^ 31 - 1.

Definition set_ObjectCB (b : UploadBuffer ObjectConstants) (fr : FrameResource)
    : FrameResource :=
  mkFrameResource (CmdListAlloc fr) (PassCB fr) b (Fence fr).

Definition set_PassCB (b : UploadBuffer PassConstants) (fr : FrameResource)
    : FrameResource :=
  mkFrameResource (CmdListAlloc fr) b (ObjectCB fr) (Fence fr).

(** Body of the loop of [UpdateObjectCBs], over the items from the first
    to the last, on the table [cb] of the current frame resource. *)
Fixpoint UpdateObjectCBs_loop (items : list RenderItem)
    (cb : UploadBuffer ObjectConstants)
    : Result (list RenderItem * UploadBuffer ObjectConstants) :=
  match items with
  | [] => Done ([], cb)
  | e :: rest =>
      if 0 <? NumFramesDirty e then
        let world := XMLoadFloat4x4 (World e) in
        let objConstants :=
          mkObjectConstants (XMStoreFloat4x4 (XMMatrixTranspose world)) in
        let* cb1 := CopyData (int_of_UINT (ObjCBIndex e)) objConstants cb in
        let* r := UpdateObjectCBs_loop rest cb1 in
        Done (set_NumFramesDirty (NumFramesDirty e - 1) e :: fst r, snd r)
      else
        let* r := UpdateObjectCBs_loop rest cb in
        Done (e :: fst r, snd r)
  end.

Definition UpdateObjectCBs (a : ShapesApp) : Result ShapesApp :=
  let* fr := curr_frame_resource a in
  let* r := UpdateObjectCBs_loop (mAllRitems a) (ObjectCB fr) in
  Done (set_mAllRitems (fst r) (store_curr (set_ObjectCB (snd r) fr) a)).

(** [OnKeyboardInput]; [key1] is the state of the '1' key. *)
Definition OnKeyboardInput (key1 : bool) (a : ShapesApp) : ShapesApp :=
  if key1 then set_mIsWireframe true a else set_mIsWireframe false a.

Section Program.

Context {math : DirectXMath}.

Definition UpdateCamera (a : ShapesApp) : ShapesApp :=
  let ex := fmul (fmul (mRadius a) (sinf (mPhi a))) (cosf (mTheta a)) in
  let ez := fmul (fmul (mRadius a) (sinf (mPhi a))) (sinf (mTheta a)) in
  let ey := fmul (mRadius a) (cosf (mPhi a)) in
  let pos := XMVectorSet ex ey ez (float_of_int 1) in
  let target := XMVectorZero in
  let up := XMVectorSet (float_of_int 0) (float_of_int 1)
                        (float_of_int 0) (float_of_int 0) in
  let view := XMMatrixLookAtLH pos target up in
  set_camera (mkXMFLOAT3 ex ey ez) (XMStoreFloat4x4 view) a.

(** The record [UpdateMainPassCB] assembles in [mMainPassCB]. *)
Definition main_pass_constants (gt : GameTimer) (a : ShapesApp) : PassConstants :=
  let view := XMLoadFloat4x4 (mView a) in
  let proj := XMLoadFloat4x4 (mProj a) in
  let viewProj := XMMatrixMultiply view proj in
  let invView := XMMatrixInverse (XMMatrixDeterminant view) view in
  let invProj := XMMatrixInverse (XMMatrixDeterminant proj) proj in
  let invViewProj := XMMatrixInverse (XMMatrixDeterminant viewProj) viewProj in
  mkPassConstants
    (XMStoreFloat4x4 (XMMatrixTranspose view))
    (XMStoreFloat4x4 (XMMatrixTranspose invView))
    (XMStoreFloat4x4 (XMMatrixTranspose proj))
    (XMStoreFloat4x4 (XMMatrixTranspose invProj))
    (XMStoreFloat4x4 (XMMatrixTranspose viewProj))
    (XMStoreFloat4x4 (XMMatrixTranspose invViewProj))
    (mEyePos a)
    (mkXMFLOAT2 (float_of_int (mClientWidth a)) (float_of_int (mClientHeight a)))
    (mkXMFLOAT2 (fdiv (float_of_int 1) (float_of_int (mClientWidth a)))
                (fdiv (float_of_int 1) (float_of_int (mClientHeight a))))
    (float_of_int 1)
    (float_of_int 1000)
    (gtTotalTime gt)
    (gtDeltaTime gt).

Definition UpdateMainPassCB (gt : GameTimer) (a : ShapesApp) : Result ShapesApp :=
  let a1 := set_mMainPassCB (main_pass_constants gt a) a in
  let* fr := curr_frame_resource a1 in
  let* pcb := CopyData 0 (mMainPassCB a1) (PassCB fr) in
  Done (store_curr (set_PassCB pcb fr) a1).

(** First half of [Update]: input, camera, and the step to the next
    element of the circular array. *)
Definition next_index (a : ShapesApp) : Z :=
  Z.rem (mCurrFrameResourceIndex a + 1) gNumFrameResources.

Definition select_frame_resource (key1 : bool) (a : ShapesApp) : ShapesApp :=
  let a1 := UpdateCamera (OnKeyboardInput key1 a) in
  set_current (Some (next_index a1)) (next_index a1) a1.

(** The fence test of [Update] and the wait it guards. *)
Definition wait_for_frame_resource (fr : FrameResource) (g : Gpu) : Result Gpu :=
  if negb (Fence fr =? 0) && (GetCompletedValue g <? Fence fr)
  then WaitForSingleObject (Fence fr) g
  else Done g.

Definition Update (gt : GameTimer) (key1 : bool) (a : ShapesApp) : Result ShapesApp :=
  if INT_MAX <=? mCurrFrameResourceIndex a then Undefined  (* signed overflow *)
  else
    let a1 := select_frame_resource key1 a in
    let* fr := curr_frame_resource a1 in
    let* g := wait_for_frame_resource fr (gpu a1) in
    let* a2 := UpdateObjectCBs (set_gpu g a1) in
    UpdateMainPassCB gt a2.

Definition DrawRenderItems (a : ShapesApp) (ritems : list RenderItem) : list Command :=
  flat_map (fun ri =>
    [ SetGraphicsRootDescriptorTable 0
        (cbvIndex (objCount a) (mCurrFrameResourceIndex a) (ObjCBIndex ri));
      DrawIndexedInstanced (IndexCount ri) (StartIndexLocation ri)
        (BaseVertexLocation ri) ]) ritems.

(** [Draw]: the allocator of the current frame resource is reset and
    receives this frame's commands; the commands are submitted; the fence
    value is advanced, recorded in the frame resource and signalled. *)
Definition Draw (a : ShapesApp) : Result ShapesApp :=
  let* fr := curr_frame_resource a in
  let cmds :=
    [ SetPipelineState (mIsWireframe a);
      SetGraphicsRootDescriptorTable 1
        (passHeapIndex (mPassCbvOffset a) (mCurrFrameResourceIndex a)) ]
    ++ DrawRenderItems a (mAllRitems a) in
  let fence := to_UINT64 (mCurrentFence a + 1) in
  let fr' := mkFrameResource cmds (PassCB fr) (ObjectCB fr) fence in
  Done (set_gpu (Signal fence (gpu a))
          (set_mCurrentFence fence (store_curr fr' a))).

End Program.

(** ** Start-up *)

(** What [BuildRenderItems] is given for one shape: its world matrix and
    the draw arguments looked up in the geometry. *)
Record Shape : Type := mkShape {
  shapeWorld : XMFLOAT4X4;
  shapeIndexCount : Z;
  shapeStartIndexLocation : Z;
  shapeBaseVertexLocation : Z
}.

(** [BuildRenderItems]: every item is default-constructed, so its
    [NumFramesDirty] is [gNumFrameResources], and takes
    [ObjCBIndex = objIndex++]. *)
Fixpoint BuildRenderItems_from (objIndex : Z) (shapes : list Shape)
    : list RenderItem :=
  match shapes with
  | [] => []
  | s :: rest =>
      mkRenderItem (shapeWorld s) gNumFrameResources objIndex
        (shapeIndexCount s) (shapeStartIndexLocation s)
        (shapeBaseVertexLocation s)
      :: BuildRenderItems_from (to_UINT (objIndex + 1)) rest
  end.

Definition BuildRenderItems (shapes : list Shape) : list RenderItem :=
  BuildRenderItems_from 0 shapes.

(** [BuildFrameResources]: [gNumFrameResources] frame resources, each with
    one pass record and one object entry per render item.  [pass0] and
    [obj0] stand for the initial contents of the mapped memory. *)
Definition BuildFrameResources (pass0 : PassConstants) (obj0 : ObjectConstants)
    (items : list RenderItem) : list FrameResource :=
  replicate (Z.to_nat gNumFrameResources)
    (newFrameResource (replicate 1%nat pass0)
       (replicate (Z.to_nat (to_UINT (Z.of_nat (length items)))) obj0)).

(** The application after [Initialize]: the scene and the ring are built,
    no frame resource is current yet, and the command queue has been
    flushed ([D3DApp::FlushCommandQueue], not among the sources, advances
    [mCurrentFence], signals it and waits for it), so the GPU has reached
    [fence0], the value of [mCurrentFence] at that point.  The descriptor
    heap, which no per-frame function changes, is kept apart: see
    [BuildDescriptorHeaps] and [BuildConstantBufferViews]. *)
Definition Initialize (shapes : list Shape) (fence0 : Z)
    (pass0 : PassConstants) (obj0 : ObjectConstants)
    (theta phi radius : float) (proj : XMFLOAT4X4) (w h : Z) : ShapesApp :=
  let items := BuildRenderItems shapes in
  mkShapesApp
    (BuildFrameResources pass0 obj0 items) None 0 items pass0
    (passCbvOffset (to_UINT (Z.of_nat (length items)))) false
    (mkXMFLOAT3 (float_of_int 0) (float_of_int 0) (float_of_int 0))
    Identity4x4 proj theta phi radius w h fence0 (mkGpu fence0 []).

(** ** Marking an object dirty *)

(** Modelled from the spec: the program never changes a render item after
    [BuildRenderItems]; section 4.3 and the comment at
    [RenderItem::NumFramesDirty] prescribe what a change must do:
    [mark_dirty(object_index)] sets that object's staleness counter to N
    (the assignment [NumFramesDirty = gNumFrameResources]), here together
    with the new transform. *)
Definition mark_dirty (k : nat) (w : XMFLOAT4X4) (a : ShapesApp) : ShapesApp :=
  set_mAllRitems
    (alter (fun e => mkRenderItem w gNumFrameResources (ObjCBIndex e)
                       (IndexCount e) (StartIndexLocation e)
                       (BaseVertexLocation e)) k (mAllRitems a)) a.

(** ** Runs *)

(** Modelled from the spec: the message loop (D3DApp::Run, not among the
    sources) runs [Update] then [Draw] for each frame and handles window
    messages between frames.  The GPU works concurrently: it may retire
    queued signals between frames ([EvGpu]) and between the [Update] and
    the [Draw] of a frame ([gpuSteps]); progress made while [Update] sleeps
    is part of the wait itself. *)
Inductive Event : Type :=
| EvFrame (gt : GameTimer) (key1 : bool) (gpuSteps : nat)
| EvGpu
| EvWindow (theta phi radius : float) (proj : XMFLOAT4X4) (w h : Z)
| EvMarkDirty (k : nat) (w : XMFLOAT4X4).

Definition is_frame (ev : Event) : bool :=
  match ev with EvFrame _ _ _ => true | _ => false end.

(** Number of frames of a run, that is, of advances of the ring. *)
Definition frames (tr : list Event) : Z :=
  Z.of_nat (length (List.filter is_frame tr)).

Definition marks (k : nat) (ev : Event) : bool :=
  match ev with EvMarkDirty k' _ => Nat.eqb k k' | _ => false end.

Section Runs.

Context {math : DirectXMath}.

Definition frame (gt : GameTimer) (key1 : bool) (gpuSteps : nat) (a : ShapesApp)
    : Result ShapesApp :=
  let* a1 := Update gt key1 a in
  Draw (set_gpu (gpu_run gpuSteps (gpu a1)) a1).

Definition handle (ev : Event) (a : ShapesApp) : Result ShapesApp :=
  match ev with
  | EvFrame gt key1 n => frame gt key1 n a
  | EvGpu => Done (set_gpu (gpu_retire (gpu a)) a)
  | EvWindow theta phi radius proj w h =>
      Done (set_window theta phi radius proj w h a)
  | EvMarkDirty k w => Done (mark_dirty k w a)
  end.

Fixpoint run (tr : list Event) (a : ShapesApp) : Result ShapesApp :=
  match tr with
  | [] => Done a
  | ev :: tr' => let* a1 := handle ev a in run tr' a1
  end.

Definition item_dirty (k : nat) (a : ShapesApp) : bool :=
  match mAllRitems a !! k with
  | Some e => 0 <? NumFramesDirty e
  | None => false
  end.

(** The frame resources into which a run stores the [k]-th item, in the
    order of the stores: a frame stores the item, into the frame resource
    it selects, exactly when the item's counter is positive. *)
Fixpoint commits (k : nat) (tr : list Event) (a : ShapesApp) : list Z :=
  match tr with
  | [] => []
  | ev :: tr' =>
      (if is_frame ev && item_dirty k a then [next_index a] else [])
      ++ match handle ev a with
         | Done a1 => commits k tr' a1
         | _ => []
         end
  end.

End Runs.

(** ** Well-formed states *)

Fixpoint indexed_from (i : Z) (items : list RenderItem) : bool :=
  match items with
  | [] => true
  | e :: rest => (ObjCBIndex e =? i) && indexed_from (i + 1) rest
  end.

(** The scene and the ring as [Initialize] builds them and as every frame
    keeps them: three frame resources whose tables have one entry per item,
    items numbered by position, counters between 0 and the ring depth, a
    descriptor count that fits an [int]. *)
Definition scene_ok (a : ShapesApp) : bool :=
  Nat.eqb (length (mFrameResources a)) 3
  && (0 <=? mCurrFrameResourceIndex a)
  && (mCurrFrameResourceIndex a <? gNumFrameResources)
  && match mCurrFrameResource a with
     | None => true
     | Some p => p =? mCurrFrameResourceIndex a
     end
  && indexed_from 0 (mAllRitems a)
  && forallb (fun e => (0 <=? NumFramesDirty e)
                       && (NumFramesDirty e <=? gNumFrameResources))
       (mAllRitems a)
  && ((Z.of_nat (length (mAllRitems a)) + 1) * gNumFrameResources <=? INT_MAX)
  && forallb (fun fr =>
                Nat.eqb (length (ObjectCB fr)) (length (mAllRitems a))
                && Nat.leb 1 (length (PassCB fr)))
       (mFrameResources a).

(** [chain lo q hi]: the values of [q] increase strictly from above [lo]
    and end at [hi] ([lo = hi] when [q] is empty). *)
Fixpoint chain (lo : Z) (q : list Z) (hi : Z) : bool :=
  match q with
  | [] => lo =? hi
  | v :: q' => (lo <? v) && chain v q' hi
  end.

(** The fence bookkeeping: the queued signals lead from the completed
    value up to [mCurrentFence], every queued signal is the target recorded
    in some frame resource, and no recorded target is ahead of
    [mCurrentFence]. *)
Definition fence_ok (a : ShapesApp) : bool :=
  (0 <=? completed (gpu a))
  && chain (completed (gpu a)) (pending (gpu a)) (mCurrentFence a)
  && forallb (fun v => existsb (fun fr => Fence fr =? v) (mFrameResources a))
       (pending (gpu a))
  && forallb (fun fr => (0 <=? Fence fr) && (Fence fr <=? mCurrentFence a))
       (mFrameResources a).

(** ** A concrete scene for evaluating the model *)

(** A stand-in for the math routines: products are computed entry by
    entry, the inverse is the transpose (exact for rotations), and the
    camera looks along the z axis.  The theorems below hold for every
    instance; this one only serves to run the model on examples. *)
Definition fadd (a b : float) : float := SFadd 24 128 a b.

Definition row_by_column (a b c d e f g h : float) : float :=
  fadd (fadd (fadd (fmul a e) (fmul b f)) (fmul c g)) (fmul d h).

Definition plain_multiply (p q : XMFLOAT4X4) : XMFLOAT4X4 :=
  let r i := match i with
             | 1%nat => (m11 p, m12 p, m13 p, m14 p)
             | 2%nat => (m21 p, m22 p, m23 p, m24 p)
             | 3%nat => (m31 p, m32 p, m33 p, m34 p)
             | _ => (m41 p, m42 p, m43 p, m44 p)
             end in
  let c j := match j with
             | 1%nat => (m11 q, m21 q, m31 q, m41 q)
             | 2%nat => (m12 q, m22 q, m32 q, m42 q)
             | 3%nat => (m13 q, m23 q, m33 q, m43 q)
             | _ => (m14 q, m24 q, m34 q, m44 q)
             end in
  let e i j := match r i, c j with
               | (a, b, c0, d), (e0, f, g, h) => row_by_column a b c0 d e0 f g h
               end in
  (mkXMFLOAT4X4
    (e 1 1) (e 1 2) (e 1 3) (e 1 4)
    (e 2 1) (e 2 2) (e 2 3) (e 2 4)
    (e 3 1) (e 3 2) (e 3 3) (e 3 4)
    (e 4 1) (e 4 2) (e 4 3) (e 4 4))%nat.

Definition PlainMath : DirectXMath := {|
  sinf := fun x => x;
  cosf := fun _ => float_of_int 1;
  XMMatrixMultiply := plain_multiply;
  XMMatrixDeterminant := fun _ =>
    XMVectorSet (float_of_int 1) (float_of_int 1) (float_of_int 1) (float_of_int 1);
  XMMatrixInverse := fun _ m => XMMatrixTranspose m;
  XMMatrixLookAtLH := fun _ _ _ => Identity4x4
|}.

(** A translation by [(x, y, z)], as [XMMatrixTranslation] lays it out. *)
Definition translation (x y z : Z) : XMFLOAT4X4 :=
  let o := float_of_int 1 in
  let n := float_of_int 0 in
  mkXMFLOAT4X4 o n n n  n o n n  n n o n
    (float_of_int x) (float_of_int y) (float_of_int z) o.

Definition demo_shapes : list Shape :=
  [ mkShape (translation 0 4 5) 36 0 0;
    mkShape (translation 0 4 (-5)) 36 0 0;
    mkShape (translation 5 2 (-5)) 2400 36 24 ].

Definition demo_pass0 : PassConstants :=
  mkPassConstants Identity4x4 Identity4x4 Identity4x4 Identity4x4
    Identity4x4 Identity4x4
    (mkXMFLOAT3 (float_of_int 0) (float_of_int 0) (float_of_int 0))
    (mkXMFLOAT2 (float_of_int 0) (float_of_int 0))
    (mkXMFLOAT2 (float_of_int 0) (float_of_int 0))
    (float_of_int 0) (float_of_int 0) (float_of_int 0) (float_of_int 0).

Definition demo_app : ShapesApp :=
  Initialize demo_shapes 1 demo_pass0 (mkObjectConstants Identity4x4)
    (float_of_int 4) (float_of_int 1) (float_of_int 15) Identity4x4 800 600.

Definition demo_timer (n : Z) : GameTimer :=
  mkGameTimer (float_of_int n) (float_of_int 1).

(** The outcome of a call, or the given state when the call does not
    return. *)
Definition result_or {A : Type} (d : A) (r : Result A) : A :=
  match r with Done a => a | _ => d end.

Definition demo_frame (n : Z) : Event := EvFrame (demo_timer n) false 0.

(** The state the demo application is in after a run. *)
Definition demo_after (tr : list Event) : ShapesApp :=
  result_or demo_app (run (math := PlainMath) tr demo_app).

(** The frame resource the next [Update] selects. *)
Definition next_frame_resource (a : ShapesApp) : FrameResource :=
  match vec_at (mFrameResources a) (next_index a) with
  | Some fr => fr
  | None => newFrameResource [] []
  end.

Definition demo_item (a : ShapesApp) (k : nat) : RenderItem :=
  match mAllRitems a !! k with
  | Some e => e
  | None => mkRenderItem Identity4x4 0 0 0 0 0
  end.

(** Case analysis on an index of the ring. *)
Ltac split_slot f :=
  let H := fresh in
  assert (H : f = 0 \/ f = 1 \/ f = 2) by (unfold gNumFrameResources in *; lia);
  destruct H as [-> | [-> | ->]].

(** Closes a goal that holds by evaluation on the demo scene. *)
Ltac evaluate := vm_compute; first [reflexivity | discriminate | exact I].

(** ** Derived notions used in the statements *)

(** What [UpdateObjectCBs] does to one item. *)
Definition step_item (e : RenderItem) : RenderItem :=
  if 0 <? NumFramesDirty e
  then set_NumFramesDirty (NumFramesDirty e - 1) e
  else e.

(** What [UpdateObjectCBs] stores for one item. *)
Definition object_constants_of (e : RenderItem) : ObjectConstants :=
  mkObjectConstants (XMMatrixTranspose (World e)).

Definition scene_inv (a : ShapesApp) : Prop :=
  length (mFrameResources a) = 3%nat
  /\ 0 <= mCurrFrameResourceIndex a < gNumFrameResources
  /\ (forall p, mCurrFrameResource a = Some p -> p = mCurrFrameResourceIndex a)
  /\ indexed_from 0 (mAllRitems a) = true
  /\ (forall e, In e (mAllRitems a) ->
        0 <= NumFramesDirty e <= gNumFrameResources)
  /\ (Z.of_nat (length (mAllRitems a)) + 1) * gNumFrameResources <= INT_MAX
  /\ (forall fr, In fr (mFrameResources a) ->
        length (ObjectCB fr) = length (mAllRitems a)
        /\ (1 <= length (PassCB fr))%nat).

Definition fence_inv (a : ShapesApp) : Prop :=
  0 <= completed (gpu a)
  /\ chain (completed (gpu a)) (pending (gpu a)) (mCurrentFence a) = true
  /\ (forall v, In v (pending (gpu a)) ->
        exists fr, In fr (mFrameResources a) /\ Fence fr = v)
  /\ (forall fr, In fr (mFrameResources a) ->
        0 <= Fence fr <= mCurrentFence a).

(** The GPU has reached the target recorded in the current frame
    resource. *)
Definition slot_retired (a : ShapesApp) : Prop :=
  exists fr, vec_at (mFrameResources a) (mCurrFrameResourceIndex a) = Some fr
             /\ mCurrFrameResource a = Some (mCurrFrameResourceIndex a)
             /\ Fence fr <= completed (gpu a).

Definition no_marks (k : nat) (tr : list Event) : bool :=
  forallb (fun ev => negb (marks k ev)) tr.

(** The frame resources the ring selects in its next [m] steps from
    index [c]. *)
Definition ring_slots (c : Z) (m : nat) : list Z :=
  map (fun i => (c + Z.of_nat i) mod gNumFrameResources) (seq 1 m).

(** ** Freshness of the object tables *)

(** Every entry of an object table that differs from its item's constants
    lies in a frame resource that the ring selects within the item's
    remaining [NumFramesDirty] frames. *)
Definition stale_within_counter (a : ShapesApp) : Prop :=
  forall (k : nat) (e : RenderItem) (j : nat) (fr : FrameResource),
    mAllRitems a !! k = Some e -> mFrameResources a !! j = Some fr ->
    ObjectCB fr !! k = Some (object_constants_of e)
    \/ exists i : Z, 1 <= i <= NumFramesDirty e
         /\ Z.of_nat j = (mCurrFrameResourceIndex a + i) mod gNumFrameResources.

(** After [n] frames from a start at fence value [fence0]: the frame
    resource used [i] frames ago records the fence value of that frame, and
    a frame resource not used yet records 0. *)
Definition fences_of_ring (fence0 n : Z) (a : ShapesApp) : Prop :=
  mCurrentFence a = fence0 + n
  /\ mCurrFrameResourceIndex a = n mod gNumFrameResources
  /\ forall i : Z, 0 <= i < gNumFrameResources ->
       exists fr,
         mFrameResources a !! Z.to_nat ((n - i) mod gNumFrameResources) = Some fr
         /\ Fence fr = if i <? n then fence0 + n - i else 0.

(** ** The shared vertex and index buffer *)

(** [GeometryGenerator::MeshData] (Common/GeometryGenerator.h, not among
    the sources), as far as [BuildShapeGeometry] reads it: the [Position]
    of every element of [Vertices], and [Indices32]. *)
Record MeshData : Type := mkMeshData {
  Vertices : list XMFLOAT3;
  Indices32 : list Z           (* std::vector<uint32> *)
}.

(** Conversion to [std::uint16_t]. *)
Definition to_uint16 (z : Z) : Z := z mod 2 ^ 16.

(** [MeshData::GetIndices16()]: the indices as 16-bit values. *)
Definition GetIndices16 (m : MeshData) : list Z := map to_uint16 (Indices32 m).

(** The constants of [DirectX::Colors] that the program uses. *)
Inductive Colors : Type :=
| Gold | ForestGreen | Crimson | SteelBlue | DarkCyan | DarkGoldenrod
| IndianRed | BurlyWood | SandyBrown | OrangeRed | DeepPink.

(** [XMFLOAT4], which the program only uses for the colour of a vertex:
    the value of a value-initialised object, or a colour constant. *)
Inductive XMFLOAT4 : Type :=
| XMFLOAT4_zero
| XMFLOAT4_of (c : Colors).

(** [struct Vertex] (FrameResource.h, not among the sources), with the
    two members the program assigns. *)
Record Vertex : Type := mkVertex { Pos : XMFLOAT3; Color : XMFLOAT4 }.

(** An element of [std::vector<Vertex> vertices(totalVertexCount)]. *)
Definition Vertex_zero : Vertex :=
  mkVertex (mkXMFLOAT3 (float_of_int 0) (float_of_int 0) (float_of_int 0))
    XMFLOAT4_zero.

(** [struct SubmeshGeometry] (Common/d3dUtil.h): the draw arguments of one
    mesh, with the types of the members of [RenderItem] they are copied
    to. *)
Module Submesh.
Record SubmeshGeometry : Type := mkSubmeshGeometry {
  IndexCount : Z;            (* UINT *)
  StartIndexLocation : Z;    (* UINT *)
  BaseVertexLocation : Z     (* INT *)
}.
End Submesh.
Export Submesh (SubmeshGeometry, mkSubmeshGeometry).

(** [struct MeshGeometry] (Common/d3dUtil.h), as far as the program fills
    it from [vertices] and [indices]; the GPU copies of the two buffers
    hold the same data. *)
Record MeshGeometry : Type := mkMeshGeometry {
  Name : string;
  VertexBufferCPU : list Vertex;
  IndexBufferCPU : list Z;                   (* std::uint16_t *)
  DrawArgs : gmap string SubmeshGeometry
}.

(** [(UINT)v.size()] *)
Definition size_UINT {A : Type} (v : list A) : Z := to_UINT (Z.of_nat (length v)).

(** One of the meshes of [BuildShapeGeometry]: its key in [DrawArgs], its
    data and the colour its vertices receive. *)
Record ShapePart : Type := mkShapePart {
  partName : string;
  partMesh : MeshData;
  partColor : Colors
}.

(** The offsets [boxVertexOffset], [gridVertexOffset], ... and
    [boxIndexOffset], [gridIndexOffset], ..., each the previous offset plus
    the previous size in [UINT], and the [SubmeshGeometry] made of them. *)
Fixpoint submeshes_from (vertexOffset indexOffset : Z) (parts : list ShapePart)
    : list (string * SubmeshGeometry) :=
  match parts with
  | [] => []
  | p :: rest =>
      (partName p,
       mkSubmeshGeometry (size_UINT (Indices32 (partMesh p))) indexOffset
         (int_of_UINT vertexOffset))
      :: submeshes_from
           (to_UINT (vertexOffset + size_UINT (Vertices (partMesh p))))
           (to_UINT (indexOffset + size_UINT (Indices32 (partMesh p))))
           rest
  end.

(** One loop [for (size_t i = 0; i < mesh.Vertices.size(); ++i, ++k)]:
    [vertices[k]] receives the position and the colour; [k] is a
    [UINT]. *)
Fixpoint copy_positions (positions : list XMFLOAT3) (c : Colors) (k : Z)
    (vertices : list Vertex) : Result (Z * list Vertex) :=
  match positions with
  | [] => Done (k, vertices)
  | pos :: rest =>
      match vec_at vertices k with
      | Some _ =>
          copy_positions rest c (to_UINT (k + 1))
            (<[Z.to_nat k := mkVertex pos (XMFLOAT4_of c)]> vertices)
      | None => Undefined
      end
  end.

(** The loops of all the meshes, one after the other, sharing [k]. *)
Fixpoint fill_vertices (parts : list ShapePart) (k : Z) (vertices : list Vertex)
    : Result (Z * list Vertex) :=
  match parts with
  | [] => Done (k, vertices)
  | p :: rest =>
      let* r := copy_positions (Vertices (partMesh p)) (partColor p) k vertices in
      fill_vertices rest (fst r) (snd r)
  end.

Definition all_positions (parts : list ShapePart) : list XMFLOAT3 :=
  flat_map (fun p => Vertices (partMesh p)) parts.

(** [indices], after the [insert] of every mesh's [GetIndices16()]. *)
Definition all_indices (parts : list ShapePart) : list Z :=
  flat_map (fun p => GetIndices16 (partMesh p)) parts.

(** The body of [BuildShapeGeometry] for the meshes [parts]: the submeshes,
    the vertex array of [totalVertexCount] elements (a sum in [size_t],
    which the sizes of vectors that exist together do not overflow) and
    its filling, the index array, and the assignments
    [geo->DrawArgs[name] = submesh] in the order of the meshes. *)
Definition pack_shapes (parts : list ShapePart) : Result MeshGeometry :=
  let subs := submeshes_from 0 0 parts in
  let totalVertexCount := length (all_positions parts) in
  let* r := fill_vertices parts 0 (replicate totalVertexCount Vertex_zero) in
  Done (mkMeshGeometry "shapeGeo" (snd r) (all_indices parts)
          (foldl (fun m kv => <[fst kv := snd kv]> m) ∅ subs)).

(** The eleven meshes in the order in which [BuildShapeGeometry] lays them
    out, with their keys and colours. *)
Definition shape_parts
    (box grid sphere cylinder cone torus diamond wedge pyramid
     triangularPrism quad : MeshData) : list ShapePart :=
  [ mkShapePart "box" box Gold;
    mkShapePart "grid" grid ForestGreen;
    mkShapePart "sphere" sphere Crimson;
    mkShapePart "cylinder" cylinder SteelBlue;
    mkShapePart "cone" cone DarkCyan;
    mkShapePart "torus" torus DarkGoldenrod;
    mkShapePart "diamond" diamond IndianRed;
    mkShapePart "wedge" wedge BurlyWood;
    mkShapePart "pyramid" pyramid SandyBrown;
    mkShapePart "triangularPrism" triangularPrism OrangeRed;
    mkShapePart "quad" quad DeepPink ].

(** [BuildShapeGeometry], given the meshes that [GeometryGenerator]
    returns. *)
Definition BuildShapeGeometry
    (box grid sphere cylinder cone torus diamond wedge pyramid
     triangularPrism quad : MeshData) : Result MeshGeometry :=
  pack_shapes
    (shape_parts box grid sphere cylinder cone torus diamond wedge pyramid
       triangularPrism quad).

(** [Geo->DrawArgs[name]]: a key that is not in the map yields a
    value-initialised submesh. *)
Definition DrawArgs_at (geo : MeshGeometry) (name : string) : SubmeshGeometry :=
  default (mkSubmeshGeometry 0 0 0) (DrawArgs geo !! name).

(** What [BuildRenderItems] copies into a render item that draws the mesh
    [name] with the world matrix [world]. *)
Definition shape_of (geo : MeshGeometry) (name : string) (world : XMFLOAT4X4)
    : Shape :=
  mkShape world
    (Submesh.IndexCount (DrawArgs_at geo name))
    (Submesh.StartIndexLocation (DrawArgs_at geo name))
    (Submesh.BaseVertexLocation (DrawArgs_at geo name)).

(** The vertices of a mesh as the vertex buffer holds them. *)
Definition coloured (p : ShapePart) : list Vertex :=
  map (fun pos => mkVertex pos (XMFLOAT4_of (partColor p))) (Vertices (partMesh p)).

(** ** Mouse input *)

Record POINT : Type := mkPOINT { px : Z; py : Z }.

(** [MK_LBUTTON] and [MK_RBUTTON] of WinUser.h. *)
Definition MK_LBUTTON : Z := 1.
Definition MK_RBUTTON : Z := 2.

(** Routines and constants of MathHelper.h and DirectXMath used by the
    mouse handlers. *)
Class MathHelper : Type := {
  XMConvertToRadians : float -> float;
  Clamp : float -> float -> float -> float;
  Pi : float
}.

Definition fsub (a b : float) : float := SFsub 24 128 a b.

(** The binary32 number nearest to [m * 2 ^ e]. *)
Definition float_literal (m e : Z) : float := binary_normalize 24 128 m e false.

(** [x - y] on [int]: outside the range of [int] the difference has no
    defined behaviour. *)
Definition int_sub (x y : Z) : Result Z :=
  if (- 2 ^ 31 <=? x - y) && (x - y <=? INT_MAX) then Done (x - y) else Undefined.

(** Assignment to [mTheta], [mPhi] and [mRadius]. *)
Definition set_orbit (theta phi radius : float) (a : ShapesApp) : ShapesApp :=
  set_window theta phi radius (mProj a) (mClientWidth a) (mClientHeight a) a.

Section Mouse.

Context {helper : MathHelper}.

(** The handlers work on the application together with [mLastMousePos],
    which no constructor initialises: it has no value ([None]) until a
    handler stores one. *)
Definition OnMouseDown (btnState x y : Z) (s : ShapesApp * option POINT)
    : ShapesApp * option POINT :=
  (fst s, Some (mkPOINT x y)).

Definition OnMouseUp (btnState x y : Z) (s : ShapesApp * option POINT)
    : ShapesApp * option POINT := s.

(** [0.25f] is [float_literal 1 (-2)], [0.1f] is
    [float_literal 13421773 (-27)] and [0.05f] is
    [float_literal 13421773 (-28)]. *)
Definition OnMouseMove (btnState x y : Z) (s : ShapesApp * option POINT)
    : Result (ShapesApp * option POINT) :=
  let a := fst s in
  let* a1 :=
    if negb (Z.land btnState MK_LBUTTON =? 0) then
      match snd s with
      | None => Undefined
      | Some last =>
          let* ix := int_sub x (px last) in
          let dx := XMConvertToRadians
                      (fmul (float_literal 1 (-2)) (float_of_int ix)) in
          let* iy := int_sub y (py last) in
          let dy := XMConvertToRadians
                      (fmul (float_literal 1 (-2)) (float_of_int iy)) in
          let theta := fadd (mTheta a) dx in
          let phi := fadd (mPhi a) dy in
          Done (set_orbit theta
                  (Clamp phi (float_literal 13421773 (-27))
                     (fsub Pi (float_literal 13421773 (-27))))
                  (mRadius a) a)
      end
    else if negb (Z.land btnState MK_RBUTTON =? 0) then
      match snd s with
      | None => Undefined
      | Some last =>
          let* ix := int_sub x (px last) in
          let dx := fmul (float_literal 13421773 (-28)) (float_of_int ix) in
          let* iy := int_sub y (py last) in
          let dy := fmul (float_literal 13421773 (-28)) (float_of_int iy) in
          let radius := fadd (mRadius a) (fsub dx dy) in
          Done (set_orbit (mTheta a) (mPhi a)
                  (Clamp radius (float_of_int 5) (float_of_int 150)) a)
      end
    else Done a in
  Done (a1, Some (mkPOINT x y)).

End Mouse.

(** ** Concrete meshes and input for evaluating the model *)

Definition demo_position (x y z : Z) : XMFLOAT3 :=
  mkXMFLOAT3 (float_of_int x) (float_of_int y) (float_of_int z).

Definition demo_quad : MeshData :=
  mkMeshData
    [ demo_position 0 0 0; demo_position 1 0 0;
      demo_position 1 1 0; demo_position 0 1 0 ]
    [0; 1; 2; 0; 2; 3].

Definition demo_triangle : MeshData :=
  mkMeshData
    [ demo_position 0 0 0; demo_position 1 0 0; demo_position 0 1 0 ]
    [0; 1; 2].

Definition demo_parts : list ShapePart :=
  shape_parts demo_quad demo_triangle demo_triangle demo_quad demo_triangle
    demo_triangle demo_quad demo_triangle demo_triangle demo_triangle demo_quad.

Definition demo_geo : MeshGeometry :=
  result_or (mkMeshGeometry "" [] [] ∅)
    (BuildShapeGeometry demo_quad demo_triangle demo_triangle demo_quad
       demo_triangle demo_triangle demo_quad demo_triangle demo_triangle
       demo_triangle demo_quad).

(** The frame resource at index [p]. *)
Definition demo_frame_resource (a : ShapesApp) (p : Z) : FrameResource :=
  match vec_at (mFrameResources a) p with
  | Some fr => fr
  | None => newFrameResource [] []
  end.

(** A stand-in for the routines of [MathHelper]: degrees are scaled by
    [Pi / 180], and [Clamp] returns the bound its argument passes.  The
    theorems hold for every instance. *)
Definition PlainHelper : MathHelper := {|
  XMConvertToRadians := fun d =>
    fmul d (fdiv (float_literal 13176795 (-22)) (float_of_int 180));
  Clamp := fun x low high =>
    if SFltb x low then low else if SFltb high x then high else x;
  Pi := float_literal 13176795 (-22)
|}.

(** * Properties *)

(** ** Outcomes, buffers and machine integers *)

Lemma bind_Done {A B : Type} (r : Result A) (k : A -> Result B) (b : B) :
  bind r k = Done b -> exists a, r = Done a /\ k a = Done b.
Proof. destruct r; simpl; intros E; try discriminate. eauto. Qed.

Lemma int_of_UINT_small (u : Z) : 0 <= u < 2 ^ 31 -> int_of_UINT u = u.
Proof.
  intros Hu. unfold int_of_UINT.
  destruct (u <? 2 ^ 31) eqn:E; [reflexivity|]. apply Z.ltb_ge in E. lia.
Qed.

Lemma to_UINT_small (z : Z) : 0 <= z < 2 ^ 32 -> to_UINT z = z.
Proof. intros Hz. unfold to_UINT, UINT_MAX_plus_1. apply Z.mod_small. lia. Qed.

Lemma to_UINT64_small (z : Z) : 0 <= z < 2 ^ 64 -> to_UINT64 z = z.
Proof. intros Hz. unfold to_UINT64, UINT64_MAX_plus_1. apply Z.mod_small. lia. Qed.

Lemma CopyData_in_range {T : Type} (i : Z) (x : T) (b : UploadBuffer T) :
  0 <= i < Z.of_nat (length b) ->
  CopyData i x b = Done (<[Z.to_nat i := x]> b).
Proof.
  intros [H0 H1]. unfold CopyData.
  apply Z.leb_le in H0. apply Z.ltb_lt in H1. rewrite H0, H1. reflexivity.
Qed.

Lemma CopyData_Done {T : Type} (i : Z) (x : T) (b b' : UploadBuffer T) :
  CopyData i x b = Done b' ->
  0 <= i < Z.of_nat (length b) /\ b' = <[Z.to_nat i := x]> b.
Proof.
  unfold CopyData. intros E.
  destruct (0 <=? i) eqn:H0; destruct (i <? Z.of_nat (length b)) eqn:H1;
    simpl in E; try discriminate.
  apply Z.leb_le in H0. apply Z.ltb_lt in H1. split; [lia | congruence].
Qed.

Lemma vec_at_Some {A : Type} (v : list A) (i : Z) (x : A) :
  vec_at v i = Some x <-> 0 <= i /\ v !! Z.to_nat i = Some x.
Proof.
  unfold vec_at. destruct (i <? 0) eqn:E.
  - apply Z.ltb_lt in E. split; [discriminate | lia].
  - apply Z.ltb_ge in E. tauto.
Qed.

(** ** The per-object commit *)

Lemma UpdateObjectCBs_loop_spec (items : list RenderItem) :
  forall (i : Z) (cb : UploadBuffer ObjectConstants),
    indexed_from i items = true ->
    0 <= i ->
    i + Z.of_nat (length items) <= Z.of_nat (length cb) ->
    Z.of_nat (length cb) <= 2 ^ 31 ->
    exists cb',
      UpdateObjectCBs_loop items cb = Done (map step_item items, cb')
      /\ length cb' = length cb
      /\ (forall j : nat,
             (Z.of_nat j < i \/ i + Z.of_nat (length items) <= Z.of_nat j) ->
             cb' !! j = cb !! j)
      /\ (forall (k : nat) (e : RenderItem),
             items !! k = Some e ->
             cb' !! (Z.to_nat i + k)%nat =
             if 0 <? NumFramesDirty e then Some (object_constants_of e)
             else cb !! (Z.to_nat i + k)%nat).
Proof.
  induction items as [|e rest IH]; intros i cb Hidx Hi Hlen Hsz.
  - exists cb. simpl. repeat split; auto.
    intros k e Hk. rewrite lookup_nil in Hk. discriminate.
  - simpl in Hidx. apply andb_true_iff in Hidx as [He Hrest].
    apply Z.eqb_eq in He. simpl length in Hlen.
    simpl UpdateObjectCBs_loop. simpl map. unfold step_item at 1.
    destruct (0 <? NumFramesDirty e) eqn:Hd.
    + rewrite int_of_UINT_small by lia.
      unfold XMLoadFloat4x4, XMStoreFloat4x4.
      rewrite CopyData_in_range by lia. simpl bind.
      destruct (IH (i + 1) (<[Z.to_nat (ObjCBIndex e) :=
                  mkObjectConstants (XMMatrixTranspose (World e))]> cb))
        as (cb' & Hloop & Hl & Hout & Hin);
        [assumption | lia | rewrite length_insert; lia
        | rewrite length_insert; lia |].
      rewrite Hloop. simpl. exists cb'. split; [reflexivity|].
      rewrite length_insert in Hl. split; [assumption|]. split.
      * intros j Hj. rewrite Hout by lia.
        apply list_lookup_insert_ne. lia.
      * intros [|k] e' Hk; simpl in Hk.
        -- inversion Hk; subst e'. rewrite Hd.
           rewrite Nat.add_0_r. rewrite Hout by lia.
           rewrite He. apply list_lookup_insert_eq. lia.
        -- specialize (Hin k e' Hk).
           replace (Z.to_nat i + S k)%nat with (Z.to_nat (i + 1) + k)%nat by lia.
           rewrite Hin. destruct (0 <? NumFramesDirty e'); [reflexivity|].
           apply list_lookup_insert_ne. lia.
    + destruct (IH (i + 1) cb) as (cb' & Hloop & Hl & Hout & Hin);
        [assumption | lia | lia | lia |].
      rewrite Hloop. simpl. exists cb'. split; [reflexivity|].
      split; [assumption|]. split.
      * intros j Hj. apply Hout. lia.
      * intros [|k] e' Hk; simpl in Hk.
        -- inversion Hk; subst e'. rewrite Hd.
           rewrite Nat.add_0_r. apply Hout. lia.
        -- specialize (Hin k e' Hk).
           replace (Z.to_nat i + S k)%nat with (Z.to_nat (i + 1) + k)%nat by lia.
           exact Hin.
Qed.

Lemma vec_at_insert {A : Type} (v : list A) (i : Z) (x y : A) :
  vec_at v i = Some y -> vec_at (<[Z.to_nat i := x]> v) i = Some x.
Proof.
  intros H. apply vec_at_Some in H as [Hi Hl]. apply vec_at_Some.
  split; [exact Hi|]. apply list_lookup_insert_eq.
  eapply lookup_lt_Some. exact Hl.
Qed.

Lemma UpdateObjectCBs_loop_items (items : list RenderItem) :
  forall cb r,
    UpdateObjectCBs_loop items cb = Done r -> fst r = map step_item items.
Proof.
  induction items as [|e rest IH]; intros cb r E; simpl in E.
  - inversion E. reflexivity.
  - unfold step_item at 1. simpl map.
    destruct (0 <? NumFramesDirty e).
    + apply bind_Done in E as (cb1 & _ & E).
      apply bind_Done in E as (r1 & E1 & E). inversion E; subst r. simpl.
      f_equal. eapply IH, E1.
    + apply bind_Done in E as (r1 & E1 & E). inversion E; subst r. simpl.
      f_equal. eapply IH, E1.
Qed.

Lemma UpdateObjectCBs_loop_length (items : list RenderItem) :
  forall cb r,
    UpdateObjectCBs_loop items cb = Done r -> length (snd r) = length cb.
Proof.
  induction items as [|e rest IH]; intros cb r E; simpl in E.
  - inversion E. reflexivity.
  - destruct (0 <? NumFramesDirty e).
    + apply bind_Done in E as (cb1 & E0 & E).
      apply bind_Done in E as (r1 & E1 & E). inversion E; subst r. simpl.
      apply CopyData_Done in E0 as [_ ->].
      rewrite (IH _ _ E1). apply length_insert.
    + apply bind_Done in E as (r1 & E1 & E). inversion E; subst r. simpl.
      eapply IH, E1.
Qed.

(** ** The GPU timeline *)

Lemma chain_bounds (q : list Z) :
  forall lo hi, chain lo q hi = true ->
    lo <= hi /\ (forall v, In v q -> lo < v <= hi).
Proof.
  induction q as [|v q IH]; intros lo hi H; simpl in H.
  - apply Z.eqb_eq in H. split; [lia | intros v []].
  - apply andb_true_iff in H as [Hlt H]. apply Z.ltb_lt in Hlt.
    destruct (IH _ _ H) as [Hle Hin]. split; [lia|].
    intros w [<- | Hw]; [lia|]. specialize (Hin w Hw). lia.
Qed.

Lemma chain_NoDup (q : list Z) :
  forall lo hi, chain lo q hi = true -> List.NoDup q.
Proof.
  induction q as [|v q IH]; intros lo hi H; simpl in H.
  - constructor.
  - apply andb_true_iff in H as [_ H]. constructor.
    + intros Hin. apply (chain_bounds q v hi H) in Hin. lia.
    + eapply IH, H.
Qed.

Lemma chain_snoc (q : list Z) :
  forall lo hi v, chain lo q hi = true -> hi < v ->
    chain lo (q ++ [v]) v = true.
Proof.
  induction q as [|w q IH]; intros lo hi v H Hv; simpl in *.
  - apply Z.eqb_eq in H. subst hi.
    apply andb_true_iff. split; [apply Z.ltb_lt; lia | apply Z.eqb_refl].
  - apply andb_true_iff in H as [Hlt H].
    apply andb_true_iff. split; [assumption | eapply IH; eassumption].
Qed.

(** A returning wait has seen the fence reach the target; it has consumed
    a prefix of the queue. *)
Lemma wait_queue_Done (target : Z) (q : list Z) :
  forall reached g,
    wait_queue target reached q = Done g ->
    target <= completed g
    /\ (exists done, q = done ++ pending g)
    /\ (completed g = reached \/ In (completed g) q).
Proof.
  induction q as [|v q IH]; intros reached g E; simpl in E.
  - destruct (target <=? reached) eqn:Ht; [|discriminate].
    inversion E; subst g. simpl. apply Z.leb_le in Ht.
    split; [assumption|]. split; [exists []; reflexivity | left; reflexivity].
  - destruct (target <=? reached) eqn:Ht.
    + inversion E; subst g. simpl. apply Z.leb_le in Ht.
      split; [assumption|]. split; [exists []; reflexivity | left; reflexivity].
    + destruct (IH _ _ E) as (H1 & [done H2] & H3).
      split; [assumption|]. split.
      * exists (v :: done). simpl. f_equal. exact H2.
      * right. destruct H3 as [-> | H3]; [left; reflexivity | right; exact H3].
Qed.

(** A wait on a value that no queued signal reaches never returns. *)
Lemma wait_queue_Blocked (target : Z) (q : list Z) :
  forall reached,
    reached < target -> (forall v, In v q -> v < target) ->
    wait_queue target reached q = Blocked.
Proof.
  induction q as [|v q IH]; intros reached Hr Hq; simpl.
  - destruct (target <=? reached) eqn:Ht; [apply Z.leb_le in Ht; lia | reflexivity].
  - destruct (target <=? reached) eqn:Ht; [apply Z.leb_le in Ht; lia|].
    apply IH; [apply Hq; left; reflexivity | intros w Hw; apply Hq; right; exact Hw].
Qed.

(** When the queue leads up to [hi], a wait on a target not above [hi]
    returns, and what remains of the queue still leads up to [hi]. *)
Lemma wait_queue_chain (target : Z) (q : list Z) :
  forall lo hi,
    chain lo q hi = true -> target <= hi ->
    exists g, wait_queue target lo q = Done g
              /\ lo <= completed g
              /\ chain (completed g) (pending g) hi = true.
Proof.
  induction q as [|v q IH]; intros lo hi H Ht; simpl in *.
  - apply Z.eqb_eq in H. subst hi.
    apply Z.leb_le in Ht. rewrite Ht. eexists. split; [reflexivity|].
    simpl. split; [lia | apply Z.eqb_refl].
  - destruct (target <=? lo) eqn:E.
    + eexists. split; [reflexivity|]. simpl. split; [lia | exact H].
    + apply andb_true_iff in H as [Hlt H]. apply Z.ltb_lt in Hlt.
      destruct (IH v hi H Ht) as (g & Hg & Hle & Hc).
      exists g. split; [assumption|]. split; [lia | assumption].
Qed.

Lemma gpu_retire_chain (g : Gpu) (hi : Z) :
  chain (completed g) (pending g) hi = true ->
  completed g <= completed (gpu_retire g)
  /\ chain (completed (gpu_retire g)) (pending (gpu_retire g)) hi = true
  /\ (forall v, In v (pending (gpu_retire g)) -> In v (pending g)).
Proof.
  unfold gpu_retire. destruct (pending g) as [|v q] eqn:Hq; simpl; intros H.
  - rewrite Hq. split; [lia|]. split; [exact H | intros v []].
  - apply andb_true_iff in H as [Hlt H]. apply Z.ltb_lt in Hlt.
    split; [lia|]. split; [exact H | intros w Hw; right; exact Hw].
Qed.

Lemma gpu_run_chain (n : nat) :
  forall (g : Gpu) (hi : Z),
    chain (completed g) (pending g) hi = true ->
    completed g <= completed (gpu_run n g)
    /\ chain (completed (gpu_run n g)) (pending (gpu_run n g)) hi = true
    /\ (forall v, In v (pending (gpu_run n g)) -> In v (pending g)).
Proof.
  induction n as [|n IH]; intros g hi H; simpl.
  - split; [lia|]. split; [exact H | auto].
  - destruct (gpu_retire_chain g hi H) as (H1 & H2 & H3).
    destruct (IH _ _ H2) as (H4 & H5 & H6).
    split; [lia|]. split; [exact H5 | auto].
Qed.

(** ** Well-formed states, as propositions *)

Lemma scene_ok_iff (a : ShapesApp) : scene_ok a = true <-> scene_inv a.
Proof.
  unfold scene_ok, scene_inv.
  rewrite !andb_true_iff, !forallb_forall, Nat.eqb_eq, Z.leb_le, Z.ltb_lt, Z.leb_le.
  split.
  - intros (((((((H1 & H2) & H3) & H4) & H5) & H6) & H7) & H8).
    repeat split; try assumption.
    + intros p Hp. rewrite Hp in H4. apply Z.eqb_eq in H4. exact H4.
    + apply H6 in H. apply andb_true_iff in H as [H _]. apply Z.leb_le in H. exact H.
    + apply H6 in H. apply andb_true_iff in H as [_ H]. apply Z.leb_le in H. exact H.
    + apply H8 in H. apply andb_true_iff in H as [H _]. apply Nat.eqb_eq in H. exact H.
    + apply H8 in H. apply andb_true_iff in H as [_ H]. apply Nat.leb_le in H. exact H.
  - intros (H1 & [H2 H3] & H4 & H5 & H6 & H7 & H8).
    repeat split; try assumption.
    + destruct (mCurrFrameResource a) as [p|]; [|reflexivity].
      apply Z.eqb_eq. apply H4. reflexivity.
    + intros e He. apply H6 in He. apply andb_true_iff.
      split; apply Z.leb_le; lia.
    + intros fr Hfr. apply H8 in Hfr as [Ha Hb]. apply andb_true_iff.
      split; [apply Nat.eqb_eq | apply Nat.leb_le]; assumption.
Qed.

Lemma fence_ok_iff (a : ShapesApp) : fence_ok a = true <-> fence_inv a.
Proof.
  unfold fence_ok, fence_inv.
  rewrite !andb_true_iff, !forallb_forall, Z.leb_le.
  split.
  - intros (((H1 & H2) & H3) & H4). repeat split; try assumption.
    + intros v Hv. apply H3 in Hv. apply existsb_exists in Hv as (fr & Hfr & E).
      apply Z.eqb_eq in E. eauto.
    + apply H4 in H. apply andb_true_iff in H as [H _]. apply Z.leb_le in H. exact H.
    + apply H4 in H. apply andb_true_iff in H as [_ H]. apply Z.leb_le in H. exact H.
  - intros (H1 & H2 & H3 & H4). repeat split; try assumption.
    + intros v Hv. apply H3 in Hv as (fr & Hfr & E). apply existsb_exists.
      exists fr. split; [assumption | apply Z.eqb_eq; assumption].
    + intros fr Hfr. apply H4 in Hfr. apply andb_true_iff.
      split; apply Z.leb_le; lia.
Qed.

Lemma In_insert {A : Type} (l : list A) :
  forall (i : nat) (x y : A), In x (<[i := y]> l) -> x = y \/ In x l.
Proof.
  induction l as [|z l IH]; intros i x y H.
  - destruct H.
  - destruct i as [|i]; simpl in H.
    + destruct H as [<- | H]; [left; reflexivity | right; right; exact H].
    + destruct H as [<- | H]; [right; left; reflexivity|].
      apply IH in H as [-> | H]; [left; reflexivity | right; right; exact H].
Qed.

Lemma In_lookup {A : Type} (l : list A) (x : A) :
  In x l <-> exists i : nat, l !! i = Some x.
Proof. rewrite <- list_elem_of_In. apply list_elem_of_lookup. Qed.

(** An element other than the one replaced is still there. *)
Lemma In_insert_other {A : Type} (l : list A) (i : nat) (x y z : A) :
  l !! i = Some z -> In x l -> x <> z -> In x (<[i := y]> l).
Proof.
  intros Hz Hx Hne. apply In_lookup in Hx as [j Hj].
  apply In_lookup. exists j.
  rewrite list_lookup_insert_ne; [exact Hj|].
  intros ->. rewrite Hz in Hj. inversion Hj. congruence.
Qed.

Lemma indexed_from_step (items : list RenderItem) :
  forall i, indexed_from i (map step_item items) = indexed_from i items.
Proof.
  induction items as [|e rest IH]; intros i; simpl; [reflexivity|].
  rewrite IH. f_equal. unfold step_item.
  destruct (0 <? NumFramesDirty e); reflexivity.
Qed.

Lemma indexed_from_lookup (items : list RenderItem) :
  forall (i : Z) (k : nat) (e : RenderItem),
    indexed_from i items = true -> items !! k = Some e ->
    ObjCBIndex e = i + Z.of_nat k.
Proof.
  induction items as [|e0 rest IH]; intros i k e H Hk.
  - rewrite lookup_nil in Hk. discriminate.
  - simpl in H. apply andb_true_iff in H as [H0 H]. apply Z.eqb_eq in H0.
    destruct k as [|k]; simpl in Hk.
    + inversion Hk; subst. lia.
    + rewrite (IH _ _ _ H Hk). lia.
Qed.

Lemma next_index_range (a : ShapesApp) :
  0 <= mCurrFrameResourceIndex a ->
  0 <= Z.rem (mCurrFrameResourceIndex a + 1) gNumFrameResources < gNumFrameResources
  /\ Z.rem (mCurrFrameResourceIndex a + 1) gNumFrameResources
     = (mCurrFrameResourceIndex a + 1) mod gNumFrameResources.
Proof.
  intros H. unfold gNumFrameResources. split.
  - apply Z.rem_bound_pos; lia.
  - apply Z.rem_mod_nonneg; lia.
Qed.

Lemma wait_for_frame_resource_Done (fr : FrameResource) (g0 g : Gpu) :
  wait_for_frame_resource fr g0 = Done g ->
  0 <= completed g0 ->
  Fence fr <= completed g
  /\ (exists done, pending g0 = done ++ pending g)
  /\ (completed g = completed g0 \/ In (completed g) (pending g0)).
Proof.
  unfold wait_for_frame_resource, GetCompletedValue, WaitForSingleObject.
  intros E H0.
  destruct (Fence fr =? 0) eqn:Hz; simpl in E.
  - inversion E; subst g. apply Z.eqb_eq in Hz.
    split; [lia|]. split; [exists []; reflexivity | left; reflexivity].
  - destruct (completed g0 <? Fence fr) eqn:Hlt.
    + apply wait_queue_Done in E. exact E.
    + inversion E; subst g. apply Z.ltb_ge in Hlt.
      split; [lia|]. split; [exists []; reflexivity | left; reflexivity].
Qed.

Lemma wait_for_frame_resource_chain (fr : FrameResource) (g0 : Gpu) (hi : Z) :
  chain (completed g0) (pending g0) hi = true -> Fence fr <= hi ->
  exists g, wait_for_frame_resource fr g0 = Done g
            /\ completed g0 <= completed g
            /\ chain (completed g) (pending g) hi = true.
Proof.
  intros Hc Hle.
  unfold wait_for_frame_resource, GetCompletedValue, WaitForSingleObject.
  destruct (negb (Fence fr =? 0) && (completed g0 <? Fence fr)).
  - apply wait_queue_chain; assumption.
  - exists g0. split; [reflexivity|]. split; [lia | assumption].
Qed.

Section Frame.

Context {math : DirectXMath}.

Lemma select_frame_resource_eq (key1 : bool) (a : ShapesApp) :
  select_frame_resource key1 a =
  mkShapesApp (mFrameResources a) (Some (next_index a)) (next_index a)
    (mAllRitems a) (mMainPassCB a) (mPassCbvOffset a) key1
    (mEyePos (UpdateCamera a)) (mView (UpdateCamera a)) (mProj a)
    (mTheta a) (mPhi a) (mRadius a)
    (mClientWidth a) (mClientHeight a) (mCurrentFence a) (gpu a).
Proof. destruct key1; reflexivity. Qed.

Lemma main_pass_constants_ext (gt : GameTimer) (a b : ShapesApp) :
  mView a = mView b -> mProj a = mProj b -> mEyePos a = mEyePos b ->
  mClientWidth a = mClientWidth b -> mClientHeight a = mClientHeight b ->
  main_pass_constants gt a = main_pass_constants gt b.
Proof.
  intros Hv Hp He Hw Hh. unfold main_pass_constants.
  rewrite Hv, Hp, He, Hw, Hh. reflexivity.
Qed.

Lemma curr_frame_resource_select (key1 : bool) (a : ShapesApp) :
  curr_frame_resource (select_frame_resource key1 a) =
  match vec_at (mFrameResources a) (next_index a) with
  | Some fr => Done fr
  | None => Undefined
  end.
Proof. rewrite select_frame_resource_eq. reflexivity. Qed.

Lemma UpdateObjectCBs_eq (a : ShapesApp) (p : Z) (fr : FrameResource) :
  mCurrFrameResource a = Some p ->
  vec_at (mFrameResources a) p = Some fr ->
  UpdateObjectCBs a =
  bind (UpdateObjectCBs_loop (mAllRitems a) (ObjectCB fr)) (fun r =>
    Done (set_mAllRitems (fst r)
            (set_mFrameResources
               (<[Z.to_nat p := set_ObjectCB (snd r) fr]> (mFrameResources a))
               a))).
Proof.
  intros Hp Hv. unfold UpdateObjectCBs, curr_frame_resource, store_curr.
  rewrite Hp, Hv. reflexivity.
Qed.

Lemma UpdateMainPassCB_eq (gt : GameTimer) (a : ShapesApp) (p : Z)
    (fr : FrameResource) :
  mCurrFrameResource a = Some p ->
  vec_at (mFrameResources a) p = Some fr ->
  UpdateMainPassCB gt a =
  bind (CopyData 0 (main_pass_constants gt a) (PassCB fr)) (fun pcb =>
    Done (set_mFrameResources
            (<[Z.to_nat p := set_PassCB pcb fr]> (mFrameResources a))
            (set_mMainPassCB (main_pass_constants gt a) a))).
Proof.
  intros Hp Hv. unfold UpdateMainPassCB, curr_frame_resource, store_curr.
  cbn [set_mMainPassCB mCurrFrameResource mFrameResources mMainPassCB].
  rewrite Hp, Hv. reflexivity.
Qed.

(** [Update] spelled out once the selected frame resource is known. *)
Lemma Update_unfold (gt : GameTimer) (key1 : bool) (a : ShapesApp)
    (fr : FrameResource) :
  mCurrFrameResourceIndex a < INT_MAX ->
  vec_at (mFrameResources a) (next_index a) = Some fr ->
  Update gt key1 a =
  bind (wait_for_frame_resource fr (gpu a)) (fun g =>
    bind (UpdateObjectCBs (set_gpu g (select_frame_resource key1 a)))
      (UpdateMainPassCB gt)).
Proof.
  intros Hov Hv. unfold Update.
  destruct (INT_MAX <=? mCurrFrameResourceIndex a) eqn:E;
    [apply Z.leb_le in E; lia|].
  rewrite curr_frame_resource_select, Hv. cbn [bind].
  assert (Hg : gpu (select_frame_resource key1 a) = gpu a)
    by (rewrite select_frame_resource_eq; reflexivity).
  rewrite Hg. reflexivity.
Qed.

(** The state a returning [Update] leaves, field by field. *)
Lemma Update_inv (gt : GameTimer) (key1 : bool) (a a' : ShapesApp) :
  Update gt key1 a = Done a' ->
  exists fr g r pcb,
    mCurrFrameResourceIndex a < INT_MAX
    /\ vec_at (mFrameResources a) (next_index a) = Some fr
    /\ wait_for_frame_resource fr (gpu a) = Done g
    /\ UpdateObjectCBs_loop (mAllRitems a) (ObjectCB fr) = Done r
    /\ CopyData 0 (main_pass_constants gt (UpdateCamera a)) (PassCB fr) = Done pcb
    /\ a' = mkShapesApp
              (<[Z.to_nat (next_index a) :=
                   mkFrameResource (CmdListAlloc fr) pcb (snd r) (Fence fr)]>
                 (mFrameResources a))
              (Some (next_index a)) (next_index a) (fst r)
              (main_pass_constants gt (UpdateCamera a))
              (mPassCbvOffset a) key1
              (mEyePos (UpdateCamera a)) (mView (UpdateCamera a)) (mProj a)
              (mTheta a) (mPhi a) (mRadius a)
              (mClientWidth a) (mClientHeight a) (mCurrentFence a) g.
Proof.
  intros E.
  assert (Hov : mCurrFrameResourceIndex a < INT_MAX).
  { unfold Update in E.
    destruct (INT_MAX <=? mCurrFrameResourceIndex a) eqn:H; [discriminate|].
    apply Z.leb_gt in H. exact H. }
  assert (Hfr : exists fr, vec_at (mFrameResources a) (next_index a) = Some fr).
  { unfold Update in E.
    destruct (INT_MAX <=? mCurrFrameResourceIndex a); [discriminate|].
    rewrite curr_frame_resource_select in E.
    destruct (vec_at (mFrameResources a) (next_index a)) as [fr|];
      [eauto | discriminate]. }
  destruct Hfr as [fr Hv].
  rewrite (Update_unfold gt key1 a fr Hov Hv) in E.
  apply bind_Done in E as (g & Hg & E).
  rewrite select_frame_resource_eq in E.
  cbn [set_gpu mFrameResources mCurrFrameResource mCurrFrameResourceIndex
       mAllRitems mMainPassCB mPassCbvOffset mIsWireframe mEyePos mView
       mProj mTheta mPhi mRadius mClientWidth mClientHeight mCurrentFence gpu]
    in E.
  apply bind_Done in E as (a2 & E2 & E).
  rewrite (UpdateObjectCBs_eq _ (next_index a) fr) in E2
    by first [reflexivity | exact Hv].
  cbn [set_mAllRitems set_mFrameResources
       mFrameResources mCurrFrameResource mCurrFrameResourceIndex
       mAllRitems mMainPassCB mPassCbvOffset mIsWireframe mEyePos mView
       mProj mTheta mPhi mRadius mClientWidth mClientHeight mCurrentFence gpu]
    in E2.
  apply bind_Done in E2 as (r & Hr & E2).
  inversion E2; subst a2. clear E2.
  rewrite (UpdateMainPassCB_eq gt _ (next_index a) (set_ObjectCB (snd r) fr))
    in E by first [reflexivity | apply (vec_at_insert _ _ _ _ Hv)].
  rewrite (main_pass_constants_ext gt _ (UpdateCamera a)) in E by reflexivity.
  cbn [set_mMainPassCB set_mFrameResources set_PassCB set_ObjectCB
       PassCB ObjectCB CmdListAlloc Fence
       mFrameResources mCurrFrameResource mCurrFrameResourceIndex
       mAllRitems mMainPassCB mPassCbvOffset mIsWireframe mEyePos mView
       mProj mTheta mPhi mRadius mClientWidth mClientHeight mCurrentFence gpu]
    in E.
  apply bind_Done in E as (pcb & Hp & E).
  inversion E. clear E.
  exists fr, g, r, pcb.
  split; [exact Hov|]. split; [exact Hv|]. split; [exact Hg|].
  split; [exact Hr|]. split; [exact Hp|].
  rewrite list_insert_insert_eq. reflexivity.
Qed.

Lemma Draw_inv (a a' : ShapesApp) :
  Draw a = Done a' ->
  exists p fr cmds,
    mCurrFrameResource a = Some p
    /\ vec_at (mFrameResources a) p = Some fr
    /\ a' = mkShapesApp
              (<[Z.to_nat p :=
                   mkFrameResource cmds (PassCB fr) (ObjectCB fr)
                     (to_UINT64 (mCurrentFence a + 1))]> (mFrameResources a))
              (Some p) (mCurrFrameResourceIndex a) (mAllRitems a)
              (mMainPassCB a) (mPassCbvOffset a) (mIsWireframe a)
              (mEyePos a) (mView a) (mProj a)
              (mTheta a) (mPhi a) (mRadius a)
              (mClientWidth a) (mClientHeight a)
              (to_UINT64 (mCurrentFence a + 1))
              (Signal (to_UINT64 (mCurrentFence a + 1)) (gpu a)).
Proof.
  unfold Draw, curr_frame_resource, store_curr. intros E.
  destruct (mCurrFrameResource a) as [p|] eqn:Hp; [|discriminate].
  destruct (vec_at (mFrameResources a) p) as [fr|] eqn:Hv; [|discriminate].
  simpl in E. inversion E. clear E.
  eexists p, fr, _. split; [reflexivity|]. split; [exact Hv|].
  unfold set_gpu, set_mCurrentFence, set_mFrameResources. simpl.
  rewrite Hp. reflexivity.
Qed.

(** [Update] keeps the scene and the ring well formed. *)
Lemma Update_scene (gt : GameTimer) (key1 : bool) (a a' : ShapesApp) :
  scene_inv a -> Update gt key1 a = Done a' -> scene_inv a'.
Proof.
  intros (H1 & H2 & H3 & H4 & H5 & H6 & H7) E.
  apply Update_inv in E as (fr & g & r & pcb & Hov & Hv & Hg & Hr & Hp & ->).
  pose proof (UpdateObjectCBs_loop_items _ _ _ Hr) as Hitems.
  pose proof (UpdateObjectCBs_loop_length _ _ _ Hr) as Hlen.
  apply CopyData_Done in Hp as [_ Hp].
  apply vec_at_Some in Hv as [Hge Hv].
  assert (Hfr : In fr (mFrameResources a)) by (apply In_lookup; eauto).
  destruct (H7 fr Hfr) as [Hfo Hfp].
  unfold scene_inv. cbn [mFrameResources mCurrFrameResourceIndex
    mCurrFrameResource mAllRitems].
  rewrite Hitems. rewrite length_insert, length_map, indexed_from_step.
  split; [assumption|]. split.
  { apply next_index_range. lia. }
  split. { intros p Hp'. inversion Hp'. reflexivity. }
  split; [assumption|]. split.
  { intros e He. apply in_map_iff in He as (e0 & <- & He0).
    apply H5 in He0. unfold step_item.
    destruct (0 <? NumFramesDirty e0) eqn:Hd; simpl; [|lia].
    apply Z.ltb_lt in Hd. lia. }
  split; [assumption|].
  intros fr1 Hfr1. apply In_insert in Hfr1 as [-> | Hfr1].
  - simpl. rewrite Hlen, Hp, length_insert. split; assumption.
  - apply H7. exact Hfr1.
Qed.

(** On a well-formed state [Update] returns: the target it may wait for
    has been signalled, and every store is inside its buffer. *)
Lemma Update_returns (gt : GameTimer) (key1 : bool) (a : ShapesApp) :
  scene_inv a -> fence_inv a -> exists a', Update gt key1 a = Done a'.
Proof.
  intros (H1 & H2 & H3 & H4 & H5 & H6 & H7) (F1 & F2 & F3 & F4).
  unfold Update.
  destruct (INT_MAX <=? mCurrFrameResourceIndex a) eqn:Hov.
  { apply Z.leb_le in Hov. unfold INT_MAX, gNumFrameResources in *. lia. }
  rewrite select_frame_resource_eq.
  destruct (next_index_range a) as [[Hn0 Hn1] _]; [lia|].
  fold (next_index a) in Hn0, Hn1.
  assert (Hlt : (Z.to_nat (next_index a) < length (mFrameResources a))%nat)
    by (unfold gNumFrameResources in Hn1; lia).
  destruct (lookup_lt_is_Some_2 _ _ Hlt) as [fr Hfr].
  assert (Hv : vec_at (mFrameResources a) (next_index a) = Some fr)
    by (apply vec_at_Some; split; assumption).
  assert (Hin : In fr (mFrameResources a)) by (apply In_lookup; eauto).
  destruct (H7 fr Hin) as [Hfo Hfp].
  unfold curr_frame_resource at 1.
  cbn [mCurrFrameResource mFrameResources]. rewrite Hv. cbn [bind gpu].
  destruct (wait_for_frame_resource_chain fr (gpu a) (mCurrentFence a) F2)
    as (g & Hg & _); [apply F4; exact Hin|].
  rewrite Hg. cbn [bind].
  unfold UpdateObjectCBs, curr_frame_resource.
  cbn [set_gpu mCurrFrameResource mFrameResources mAllRitems].
  rewrite Hv. cbn [bind].
  destruct (UpdateObjectCBs_loop_spec (mAllRitems a) 0 (ObjectCB fr))
    as (cb' & Hloop & Hcl & _); [assumption | lia | lia | |].
  { unfold INT_MAX, gNumFrameResources in H6. lia. }
  rewrite Hloop. cbn [bind].
  unfold UpdateMainPassCB, curr_frame_resource, store_curr.
  cbn [set_gpu set_mAllRitems set_mMainPassCB set_mFrameResources
       mCurrFrameResource mFrameResources mAllRitems mMainPassCB fst snd].
  unfold vec_at.
  destruct (next_index a <? 0) eqn:Hneg; [apply Z.ltb_lt in Hneg; lia|].
  rewrite list_lookup_insert_eq by assumption. cbn [bind].
  cbn [set_ObjectCB PassCB].
  rewrite CopyData_in_range by lia. cbn [bind].
  eexists. reflexivity.
Qed.

(** [Update] keeps the fence bookkeeping and returns only once the GPU has
    reached the target of the frame resource it selected. *)
Lemma Update_fence (gt : GameTimer) (key1 : bool) (a a' : ShapesApp) :
  scene_inv a -> fence_inv a -> Update gt key1 a = Done a' ->
  fence_inv a' /\ slot_retired a'
  /\ mCurrentFence a' = mCurrentFence a
  /\ completed (gpu a) <= completed (gpu a').
Proof.
  intros (H1 & H2 & H3 & H4 & H5 & H6 & H7) (F1 & F2 & F3 & F4) E.
  apply Update_inv in E as (fr & g & r & pcb & Hov & Hv & Hg & Hr & Hp & ->).
  pose proof Hv as Hv'. apply vec_at_Some in Hv' as [Hge Hlk].
  assert (Hin : In fr (mFrameResources a)) by (apply In_lookup; eauto).
  assert (Hlt : (Z.to_nat (next_index a) < length (mFrameResources a))%nat)
    by (eapply lookup_lt_Some; eassumption).
  destruct (wait_for_frame_resource_Done _ _ _ Hg F1) as (W1 & [done W2] & W3).
  destruct (wait_for_frame_resource_chain fr (gpu a) (mCurrentFence a) F2)
    as (g2 & Hg2 & W4 & W5); [apply F4; exact Hin|].
  rewrite Hg in Hg2. inversion Hg2; subst g2. clear Hg2.
  unfold fence_inv, slot_retired.
  cbn [gpu mFrameResources mCurrentFence mCurrFrameResourceIndex
       mCurrFrameResource].
  split; [split; [lia | split; [assumption | split]] |].
  - intros v Hv0.
    assert (Hv1 : In v (pending (gpu a)))
      by (rewrite W2; apply in_or_app; right; exact Hv0).
    destruct (F3 v Hv1) as (fr0 & Hfr0 & Efr0).
    destruct (Z.eq_dec (Fence fr) v) as [Heq | Hne].
    + eexists. split.
      * apply In_lookup. exists (Z.to_nat (next_index a)).
        apply list_lookup_insert_eq. exact Hlt.
      * exact Heq.
    + exists fr0. split; [|exact Efr0].
      eapply In_insert_other; [exact Hlk | exact Hfr0 | congruence].
  - intros fr1 Hfr1. apply In_insert in Hfr1 as [-> | Hfr1].
    + simpl. apply F4. exact Hin.
    + apply F4. exact Hfr1.
  - split; [|split; [reflexivity | exact W4]].
    eexists. split; [|split; [reflexivity|]].
    + apply vec_at_Some. split; [exact Hge|].
      apply list_lookup_insert_eq. exact Hlt.
    + exact W1.
Qed.

(** GPU progress keeps the bookkeeping, and what was reached stays
    reached. *)
Lemma gpu_run_fence (n : nat) (a : ShapesApp) :
  fence_inv a ->
  fence_inv (set_gpu (gpu_run n (gpu a)) a)
  /\ completed (gpu a) <= completed (gpu_run n (gpu a)).
Proof.
  intros (F1 & F2 & F3 & F4).
  destruct (gpu_run_chain n (gpu a) (mCurrentFence a) F2) as (G1 & G2 & G3).
  split; [|exact G1].
  unfold fence_inv. cbn [set_gpu gpu mFrameResources mCurrentFence].
  split; [lia|]. split; [exact G2|]. split; [|exact F4].
  intros v Hv. apply F3, G3, Hv.
Qed.

Lemma Draw_returns (a : ShapesApp) :
  slot_retired a -> exists a', Draw a = Done a'.
Proof.
  intros (fr & Hv & Hp & _). unfold Draw, curr_frame_resource.
  rewrite Hp, Hv. cbn [bind]. eexists. reflexivity.
Qed.

(** [Draw] keeps the scene, and keeps the fence bookkeeping as long as the
    64-bit counter does not wrap and the GPU has reached the previous
    target of the frame resource being resubmitted. *)
Lemma Draw_invariants (a a' : ShapesApp) :
  scene_inv a -> fence_inv a -> slot_retired a ->
  mCurrentFence a + 1 < UINT64_MAX_plus_1 ->
  Draw a = Done a' ->
  scene_inv a' /\ fence_inv a'
  /\ mCurrentFence a' = mCurrentFence a + 1
  /\ mCurrFrameResourceIndex a' = mCurrFrameResourceIndex a
  /\ mAllRitems a' = mAllRitems a
  /\ pending (gpu a') = pending (gpu a) ++ [mCurrentFence a + 1]
  /\ completed (gpu a') = completed (gpu a).
Proof.
  intros (H1 & H2 & H3 & H4 & H5 & H6 & H7) (F1 & F2 & F3 & F4)
         (fr & Hv & Hp & Hret) Hwrap E.
  apply Draw_inv in E as (p & fr0 & cmds & Hp0 & Hv0 & ->).
  rewrite Hp in Hp0. inversion Hp0; subst p. clear Hp0.
  rewrite Hv in Hv0. inversion Hv0; subst fr0. clear Hv0.
  pose proof Hv as Hv'. apply vec_at_Some in Hv' as [Hge Hlk].
  assert (Hin : In fr (mFrameResources a)) by (apply In_lookup; eauto).
  assert (Hlt : (Z.to_nat (mCurrFrameResourceIndex a)
                 < length (mFrameResources a))%nat)
    by (eapply lookup_lt_Some; eassumption).
  destruct (chain_bounds _ _ _ F2) as [Hcm Hpend].
  rewrite to_UINT64_small by (unfold UINT64_MAX_plus_1 in Hwrap; lia).
  split; [|split].
  - unfold scene_inv.
    cbn [mFrameResources mCurrFrameResourceIndex mCurrFrameResource mAllRitems].
    rewrite length_insert.
    repeat (split; [assumption|]).
    split. { intros p Hp'. inversion Hp'. reflexivity. }
    repeat (split; [assumption|]).
    intros fr1 Hfr1. apply In_insert in Hfr1 as [-> | Hfr1].
    + simpl. apply H7. exact Hin.
    + apply H7. exact Hfr1.
  - unfold fence_inv.
    cbn [gpu mFrameResources mCurrentFence Signal completed pending].
    split; [assumption|]. split.
    { eapply chain_snoc; [exact F2 | lia]. }
    split.
    + intros v Hv0. apply in_app_or in Hv0 as [Hv0 | [<- | []]].
      * destruct (F3 v Hv0) as (fr0 & Hfr0 & Efr0).
        exists fr0. split; [|exact Efr0].
        eapply In_insert_other; [exact Hlk | exact Hfr0 |].
        intros ->. apply Hpend in Hv0. lia.
      * eexists. split.
        -- apply In_lookup. exists (Z.to_nat (mCurrFrameResourceIndex a)).
           apply list_lookup_insert_eq. exact Hlt.
        -- reflexivity.
    + intros fr1 Hfr1. apply In_insert in Hfr1 as [-> | Hfr1].
      * simpl. lia.
      * apply F4 in Hfr1. lia.
  - cbn. repeat split; reflexivity.
Qed.

Lemma indexed_from_alter (f : RenderItem -> RenderItem) (items : list RenderItem) :
  (forall e, ObjCBIndex (f e) = ObjCBIndex e) ->
  forall (i : Z) (k : nat),
    indexed_from i (alter f k items) = indexed_from i items.
Proof.
  intros Hf. induction items as [|e rest IH]; intros i k; [reflexivity|].
  destruct k as [|k].
  - cbn [alter list_alter indexed_from]. rewrite Hf. reflexivity.
  - change (alter f (S k) (e :: rest)) with (e :: alter f k rest).
    cbn [indexed_from]. rewrite IH. reflexivity.
Qed.

Lemma In_alter {A : Type} (f : A -> A) (l : list A) :
  forall (k : nat) (x : A),
    In x (alter f k l) -> In x l \/ exists y, In y l /\ x = f y.
Proof.
  induction l as [|z l IH]; intros k x H; [destruct H|].
  destruct k as [|k]; simpl in H.
  - destruct H as [<- | H]; [right; exists z; split; [left|]; reflexivity|].
    left. right. exact H.
  - destruct H as [<- | H]; [left; left; reflexivity|].
    apply IH in H as [H | (y & Hy & ->)]; [left; right; exact H|].
    right. exists y. split; [right; exact Hy | reflexivity].
Qed.

Lemma mark_dirty_scene (k : nat) (w : XMFLOAT4X4) (a : ShapesApp) :
  scene_inv a -> scene_inv (mark_dirty k w a).
Proof.
  intros (H1 & H2 & H3 & H4 & H5 & H6 & H7).
  unfold scene_inv, mark_dirty.
  cbn [set_mAllRitems mFrameResources mCurrFrameResourceIndex
       mCurrFrameResource mAllRitems].
  rewrite length_alter, indexed_from_alter by reflexivity.
  repeat (split; [assumption|]).
  split; [|split; assumption].
  intros e He. apply In_alter in He as [He | (y & Hy & ->)].
  - apply H5. exact He.
  - simpl. unfold gNumFrameResources. lia.
Qed.

(** One frame from a well-formed state returns and leaves a well-formed
    state, with the fence counter advanced by one. *)
Lemma frame_invariants (gt : GameTimer) (key1 : bool) (n : nat) (a : ShapesApp) :
  scene_inv a -> fence_inv a ->
  mCurrentFence a + 1 < UINT64_MAX_plus_1 ->
  exists a', frame gt key1 n a = Done a'
             /\ scene_inv a' /\ fence_inv a'
             /\ mCurrentFence a' = mCurrentFence a + 1.
Proof.
  intros Hs Hf Hw. unfold frame.
  destruct (Update_returns gt key1 a Hs Hf) as [a1 E1].
  rewrite E1. cbn [bind].
  pose proof (Update_scene _ _ _ _ Hs E1) as Hs1.
  destruct (Update_fence _ _ _ _ Hs Hf E1) as (Hf1 & Hr1 & Hc1 & _).
  destruct (gpu_run_fence n a1 Hf1) as [Hf2 Hmono].
  set (a2 := set_gpu (gpu_run n (gpu a1)) a1) in *.
  assert (Hs2 : scene_inv a2) by exact Hs1.
  assert (Hr2 : slot_retired a2).
  { destruct Hr1 as (fr & Hv & Hp & Hle). exists fr.
    split; [exact Hv|]. split; [exact Hp|]. cbn. lia. }
  destruct (Draw_returns a2 Hr2) as [a3 E3].
  exists a3. split; [exact E3|].
  destruct (Draw_invariants a2 a3 Hs2 Hf2 Hr2) as (D1 & D2 & D3 & _);
    [cbn; rewrite Hc1; exact Hw | exact E3 |].
  split; [exact D1|]. split; [exact D2|].
  rewrite D3. cbn. rewrite Hc1. reflexivity.
Qed.

Lemma frames_cons (ev : Event) (tr : list Event) :
  frames (ev :: tr) = (if is_frame ev then 1 else 0) + frames tr.
Proof.
  unfold frames. simpl. destruct (is_frame ev); simpl length; lia.
Qed.

Lemma frames_nonneg (tr : list Event) : 0 <= frames tr.
Proof. unfold frames. lia. Qed.

Lemma handle_invariants (ev : Event) (a : ShapesApp) :
  scene_inv a -> fence_inv a ->
  mCurrentFence a + (if is_frame ev then 1 else 0) < UINT64_MAX_plus_1 ->
  exists a', handle ev a = Done a'
             /\ scene_inv a' /\ fence_inv a'
             /\ mCurrentFence a' = mCurrentFence a + (if is_frame ev then 1 else 0).
Proof.
  intros Hs Hf Hw. destruct ev as [gt key1 n | | theta phi radius proj w h | k w];
    cbn [handle is_frame] in *.
  - apply frame_invariants; assumption.
  - eexists. split; [reflexivity|]. split; [exact Hs|].
    split; [|cbn; lia].
    destruct (gpu_run_fence 1 a Hf) as [H _]. exact H.
  - eexists. split; [reflexivity|]. split; [exact Hs|].
    split; [exact Hf | cbn; lia].
  - eexists. split; [reflexivity|]. split; [apply mark_dirty_scene; exact Hs|].
    split; [exact Hf | cbn; lia].
Qed.

(** Every run from a well-formed state returns, as long as the 64-bit
    fence counter does not wrap, and ends in a well-formed state. *)
Lemma run_invariants (tr : list Event) :
  forall a : ShapesApp,
    scene_inv a -> fence_inv a ->
    mCurrentFence a + frames tr < UINT64_MAX_plus_1 ->
    exists a', run tr a = Done a'
               /\ scene_inv a' /\ fence_inv a'
               /\ mCurrentFence a' = mCurrentFence a + frames tr.
Proof.
  induction tr as [|ev tr IH]; intros a Hs Hf Hw.
  - exists a. split; [reflexivity|]. split; [exact Hs|]. split; [exact Hf|].
    unfold frames. simpl. lia.
  - rewrite frames_cons in Hw. pose proof (frames_nonneg tr) as Hnn.
    destruct (handle_invariants ev a Hs Hf) as (a1 & E1 & Hs1 & Hf1 & Hc1); [lia|].
    destruct (IH a1 Hs1 Hf1) as (a' & E & Hs' & Hf' & Hc'); [lia|].
    exists a'. cbn [run]. rewrite E1. cbn [bind].
    split; [exact E|]. split; [exact Hs'|]. split; [exact Hf'|].
    rewrite frames_cons. lia.
Qed.

(** ** What one event does to one object *)

(** Effect of [Update] on the items and on the object tables: the items
    are stepped, the table of the selected frame resource receives the
    dirty items, every other frame resource is left as it was. *)
Lemma Update_objects (gt : GameTimer) (key1 : bool) (a a' : ShapesApp) :
  scene_inv a -> Update gt key1 a = Done a' ->
  mAllRitems a' = map step_item (mAllRitems a)
  /\ mCurrFrameResourceIndex a' = next_index a
  /\ length (mFrameResources a') = length (mFrameResources a)
  /\ (forall (j : nat) (fr : FrameResource),
        mFrameResources a !! j = Some fr ->
        exists fr', mFrameResources a' !! j = Some fr'
          /\ (j <> Z.to_nat (next_index a) -> fr' = fr)
          /\ (forall (k : nat) (e : RenderItem),
                mAllRitems a !! k = Some e ->
                ObjectCB fr' !! k =
                if (0 <? NumFramesDirty e) && (Z.of_nat j =? next_index a)
                then Some (object_constants_of e)
                else ObjectCB fr !! k)).
Proof.
  intros (H1 & H2 & H3 & H4 & H5 & H6 & H7) E.
  apply Update_inv in E as (fr0 & g & r & pcb & Hov & Hv & Hg & Hr & Hp & ->).
  pose proof (UpdateObjectCBs_loop_items _ _ _ Hr) as Hitems.
  apply vec_at_Some in Hv as [Hge Hv].
  assert (Hfr0 : In fr0 (mFrameResources a)) by (apply In_lookup; eauto).
  destruct (H7 fr0 Hfr0) as [Hfo Hfp].
  destruct (UpdateObjectCBs_loop_spec (mAllRitems a) 0 (ObjectCB fr0))
    as (cb' & Hloop & Hcl & _ & Hin); [assumption | lia | lia | |].
  { unfold INT_MAX, gNumFrameResources in H6. lia. }
  rewrite Hr in Hloop. inversion Hloop as [Hr']. clear Hloop.
  cbn [mFrameResources mCurrFrameResourceIndex mAllRitems fst snd].
  split; [reflexivity|]. split; [reflexivity|].
  split; [apply length_insert|].
  intros j fr Hj.
  destruct (Nat.eq_dec j (Z.to_nat (next_index a))) as [-> | Hne].
  - rewrite Hv in Hj. inversion Hj; subst fr0. clear Hj.
    eexists. split.
    { apply list_lookup_insert_eq. eapply lookup_lt_Some. exact Hv. }
    split; [intros Hc; contradiction|].
    intros k e Hk. cbn [ObjectCB].
    specialize (Hin k e Hk). simpl in Hin. rewrite Hin.
    replace (Z.of_nat (Z.to_nat (next_index a)) =? next_index a) with true
      by (symmetry; apply Z.eqb_eq; lia).
    rewrite andb_true_r. reflexivity.
  - exists fr. split.
    { rewrite list_lookup_insert_ne by congruence. exact Hj. }
    split; [reflexivity|].
    intros k e Hk.
    replace (Z.of_nat j =? next_index a) with false
      by (symmetry; apply Z.eqb_neq; lia).
    rewrite andb_false_r. reflexivity.
Qed.

(** [Draw] touches neither the items nor the object tables and pass
    records, and keeps the scene well formed. *)
Lemma Draw_scene (a a' : ShapesApp) :
  scene_inv a -> Draw a = Done a' ->
  scene_inv a'
  /\ mAllRitems a' = mAllRitems a
  /\ mCurrFrameResourceIndex a' = mCurrFrameResourceIndex a
  /\ (forall (j : nat) (fr : FrameResource),
        mFrameResources a !! j = Some fr ->
        exists fr', mFrameResources a' !! j = Some fr'
          /\ ObjectCB fr' = ObjectCB fr /\ PassCB fr' = PassCB fr).
Proof.
  intros (H1 & H2 & H3 & H4 & H5 & H6 & H7) E.
  apply Draw_inv in E as (p & fr0 & cmds & Hp & Hv & ->).
  apply vec_at_Some in Hv as [Hge Hv].
  assert (Hfr0 : In fr0 (mFrameResources a)) by (apply In_lookup; eauto).
  split; [|split; [reflexivity | split; [reflexivity|]]].
  - unfold scene_inv.
    cbn [mFrameResources mCurrFrameResourceIndex mCurrFrameResource mAllRitems].
    rewrite length_insert.
    repeat (split; [assumption|]).
    split. { intros q Hq. inversion Hq; subst q. apply H3. exact Hp. }
    repeat (split; [assumption|]).
    intros fr1 Hfr1. apply In_insert in Hfr1 as [-> | Hfr1].
    + simpl. apply H7. exact Hfr0.
    + apply H7. exact Hfr1.
  - intros j fr Hj. cbn [mFrameResources].
    destruct (Nat.eq_dec j (Z.to_nat p)) as [-> | Hne].
    + rewrite Hv in Hj. inversion Hj; subst fr0.
      eexists. split.
      { apply list_lookup_insert_eq. eapply lookup_lt_Some. exact Hv. }
      split; reflexivity.
    + exists fr. split; [|split; reflexivity].
      rewrite list_lookup_insert_ne by congruence. exact Hj.
Qed.

Lemma handle_object (ev : Event) (a a' : ShapesApp) (k : nat) (e : RenderItem) :
  scene_inv a -> mAllRitems a !! k = Some e -> marks k ev = false ->
  handle ev a = Done a' ->
  scene_inv a'
  /\ mAllRitems a' !! k = Some (if is_frame ev then step_item e else e)
  /\ mCurrFrameResourceIndex a'
     = (if is_frame ev then next_index a else mCurrFrameResourceIndex a)
  /\ length (mFrameResources a') = length (mFrameResources a)
  /\ (forall (j : nat) (fr : FrameResource),
        mFrameResources a !! j = Some fr ->
        exists fr', mFrameResources a' !! j = Some fr'
          /\ ObjectCB fr' !! k =
             if is_frame ev && (0 <? NumFramesDirty e)
                && (Z.of_nat j =? next_index a)
             then Some (object_constants_of e)
             else ObjectCB fr !! k).
Proof.
  intros Hs Hk Hm E.
  destruct ev as [gt key1 n | | theta phi radius proj w h | k' w];
    cbn [handle is_frame andb] in *.
  - unfold frame in E. apply bind_Done in E as (a1 & E1 & E2).
    pose proof (Update_scene _ _ _ _ Hs E1) as Hs1.
    destruct (Update_objects _ _ _ _ Hs E1) as (U1 & U2 & U3 & U4).
    assert (Hs2 : scene_inv (set_gpu (gpu_run n (gpu a1)) a1)) by exact Hs1.
    destruct (Draw_scene _ _ Hs2 E2) as (D1 & D2 & D3 & D4).
    cbn [set_gpu mAllRitems mCurrFrameResourceIndex mFrameResources] in D2, D3, D4.
    split; [exact D1|]. split.
    { rewrite D2, U1, list_lookup_fmap, Hk. reflexivity. }
    split; [congruence|]. split.
    { destruct Hs as (L & _). destruct D1 as (L' & _). congruence. }
    intros j fr Hj. destruct (U4 j fr Hj) as (fr1 & Hj1 & _ & Hcb).
    destruct (D4 j fr1 Hj1) as (fr2 & Hj2 & Ho & _).
    exists fr2. split; [exact Hj2|]. rewrite Ho. apply Hcb. exact Hk.
  - inversion E; subst a'. split; [exact Hs|]. split; [exact Hk|].
    split; [reflexivity|]. split; [reflexivity|]. eauto.
  - inversion E; subst a'. split; [exact Hs|]. split; [exact Hk|].
    split; [reflexivity|]. split; [reflexivity|]. eauto.
  - inversion E; subst a'. split; [apply mark_dirty_scene; exact Hs|].
    cbn [marks] in Hm. apply Nat.eqb_neq in Hm.
    split.
    { unfold mark_dirty. cbn [set_mAllRitems mAllRitems].
      rewrite list_lookup_alter_ne by congruence. exact Hk. }
    split; [reflexivity|]. split; [reflexivity|]. eauto.
Qed.

Lemma handle_scene (ev : Event) (a a' : ShapesApp) :
  scene_inv a -> handle ev a = Done a' ->
  scene_inv a'
  /\ mCurrFrameResourceIndex a'
     = (if is_frame ev then next_index a else mCurrFrameResourceIndex a).
Proof.
  intros Hs E.
  destruct ev as [gt key1 n | | theta phi radius proj w h | k' w];
    cbn [handle is_frame] in *.
  - unfold frame in E. apply bind_Done in E as (a1 & E1 & E2).
    pose proof (Update_scene _ _ _ _ Hs E1) as Hs1.
    destruct (Update_objects _ _ _ _ Hs E1) as (_ & U2 & _).
    assert (Hs2 : scene_inv (set_gpu (gpu_run n (gpu a1)) a1)) by exact Hs1.
    destruct (Draw_scene _ _ Hs2 E2) as (D1 & _ & D3 & _).
    split; [exact D1|]. cbn in D3. congruence.
  - inversion E; subst a'. split; [exact Hs | reflexivity].
  - inversion E; subst a'. split; [exact Hs | reflexivity].
  - inversion E; subst a'. split; [apply mark_dirty_scene; exact Hs | reflexivity].
Qed.

(** The ring index after a run: one step per frame, modulo the depth. *)
Lemma run_index (tr : list Event) :
  forall a a' : ShapesApp,
    scene_inv a -> run tr a = Done a' ->
    scene_inv a'
    /\ mCurrFrameResourceIndex a'
       = (mCurrFrameResourceIndex a + frames tr) mod gNumFrameResources.
Proof.
  induction tr as [|ev tr IH]; intros a a' Hs E; cbn [run] in E.
  - inversion E; subst a'. split; [exact Hs|].
    destruct Hs as (_ & H2 & _). unfold frames. simpl.
    rewrite Z.add_0_r, Z.mod_small; [reflexivity | exact H2].
  - apply bind_Done in E as (a1 & E1 & E).
    destruct (handle_scene _ _ _ Hs E1) as [Hs1 Hi1].
    destruct (IH _ _ Hs1 E) as [Hs' Hi']. split; [exact Hs'|].
    rewrite Hi', Hi1, frames_cons.
    destruct (is_frame ev).
    + destruct Hs as (_ & H2 & _).
      destruct (next_index_range a) as [_ Hn]; [lia|].
      unfold next_index. rewrite Hn.
      rewrite Zplus_mod_idemp_l. f_equal. lia.
    + f_equal.
Qed.

(** Without a new mark, an object keeps its transform, and a table entry
    that holds the object's constants keeps holding them: whatever a frame
    stores for the object is those same constants. *)
Lemma run_holds (tr : list Event) :
  forall (a a' : ShapesApp) (k : nat) (e : RenderItem),
    scene_inv a -> mAllRitems a !! k = Some e -> no_marks k tr = true ->
    run tr a = Done a' ->
    (exists e', mAllRitems a' !! k = Some e' /\ World e' = World e
                /\ NumFramesDirty e' <= NumFramesDirty e)
    /\ (forall (j : nat) (fr : FrameResource),
          mFrameResources a !! j = Some fr ->
          ObjectCB fr !! k = Some (object_constants_of e) ->
          exists fr', mFrameResources a' !! j = Some fr'
                      /\ ObjectCB fr' !! k = Some (object_constants_of e)).
Proof.
  induction tr as [|ev tr IH]; intros a a' k e Hs Hk Hm E; cbn [run] in E.
  - inversion E; subst a'. split; [exists e; repeat split; [exact Hk | lia] | eauto].
  - apply bind_Done in E as (a1 & E1 & E).
    cbn [no_marks forallb] in Hm. apply andb_true_iff in Hm as [Hm0 Hm].
    apply negb_true_iff in Hm0.
    destruct (handle_object _ _ _ _ _ Hs Hk Hm0 E1) as (Hs1 & Hk1 & _ & _ & Hfr1).
    set (e1 := if is_frame ev then step_item e else e) in *.
    assert (He1 : World e1 = World e /\ NumFramesDirty e1 <= NumFramesDirty e).
    { unfold e1, step_item. destruct (is_frame ev); [|split; [reflexivity | lia]].
      destruct (0 <? NumFramesDirty e); simpl; split; try reflexivity; lia. }
    destruct He1 as [Hw1 Hn1].
    assert (Hoc : object_constants_of e1 = object_constants_of e)
      by (unfold object_constants_of; rewrite Hw1; reflexivity).
    destruct (IH _ _ _ _ Hs1 Hk1 Hm E) as ((e' & Hk' & Hw' & Hn') & Hfr').
    split.
    + exists e'. split; [exact Hk'|]. split; [congruence | lia].
    + intros j fr Hj Hcb. destruct (Hfr1 j fr Hj) as (fr1 & Hj1 & Hcb1).
      rewrite Hcb in Hcb1.
      assert (Hcb1' : ObjectCB fr1 !! k = Some (object_constants_of e)).
      { rewrite Hcb1.
        match goal with |- context [if ?c then _ else _] => destruct c end;
          reflexivity. }
      rewrite <- Hoc in Hcb1'. rewrite <- Hoc. eapply Hfr'; eassumption.
Qed.

Lemma ring_slots_S (c : Z) (m : nat) :
  ring_slots c (S m)
  = (c + 1) mod gNumFrameResources
    :: ring_slots ((c + 1) mod gNumFrameResources) m.
Proof.
  unfold ring_slots. cbn [seq map]. f_equal.
  rewrite <- seq_shift, map_map. apply map_ext. intros i.
  rewrite Zplus_mod_idemp_l. f_equal. lia.
Qed.

Lemma set_NumFramesDirty_same (e : RenderItem) (n : Z) :
  NumFramesDirty e = n -> set_NumFramesDirty n e = e.
Proof. intros <-. destruct e. reflexivity. Qed.

(** Propagation: an object whose counter is [m] is stored by each of the
    next [m] frames, each time into the frame resource that frame selects,
    and the counter is 0 afterwards. *)
Lemma propagation (tr : list Event) :
  forall (a a' : ShapesApp) (k : nat) (e : RenderItem) (m : nat),
    scene_inv a -> mAllRitems a !! k = Some e ->
    NumFramesDirty e = Z.of_nat m -> frames tr = Z.of_nat m ->
    no_marks k tr = true -> run tr a = Done a' ->
    mAllRitems a' !! k = Some (set_NumFramesDirty 0 e)
    /\ commits k tr a = ring_slots (mCurrFrameResourceIndex a) m
    /\ (forall i : nat, (1 <= i <= m)%nat ->
          exists fr',
            mFrameResources a'
              !! Z.to_nat ((mCurrFrameResourceIndex a + Z.of_nat i)
                           mod gNumFrameResources) = Some fr'
            /\ ObjectCB fr' !! k = Some (object_constants_of e)).
Proof.
  induction tr as [|ev tr IH]; intros a a' k e m Hs Hk Hn Hf Hm E; cbn [run] in E.
  - inversion E; subst a'. unfold frames in Hf. simpl in Hf.
    assert (m = 0%nat) by lia. subst m.
    rewrite set_NumFramesDirty_same by exact Hn.
    split; [exact Hk|]. split; [reflexivity|]. intros i Hi. lia.
  - apply bind_Done in E as (a1 & E1 & E).
    cbn [no_marks forallb] in Hm. apply andb_true_iff in Hm as [Hm0 Hm].
    apply negb_true_iff in Hm0.
    destruct (handle_object _ _ _ _ _ Hs Hk Hm0 E1) as (Hs1 & Hk1 & Hi1 & Hl1 & Hfr1).
    rewrite frames_cons in Hf. pose proof (frames_nonneg tr) as Hnn.
    cbn [commits]. rewrite E1.
    destruct (is_frame ev) eqn:Hfe; cbn [andb] in *.
    + destruct m as [|m]; [lia|].
      assert (Hd : (0 <? NumFramesDirty e) = true) by (apply Z.ltb_lt; lia).
      rewrite Hd in Hfr1. cbn [andb] in Hfr1.
      assert (He1 : step_item e = set_NumFramesDirty (Z.of_nat m) e).
      { unfold step_item. rewrite Hd. f_equal. lia. }
      rewrite He1 in Hk1.
      destruct Hs as (L & H2 & Hs).
      destruct (next_index_range a) as [[Hr0 Hr1] Hr2]; [lia|].
      fold (next_index a) in Hr0, Hr1, Hr2.
      destruct (IH a1 a' k _ m Hs1 Hk1) as (I1 & I2 & I3);
        [reflexivity | lia | exact Hm | exact E |].
      split; [exact I1|]. split.
      * unfold item_dirty. rewrite Hk, Hd. cbn [app].
        rewrite ring_slots_S, I2, Hi1, Hr2. reflexivity.
      * intros i Hi. destruct i as [|[|i]]; [lia | |].
        -- replace (mCurrFrameResourceIndex a + Z.of_nat 1)
             with (mCurrFrameResourceIndex a + 1) by lia.
           rewrite <- Hr2.
           assert (Hlt : (Z.to_nat (next_index a)
                          < length (mFrameResources a))%nat)
             by (unfold gNumFrameResources in Hr1; lia).
           destruct (lookup_lt_is_Some_2 _ _ Hlt) as [fr Hfr].
           destruct (Hfr1 _ _ Hfr) as (fr1 & Hj1 & Hcb1).
           replace (Z.of_nat (Z.to_nat (next_index a)) =? next_index a)
             with true in Hcb1 by (symmetry; apply Z.eqb_eq; lia).
           destruct (run_holds tr a1 a' k _ Hs1 Hk1 Hm E) as [_ Hh].
           apply (Hh _ _ Hj1). exact Hcb1.
        -- destruct (I3 (S i)) as (fr' & Hj' & Hcb'); [lia|].
           exists fr'. split; [|exact Hcb'].
           rewrite <- Hj'. f_equal. f_equal.
           rewrite Hi1, Hr2, Zplus_mod_idemp_l. f_equal. lia.
    + destruct (IH a1 a' k e m Hs1 Hk1) as (I1 & I2 & I3);
        [exact Hn | lia | exact Hm | exact E |].
      split; [exact I1|]. split.
      * cbn [app]. rewrite I2, Hi1. reflexivity.
      * intros i Hi. rewrite <- Hi1. apply I3. exact Hi.
Qed.

Lemma mod3_unique (z q r : Z) :
  z = gNumFrameResources * q + r -> 0 <= r < gNumFrameResources ->
  z mod gNumFrameResources = r.
Proof.
  intros Hz Hr. symmetry. eapply Z.mod_unique_pos; eassumption.
Qed.

(** Three consecutive steps of the ring visit every frame resource. *)
Lemma ring_covers (c j : Z) :
  0 <= j < gNumFrameResources ->
  exists i : nat, (1 <= i <= 3)%nat
                  /\ (c + Z.of_nat i) mod gNumFrameResources = j.
Proof.
  intros Hj. unfold gNumFrameResources in *.
  pose proof (Z.div_mod c 3 ltac:(lia)) as Hc.
  pose proof (Z.mod_pos_bound c 3 ltac:(lia)) as Hb.
  set (q := c / 3) in *. set (r := c mod 3) in *.
  assert (Hcases : (r = 0 \/ r = 1 \/ r = 2) /\ (j = 0 \/ j = 1 \/ j = 2)) by lia.
  destruct Hcases as [[Hr | [Hr | Hr]] [Hj' | [Hj' | Hj']]];
    [ exists 3%nat | exists 1%nat | exists 2%nat
    | exists 2%nat | exists 3%nat | exists 1%nat
    | exists 1%nat | exists 2%nat | exists 3%nat ];
    (split; [lia|]);
    first [ apply (mod3_unique _ q); unfold gNumFrameResources; lia
          | apply (mod3_unique _ (q + 1)); unfold gNumFrameResources; lia ].
Qed.

Lemma ring_slots_full (c : Z) :
  0 <= c < gNumFrameResources -> Permutation (ring_slots c 3) [0; 1; 2].
Proof.
  unfold gNumFrameResources. intros Hc.
  assert (Hcases : c = 0 \/ c = 1 \/ c = 2) by lia.
  destruct Hcases as [-> | [-> | ->]]; vm_compute.
  - apply (Permutation_cons_app [0] [2] 1).
    apply (Permutation_cons_app [0] [] 2). apply Permutation_refl.
  - apply (Permutation_cons_app [0; 1] [] 2). apply Permutation_refl.
  - apply Permutation_refl.
Qed.

(** ** The state after start-up *)

Lemma BuildRenderItems_from_spec (shapes : list Shape) :
  forall i : Z,
    0 <= i -> i + Z.of_nat (length shapes) < UINT_MAX_plus_1 ->
    indexed_from i (BuildRenderItems_from i shapes) = true
    /\ length (BuildRenderItems_from i shapes) = length shapes
    /\ (forall e, In e (BuildRenderItems_from i shapes) ->
          NumFramesDirty e = gNumFrameResources).
Proof.
  induction shapes as [|s rest IH]; intros i Hi Hlen; simpl in *.
  - repeat split. intros e [].
  - rewrite to_UINT_small by (unfold UINT_MAX_plus_1 in Hlen; lia).
    destruct (IH (i + 1)) as (I1 & I2 & I3); [lia | lia |].
    rewrite Z.eqb_refl, I1, I2. repeat split.
    intros e [<- | He]; [reflexivity | apply I3; exact He].
Qed.

Lemma In_replicate {A : Type} (n : nat) (x y : A) :
  In y (replicate n x) -> y = x.
Proof.
  induction n as [|n IH]; simpl; [intros [] | intros [<- | H]; auto].
Qed.

(** After [Initialize] the scene and the fence bookkeeping are well
    formed, and every frame resource has the completion target 0. *)
Lemma Initialize_ok (shapes : list Shape) (fence0 : Z)
    (pass0 : PassConstants) (obj0 : ObjectConstants)
    (theta phi radius : float) (proj : XMFLOAT4X4) (w h : Z) :
  (Z.of_nat (length shapes) + 1) * gNumFrameResources <= INT_MAX ->
  0 <= fence0 ->
  let a := Initialize shapes fence0 pass0 obj0 theta phi radius proj w h in
  scene_inv a /\ fence_inv a
  /\ (forall fr, In fr (mFrameResources a) -> Fence fr = 0).
Proof.
  intros Hlen Hf a.
  assert (Hsmall : Z.of_nat (length shapes) < 2 ^ 31)
    by (unfold INT_MAX, gNumFrameResources in Hlen; lia).
  destruct (BuildRenderItems_from_spec shapes 0) as (B1 & B2 & B3);
    [lia | unfold UINT_MAX_plus_1; lia |].
  fold (BuildRenderItems shapes) in B1, B2, B3.
  assert (Hfrs : forall fr, In fr (mFrameResources a) ->
            fr = newFrameResource (replicate 1%nat pass0)
                   (replicate (length shapes) obj0)).
  { intros fr Hfr. unfold a, Initialize, BuildFrameResources in Hfr.
    cbn [mFrameResources] in Hfr. apply In_replicate in Hfr.
    rewrite B2, to_UINT_small, Nat2Z.id in Hfr by lia. exact Hfr. }
  split; [|split].
  - unfold scene_inv, a, Initialize.
    cbn [mFrameResources mCurrFrameResourceIndex mCurrFrameResource mAllRitems].
    split. { unfold BuildFrameResources. rewrite length_replicate. reflexivity. }
    split. { unfold gNumFrameResources. lia. }
    split. { intros p Hp. discriminate. }
    split; [exact B1|]. split.
    { intros e He. rewrite (B3 e He). unfold gNumFrameResources. lia. }
    split. { rewrite B2. exact Hlen. }
    intros fr Hfr. rewrite (Hfrs fr Hfr). cbn [newFrameResource ObjectCB PassCB].
    rewrite !length_replicate, B2. split; [reflexivity | lia].
  - unfold fence_inv, a, Initialize.
    cbn [gpu completed pending mCurrentFence mFrameResources chain].
    split; [exact Hf|]. split; [apply Z.eqb_refl|]. split; [intros v []|].
    intros fr Hfr. rewrite (Hfrs fr Hfr). cbn. lia.
  - intros fr Hfr. rewrite (Hfrs fr Hfr). reflexivity.
Qed.

(** ** Objects that are clean stay untouched *)

Lemma run_clean (tr : list Event) :
  forall (a a' : ShapesApp) (k : nat) (e : RenderItem),
    scene_inv a -> mAllRitems a !! k = Some e -> NumFramesDirty e = 0 ->
    no_marks k tr = true -> run tr a = Done a' ->
    mAllRitems a' !! k = Some e
    /\ commits k tr a = []
    /\ (forall (j : nat) (fr : FrameResource),
          mFrameResources a !! j = Some fr ->
          exists fr', mFrameResources a' !! j = Some fr'
                      /\ ObjectCB fr' !! k = ObjectCB fr !! k).
Proof.
  induction tr as [|ev tr IH]; intros a a' k e Hs Hk Hn Hm E; cbn [run] in E.
  - inversion E; subst a'. split; [exact Hk | split; [reflexivity | eauto]].
  - apply bind_Done in E as (a1 & E1 & E).
    cbn [no_marks forallb] in Hm. apply andb_true_iff in Hm as [Hm0 Hm].
    apply negb_true_iff in Hm0.
    destruct (handle_object _ _ _ _ _ Hs Hk Hm0 E1) as (Hs1 & Hk1 & _ & _ & Hfr1).
    assert (Hstep : (if is_frame ev then step_item e else e) = e).
    { unfold step_item. rewrite Hn. destruct (is_frame ev); reflexivity. }
    rewrite Hstep in Hk1.
    destruct (IH _ _ _ _ Hs1 Hk1 Hn Hm E) as (I1 & I3 & I2).
    split; [exact I1|]. split.
    { cbn [commits]. rewrite E1, I3. unfold item_dirty. rewrite Hk, Hn.
      rewrite andb_false_r. reflexivity. }
    intros j fr Hj. destruct (Hfr1 j fr Hj) as (fr1 & Hj1 & Hcb1).
    destruct (I2 j fr1 Hj1) as (fr' & Hj' & Hcb').
    exists fr'. split; [exact Hj'|]. rewrite Hcb', Hcb1, Hn.
    rewrite andb_false_r. reflexivity.
Qed.

(** ** Frames in flight *)

Lemma wait_queue_keeps_chain (target : Z) (q : list Z) :
  forall lo hi g,
    chain lo q hi = true -> wait_queue target lo q = Done g ->
    chain (completed g) (pending g) hi = true.
Proof.
  induction q as [|v q IH]; intros lo hi g Hc E; simpl in E.
  - destruct (target <=? lo); [|discriminate]. inversion E; subst g. exact Hc.
  - destruct (target <=? lo).
    + inversion E; subst g. exact Hc.
    + simpl in Hc. apply andb_true_iff in Hc as [_ Hc]. eapply IH; eassumption.
Qed.

Lemma wait_for_frame_resource_keeps_chain (fr : FrameResource) (g0 g : Gpu) (hi : Z) :
  chain (completed g0) (pending g0) hi = true ->
  wait_for_frame_resource fr g0 = Done g ->
  chain (completed g) (pending g) hi = true.
Proof.
  unfold wait_for_frame_resource, WaitForSingleObject. intros Hc E.
  destruct (negb (Fence fr =? 0) && (GetCompletedValue g0 <? Fence fr)).
  - eapply wait_queue_keeps_chain; eassumption.
  - inversion E; subst g. exact Hc.
Qed.

Lemma frames_in_flight_le_pending (g : Gpu) :
  frames_in_flight g <= Z.of_nat (length (pending g)).
Proof.
  unfold frames_in_flight. apply inj_le. apply filter_length_le.
Qed.

(** Every frame in flight occupies a frame resource of its own. *)
Lemma in_flight_bound (a : ShapesApp) :
  scene_inv a -> fence_inv a ->
  frames_in_flight (gpu a) <= gNumFrameResources.
Proof.
  intros (L & _) (F1 & F2 & F3 & F4).
  pose proof (frames_in_flight_le_pending (gpu a)) as Hle.
  assert (Hlen : (length (pending (gpu a))
                  <= length (map Fence (mFrameResources a)))%nat).
  { apply NoDup_incl_length; [eapply chain_NoDup; exact F2|].
    intros v Hv. destruct (F3 v Hv) as (fr & Hfr & <-).
    apply in_map. exact Hfr. }
  rewrite length_map, L in Hlen. unfold gNumFrameResources. lia.
Qed.

(** Once the GPU has reached the target of the current frame resource,
    that frame resource carries no frame in flight. *)
Lemma in_flight_bound_retired (a : ShapesApp) :
  scene_inv a -> fence_inv a -> slot_retired a ->
  frames_in_flight (gpu a) <= gNumFrameResources - 1.
Proof.
  intros (L & _) (F1 & F2 & F3 & F4) (fr & Hv & _ & Hret).
  pose proof (frames_in_flight_le_pending (gpu a)) as Hle.
  apply vec_at_Some in Hv as [_ Hv].
  assert (Hfr : In fr (mFrameResources a)) by (apply In_lookup; eauto).
  destruct (chain_bounds _ _ _ F2) as [_ Hb].
  assert (Hlen : (length (Fence fr :: pending (gpu a))
                  <= length (map Fence (mFrameResources a)))%nat).
  { apply NoDup_incl_length.
    - constructor; [|eapply chain_NoDup; exact F2].
      intros Hin. apply Hb in Hin. lia.
    - intros v [<- | Hv0]; [apply in_map; exact Hfr|].
      destruct (F3 v Hv0) as (fr0 & Hfr0 & <-). apply in_map. exact Hfr0. }
  rewrite length_map, L in Hlen. simpl in Hlen.
  unfold gNumFrameResources. lia.
Qed.

Lemma XMMatrixTranspose_involutive (m : XMFLOAT4X4) :
  XMMatrixTranspose (XMMatrixTranspose m) = m.
Proof. destruct m. reflexivity. Qed.

(** Full propagation: an object whose counter equals the ring depth is,
    over the next three frames, stored once into each of the three frame
    resources, after which every table holds its constants and the counter
    is 0. *)
Lemma propagation_full (tr : list Event) (a : ShapesApp) (k : nat)
    (e : RenderItem) :
  scene_inv a -> fence_inv a ->
  mCurrentFence a + frames tr < UINT64_MAX_plus_1 ->
  mAllRitems a !! k = Some e ->
  NumFramesDirty e = gNumFrameResources ->
  frames tr = gNumFrameResources ->
  no_marks k tr = true ->
  exists a',
    run tr a = Done a'
    /\ mAllRitems a' !! k = Some (set_NumFramesDirty 0 e)
    /\ Permutation (commits k tr a) [0; 1; 2]
    /\ (forall (j : nat) (fr' : FrameResource),
          mFrameResources a' !! j = Some fr' ->
          ObjectCB fr' !! k = Some (object_constants_of e)).
Proof.
  intros Hs Hf Hw Hk Hn Hfr Hm.
  destruct (run_invariants tr a Hs Hf Hw) as (a' & E & Hs' & _).
  exists a'. split; [exact E|].
  destruct (propagation tr a a' k e 3 Hs Hk) as (P1 & P2 & P3);
    [exact Hn | exact Hfr | exact Hm | exact E |].
  split; [exact P1|]. split.
  { rewrite P2. apply ring_slots_full. destruct Hs as (_ & H2 & _). exact H2. }
  intros j fr' Hj.
  destruct Hs' as (L' & _).
  assert (Hj3 : (j < 3)%nat) by (rewrite <- L'; eapply lookup_lt_Some; exact Hj).
  destruct (ring_covers (mCurrFrameResourceIndex a) (Z.of_nat j)) as (i & Hi & Hij);
    [unfold gNumFrameResources; lia|].
  destruct (P3 i Hi) as (fr2 & Hj2 & Hcb2).
  rewrite Hij, Nat2Z.id, Hj in Hj2. inversion Hj2; subst fr2. exact Hcb2.
Qed.

End Frame.

(** ** The descriptor heap *)

Lemma CreateConstantBufferView_in_range (d : Descriptor) (i : Z)
    (heap : DescriptorHeap) :
  0 <= i < Z.of_nat (length heap) ->
  CreateConstantBufferView d i heap = Done (<[Z.to_nat i := Some d]> heap).
Proof.
  intros [H0 H1]. unfold CreateConstantBufferView.
  apply Z.leb_le in H0. apply Z.ltb_lt in H1. rewrite H0, H1. reflexivity.
Qed.

Lemma objHeapIndex_eq (n f j : Z) :
  (n + 1) * gNumFrameResources <= INT_MAX ->
  0 <= f < gNumFrameResources -> 0 <= j < n ->
  objHeapIndex n f j = f * n + j /\ 0 <= f * n + j < n * gNumFrameResources.
Proof.
  unfold INT_MAX. intros Hfit Hf Hj.
  assert (Hb : 0 <= f * n + j < n * gNumFrameResources)
    by (split_slot f; unfold gNumFrameResources in *; lia).
  unfold objHeapIndex. unfold gNumFrameResources in *.
  rewrite to_UINT_small, int_of_UINT_small by lia. split; [reflexivity | exact Hb].
Qed.

Lemma passHeapIndex_eq (n f : Z) :
  0 <= n -> (n + 1) * gNumFrameResources <= INT_MAX ->
  0 <= f < gNumFrameResources ->
  passHeapIndex (passCbvOffset n) f = n * gNumFrameResources + f.
Proof.
  unfold INT_MAX, gNumFrameResources. intros Hn Hfit Hf.
  unfold passHeapIndex, passCbvOffset, gNumFrameResources.
  rewrite (to_UINT_small (n * 3)) by lia.
  rewrite to_UINT_small, int_of_UINT_small by lia. reflexivity.
Qed.

Lemma object_views_loop_spec (n f : Z) :
  (n + 1) * gNumFrameResources <= INT_MAX ->
  0 <= f < gNumFrameResources ->
  forall (remaining : nat) (i : Z) (heap : DescriptorHeap),
    0 <= i -> i + Z.of_nat remaining = n ->
    Z.of_nat (length heap) = (n + 1) * gNumFrameResources ->
    exists heap',
      object_views_loop n f i remaining heap = Done heap'
      /\ length heap' = length heap
      /\ (forall j, i <= j < n ->
            heap' !! Z.to_nat (f * n + j) = Some (Some (ObjectCBV f j)))
      /\ (forall p : nat,
            ~ (f * n + i <= Z.of_nat p < f * n + n) -> heap' !! p = heap !! p).
Proof.
  intros Hfit Hf. induction remaining as [|rest IH]; intros i heap Hi Hn Hlen.
  - exists heap. split; [reflexivity|]. split; [reflexivity|].
    split; [intros j Hj; lia | reflexivity].
  - destruct (objHeapIndex_eq n f i Hfit Hf) as [Hidx Hb]; [lia|].
    cbn [object_views_loop]. rewrite Hidx.
    rewrite CreateConstantBufferView_in_range
      by (unfold gNumFrameResources in *; lia).
    cbn [bind].
    rewrite to_UINT_small by (unfold INT_MAX, gNumFrameResources in *; lia).
    destruct (IH (i + 1) (<[Z.to_nat (f * n + i) := Some (ObjectCBV f i)]> heap))
      as (heap' & E & L & Hin & Hout); [lia | lia | rewrite length_insert; exact Hlen |].
    exists heap'. split; [exact E|]. rewrite length_insert in L.
    split; [exact L|]. split.
    + intros j Hj. destruct (Z.eq_dec j i) as [-> | Hne].
      * rewrite Hout by lia. apply list_lookup_insert_eq.
        unfold gNumFrameResources in *. lia.
      * apply Hin. lia.
    + intros p Hp. rewrite Hout by lia.
      apply list_lookup_insert_ne. lia.
Qed.

Lemma all_object_views_spec (n : Z) :
  0 <= n -> (n + 1) * gNumFrameResources <= INT_MAX ->
  forall (remaining : nat) (f : Z) (heap : DescriptorHeap),
    0 <= f -> f + Z.of_nat remaining = gNumFrameResources ->
    Z.of_nat (length heap) = (n + 1) * gNumFrameResources ->
    exists heap',
      frame_resources_loop
        (fun frameIndex h => object_views_loop n frameIndex 0 (Z.to_nat n) h)
        f remaining heap = Done heap'
      /\ length heap' = length heap
      /\ (forall s o, f <= s < gNumFrameResources -> 0 <= o < n ->
            heap' !! Z.to_nat (s * n + o) = Some (Some (ObjectCBV s o)))
      /\ (forall p : nat,
            ~ (f * n <= Z.of_nat p < gNumFrameResources * n) ->
            heap' !! p = heap !! p).
Proof.
  intros Hn Hfit. induction remaining as [|rest IH]; intros f heap Hf Hsum Hlen.
  - exists heap. split; [reflexivity|]. split; [reflexivity|].
    split; [intros s o Hs; lia | reflexivity].
  - cbn [frame_resources_loop].
    destruct (object_views_loop_spec n f Hfit ltac:(lia) (Z.to_nat n) 0 heap)
      as (h1 & E1 & L1 & In1 & Out1); [lia | lia | exact Hlen |].
    rewrite E1. cbn [bind].
    destruct (IH (f + 1) h1) as (heap' & E & L & Hin & Hout);
      [lia | lia | rewrite L1; exact Hlen |].
    exists heap'. split; [exact E|]. split; [congruence|]. split.
    + intros s o Hs Ho. destruct (Z.eq_dec s f) as [-> | Hne].
      * rewrite Hout; [apply In1; lia|].
        destruct (objHeapIndex_eq n f o Hfit ltac:(lia) Ho) as [_ Hb].
        replace ((f + 1) * n) with (f * n + n) by lia. lia.
      * apply Hin; lia.
    + intros p Hp.
      assert (Hfn : (f + 1) * n = f * n + n) by lia.
      assert (Hf3 : f * n + n <= gNumFrameResources * n)
        by (split_slot f; unfold gNumFrameResources; lia).
      rewrite Hout by lia. apply Out1. lia.
Qed.

Lemma all_pass_views_spec (n : Z) :
  0 <= n -> (n + 1) * gNumFrameResources <= INT_MAX ->
  forall (remaining : nat) (f : Z) (heap : DescriptorHeap),
    0 <= f -> f + Z.of_nat remaining = gNumFrameResources ->
    Z.of_nat (length heap) = (n + 1) * gNumFrameResources ->
    exists heap',
      frame_resources_loop
        (fun frameIndex h =>
           CreateConstantBufferView (PassCBV frameIndex)
             (passHeapIndex (passCbvOffset n) frameIndex) h)
        f remaining heap = Done heap'
      /\ length heap' = length heap
      /\ (forall s, f <= s < gNumFrameResources ->
            heap' !! Z.to_nat (n * gNumFrameResources + s)
            = Some (Some (PassCBV s)))
      /\ (forall p : nat,
            Z.of_nat p < n * gNumFrameResources + f -> heap' !! p = heap !! p).
Proof.
  intros Hn Hfit. induction remaining as [|rest IH]; intros f heap Hf Hsum Hlen.
  - exists heap. split; [reflexivity|]. split; [reflexivity|].
    split; [intros s Hs; lia | reflexivity].
  - cbn [frame_resources_loop].
    rewrite passHeapIndex_eq by lia.
    rewrite CreateConstantBufferView_in_range
      by (unfold gNumFrameResources in *; lia).
    cbn [bind].
    destruct (IH (f + 1)
                (<[Z.to_nat (n * gNumFrameResources + f) := Some (PassCBV f)]> heap))
      as (heap' & E & L & Hin & Hout);
      [lia | lia | rewrite length_insert; exact Hlen |].
    exists heap'. split; [exact E|]. rewrite length_insert in L.
    split; [exact L|]. split.
    + intros s Hs. destruct (Z.eq_dec s f) as [-> | Hne].
      * rewrite Hout by lia. apply list_lookup_insert_eq.
        unfold gNumFrameResources in *. lia.
      * apply Hin. lia.
    + intros p Hp. rewrite Hout by lia.
      apply list_lookup_insert_ne. unfold gNumFrameResources in *. lia.
Qed.

(** The heap [BuildConstantBufferViews] fills: the descriptor at an object
    index is the view of that object's entry in that frame resource, the
    descriptor at a pass index the view of that frame resource's pass
    record. *)
Lemma BuildConstantBufferViews_spec (n : Z) :
  0 <= n -> (n + 1) * gNumFrameResources <= INT_MAX ->
  exists heap,
    BuildConstantBufferViews n (passCbvOffset n) (BuildDescriptorHeaps n)
    = Done heap
    /\ Z.of_nat (length heap) = numDescriptors n
    /\ (forall s o, 0 <= s < gNumFrameResources -> 0 <= o < n ->
          heap !! Z.to_nat (s * n + o) = Some (Some (ObjectCBV s o)))
    /\ (forall s, 0 <= s < gNumFrameResources ->
          heap !! Z.to_nat (n * gNumFrameResources + s)
          = Some (Some (PassCBV s))).
Proof.
  intros Hn Hfit.
  assert (Hnum : numDescriptors n = (n + 1) * gNumFrameResources).
  { unfold numDescriptors. apply to_UINT_small.
    unfold INT_MAX, gNumFrameResources in *. lia. }
  assert (Hlen : Z.of_nat (length (BuildDescriptorHeaps n))
                 = (n + 1) * gNumFrameResources).
  { unfold BuildDescriptorHeaps. rewrite length_replicate, Hnum.
    unfold gNumFrameResources. lia. }
  unfold BuildConstantBufferViews.
  destruct (all_object_views_spec n Hn Hfit (Z.to_nat gNumFrameResources) 0
              (BuildDescriptorHeaps n)) as (h1 & E1 & L1 & In1 & _);
    [lia | unfold gNumFrameResources; lia | exact Hlen |].
  rewrite E1. cbn [bind].
  destruct (all_pass_views_spec n Hn Hfit (Z.to_nat gNumFrameResources) 0 h1)
    as (h2 & E2 & L2 & In2 & Out2);
    [lia | unfold gNumFrameResources; lia | rewrite L1; exact Hlen |].
  exists h2. split; [exact E2|]. split; [rewrite L2, L1, Hnum; exact Hlen|].
  split.
  - intros s o Hs Ho. rewrite Out2; [apply In1; [lia | exact Ho]|].
    destruct (objHeapIndex_eq n s o Hfit Hs Ho) as [_ Hb]. lia.
  - intros s Hs. apply In2. lia.
Qed.

(** ** Freshness of the object tables *)

Section Freshness.

Context {math : DirectXMath}.

(** A step of the counter leaves the constants of an item alone. *)
Lemma object_constants_of_step (e : RenderItem) :
  object_constants_of (step_item e) = object_constants_of e.
Proof.
  unfold object_constants_of, step_item.
  destruct (0 <? NumFramesDirty e); reflexivity.
Qed.

(** [Update] stores every dirty item into the frame resource it selects,
    and that is the first of the frame resources an item's counter still
    covers. *)
Lemma Update_stale (gt : GameTimer) (key1 : bool) (a a' : ShapesApp) :
  scene_inv a -> stale_within_counter a -> Update gt key1 a = Done a' ->
  stale_within_counter a'.
Proof.
  intros Hs Hst E.
  destruct (Update_objects _ _ _ _ Hs E) as (U1 & U2 & U3 & U4).
  destruct Hs as (H1 & H2 & H3 & H4 & H5 & H6 & H7).
  destruct (next_index_range a) as [_ Hn]; [lia|].
  intros k e' j fr' Hk' Hj'.
  rewrite U1, list_lookup_fmap in Hk'.
  destruct (mAllRitems a !! k) as [e|] eqn:Hk; [|discriminate].
  simpl in Hk'. inversion Hk'; subst e'. clear Hk'.
  assert (Hjlt : (j < length (mFrameResources a))%nat).
  { rewrite <- U3. eapply lookup_lt_Some. exact Hj'. }
  destruct (lookup_lt_is_Some_2 _ _ Hjlt) as [fr Hj].
  destruct (U4 j fr Hj) as (fr1 & Hj1 & _ & Hcb).
  rewrite Hj' in Hj1. inversion Hj1; subst fr1. clear Hj1.
  specialize (Hcb k e Hk).
  rewrite object_constants_of_step.
  assert (He : 0 <= NumFramesDirty e <= gNumFrameResources).
  { apply H5. apply In_lookup. eauto. }
  rewrite U2. unfold next_index in *. rewrite Hn in *.
  destruct (0 <? NumFramesDirty e) eqn:Hd.
  - apply Z.ltb_lt in Hd.
    destruct (Z.of_nat j =? (mCurrFrameResourceIndex a + 1) mod gNumFrameResources)
      eqn:Hjn.
    + left. rewrite Hcb. reflexivity.
    + simpl in Hcb. apply Z.eqb_neq in Hjn.
      destruct (Hst k e j fr Hk Hj) as [Hok | (i & Hi & Hji)].
      * left. congruence.
      * right. exists (i - 1).
        assert (i <> 1) by (intros ->; contradiction).
        unfold step_item.
        replace (0 <? NumFramesDirty e) with true by (symmetry; apply Z.ltb_lt; lia).
        cbn [set_NumFramesDirty NumFramesDirty].
        split; [lia|].
        rewrite Hji, Zplus_mod_idemp_l. f_equal. lia.
  - simpl in Hcb. apply Z.ltb_ge in Hd.
    destruct (Hst k e j fr Hk Hj) as [Hok | (i & Hi & Hji)].
    + left. congruence.
    + lia.
Qed.

Lemma Draw_stale (a a' : ShapesApp) :
  scene_inv a -> stale_within_counter a -> Draw a = Done a' ->
  stale_within_counter a'.
Proof.
  intros Hs Hst E.
  destruct (Draw_scene _ _ Hs E) as (Hs' & D2 & D3 & D4).
  intros k e j fr' Hk Hj'.
  rewrite D2 in Hk. rewrite D3.
  assert (Hjlt : (j < length (mFrameResources a))%nat).
  { destruct Hs as (L & _). destruct Hs' as (L' & _). rewrite L, <- L'.
    eapply lookup_lt_Some. exact Hj'. }
  destruct (lookup_lt_is_Some_2 _ _ Hjlt) as [fr Hj].
  destruct (D4 j fr Hj) as (fr1 & Hj1 & Ho & _).
  rewrite Hj' in Hj1. inversion Hj1; subst fr1.
  rewrite Ho. eapply Hst; eassumption.
Qed.

(** A mark sets the counter to the depth of the ring, which covers every
    frame resource. *)
Lemma mark_dirty_stale (k : nat) (w : XMFLOAT4X4) (a : ShapesApp) :
  scene_inv a -> stale_within_counter a -> stale_within_counter (mark_dirty k w a).
Proof.
  intros Hs Hst k' e' j fr Hk' Hj.
  unfold mark_dirty in *.
  cbn [set_mAllRitems mAllRitems mFrameResources mCurrFrameResourceIndex] in *.
  destruct (Nat.eq_dec k' k) as [-> | Hne].
  - assert (Hlt : (k < length (mAllRitems a))%nat).
    { apply lookup_lt_Some in Hk'. rewrite length_alter in Hk'. exact Hk'. }
    destruct (lookup_lt_is_Some_2 _ _ Hlt) as [e He].
    rewrite list_lookup_alter_eq, He in Hk'. simpl in Hk'.
    inversion Hk'; subst e'. clear Hk'.
    right. cbn [NumFramesDirty].
    destruct Hs as (L & _).
    assert (Hj3 : 0 <= Z.of_nat j < gNumFrameResources).
    { apply lookup_lt_Some in Hj. unfold gNumFrameResources. lia. }
    destruct (ring_covers (mCurrFrameResourceIndex a) (Z.of_nat j) Hj3)
      as (i & Hi & Hij).
    exists (Z.of_nat i). unfold gNumFrameResources at 1. split; [lia|].
    symmetry. exact Hij.
  - rewrite list_lookup_alter_ne in Hk' by congruence.
    eapply Hst; eassumption.
Qed.

Lemma handle_stale (ev : Event) (a a' : ShapesApp) :
  scene_inv a -> stale_within_counter a -> handle ev a = Done a' ->
  stale_within_counter a'.
Proof.
  intros Hs Hst E.
  destruct ev as [gt key1 n | | theta phi radius proj w h | k' w];
    cbn [handle] in E.
  - unfold frame in E. apply bind_Done in E as (a1 & E1 & E2).
    pose proof (Update_scene _ _ _ _ Hs E1) as Hs1.
    pose proof (Update_stale _ _ _ _ Hs Hst E1) as Hst1.
    eapply Draw_stale; [| |exact E2]; assumption.
  - inversion E; subst a'. exact Hst.
  - inversion E; subst a'. exact Hst.
  - inversion E; subst a'. apply mark_dirty_stale; assumption.
Qed.

Lemma run_stale (tr : list Event) :
  forall a a' : ShapesApp,
    scene_inv a -> stale_within_counter a -> run tr a = Done a' ->
    scene_inv a' /\ stale_within_counter a'.
Proof.
  induction tr as [|ev tr IH]; intros a a' Hs Hst E; cbn [run] in E.
  - inversion E; subst a'. split; assumption.
  - apply bind_Done in E as (a1 & E1 & E).
    destruct (handle_scene _ _ _ Hs E1) as [Hs1 _].
    eapply IH; [exact Hs1 | | exact E].
    eapply handle_stale; [exact Hs | exact Hst | exact E1].
Qed.

(** At start-up every counter is the depth of the ring. *)
Lemma Initialize_stale (shapes : list Shape) (fence0 : Z)
    (pass0 : PassConstants) (obj0 : ObjectConstants)
    (theta phi radius : float) (proj : XMFLOAT4X4) (w h : Z) :
  (Z.of_nat (length shapes) + 1) * gNumFrameResources <= INT_MAX ->
  stale_within_counter
    (Initialize shapes fence0 pass0 obj0 theta phi radius proj w h).
Proof.
  intros Hn k e j fr Hk Hj. right.
  cbn [Initialize mAllRitems mFrameResources mCurrFrameResourceIndex] in *.
  destruct (BuildRenderItems_from_spec shapes 0) as (_ & _ & Hc).
  { lia. }
  { unfold INT_MAX, gNumFrameResources, UINT_MAX_plus_1 in *. lia. }
  assert (He : NumFramesDirty e = gNumFrameResources).
  { apply Hc. apply In_lookup. eauto. }
  assert (Hj3 : 0 <= Z.of_nat j < gNumFrameResources).
  { apply lookup_lt_Some in Hj. unfold BuildFrameResources in Hj.
    rewrite length_replicate in Hj. unfold gNumFrameResources in *. lia. }
  destruct (ring_covers 0 (Z.of_nat j) Hj3) as (i & Hi & Hij).
  exists (Z.of_nat i). rewrite He. unfold gNumFrameResources at 1.
  split; [lia | symmetry; exact Hij].
Qed.

(** After an [Update] the table of the frame resource it selected is up
    to date for every item. *)
Lemma Update_current_table (gt : GameTimer) (key1 : bool) (a a' : ShapesApp) :
  scene_inv a -> stale_within_counter a -> Update gt key1 a = Done a' ->
  forall (k : nat) (e : RenderItem) (fr : FrameResource),
    mAllRitems a' !! k = Some e ->
    mFrameResources a' !! Z.to_nat (mCurrFrameResourceIndex a') = Some fr ->
    ObjectCB fr !! k = Some (object_constants_of e).
Proof.
  intros Hs Hst E k e fr Hk Hj.
  pose proof (Update_scene _ _ _ _ Hs E) as Hs'.
  pose proof (Update_stale _ _ _ _ Hs Hst E) as Hst'.
  destruct (Update_objects _ _ _ _ Hs E) as (U1 & _).
  destruct (Hst' k e _ fr Hk Hj) as [Hok | (i & Hi & Hji)]; [exact Hok|].
  exfalso.
  destruct Hs' as (_ & H2 & _).
  rewrite U1, list_lookup_fmap in Hk.
  destruct (mAllRitems a !! k) as [e0|] eqn:Hk0; [|discriminate].
  simpl in Hk. inversion Hk; subst e. clear Hk.
  destruct Hs as (_ & _ & _ & _ & H5 & _).
  assert (He : 0 <= NumFramesDirty e0 <= gNumFrameResources).
  { apply H5. apply In_lookup. eauto. }
  unfold step_item in Hi.
  rewrite Z2Nat.id in Hji by lia.
  unfold gNumFrameResources in *.
  destruct (0 <? NumFramesDirty e0) eqn:Hd;
    cbn [set_NumFramesDirty NumFramesDirty] in Hi.
  - assert (Hc : i = 1 \/ i = 2) by lia.
    destruct Hc as [-> | ->].
    + rewrite <- (Z.mod_small (mCurrFrameResourceIndex a') 3) in Hji at 1 by lia.
      apply (f_equal (fun z => z)) in Hji.
      pose proof (Z.mod_pos_bound (mCurrFrameResourceIndex a' + 1) 3).
      assert (Hx : mCurrFrameResourceIndex a' = 0 \/ mCurrFrameResourceIndex a' = 1
                   \/ mCurrFrameResourceIndex a' = 2) by lia.
      destruct Hx as [Hx | [Hx | Hx]]; rewrite Hx in Hji; vm_compute in Hji;
        discriminate.
    + assert (Hx : mCurrFrameResourceIndex a' = 0 \/ mCurrFrameResourceIndex a' = 1
                   \/ mCurrFrameResourceIndex a' = 2) by lia.
      destruct Hx as [Hx | [Hx | Hx]]; rewrite Hx in Hji; vm_compute in Hji;
        discriminate.
  - lia.
Qed.

End Freshness.

(** ** The commands a frame records *)

Section Commands.

Context {math : DirectXMath}.

(** The fields [Update] sets besides the tables. *)
Lemma Update_flags (gt : GameTimer) (key1 : bool) (a a' : ShapesApp) :
  Update gt key1 a = Done a' ->
  mIsWireframe a' = key1
  /\ mPassCbvOffset a' = mPassCbvOffset a
  /\ mCurrFrameResource a' = Some (next_index a)
  /\ mCurrentFence a' = mCurrentFence a.
Proof.
  intros E.
  apply Update_inv in E as (fr0 & g & r & pcb & _ & _ & _ & _ & _ & ->).
  repeat split; reflexivity.
Qed.

(** [Update] changes no recorded fence value. *)
Lemma Update_fences (gt : GameTimer) (key1 : bool) (a a' : ShapesApp) :
  Update gt key1 a = Done a' ->
  forall (j : nat) (fr : FrameResource),
    mFrameResources a !! j = Some fr ->
    exists fr', mFrameResources a' !! j = Some fr' /\ Fence fr' = Fence fr.
Proof.
  intros E j fr Hj.
  apply Update_inv in E as (fr0 & g & r & pcb & _ & Hv & _ & _ & _ & ->).
  apply vec_at_Some in Hv as [_ Hv].
  cbn [mFrameResources].
  destruct (Nat.eq_dec j (Z.to_nat (next_index a))) as [-> | Hne].
  - rewrite Hv in Hj. inversion Hj; subst fr0.
    eexists. split.
    { apply list_lookup_insert_eq. eapply lookup_lt_Some. exact Hv. }
    reflexivity.
  - exists fr. split; [|reflexivity].
    rewrite list_lookup_insert_ne by congruence. exact Hj.
Qed.

(** [Draw], field by field. *)
Lemma Draw_commands (a a' : ShapesApp) :
  Draw a = Done a' ->
  exists p fr,
    mCurrFrameResource a = Some p
    /\ vec_at (mFrameResources a) p = Some fr
    /\ mFrameResources a'
       = <[Z.to_nat p :=
             mkFrameResource
               ([ SetPipelineState (mIsWireframe a);
                  SetGraphicsRootDescriptorTable 1
                    (passHeapIndex (mPassCbvOffset a) (mCurrFrameResourceIndex a)) ]
                ++ DrawRenderItems a (mAllRitems a))
               (PassCB fr) (ObjectCB fr) (to_UINT64 (mCurrentFence a + 1))]>
           (mFrameResources a)
    /\ mCurrentFence a' = to_UINT64 (mCurrentFence a + 1)
    /\ gpu a' = Signal (to_UINT64 (mCurrentFence a + 1)) (gpu a)
    /\ mAllRitems a' = mAllRitems a
    /\ mCurrFrameResourceIndex a' = mCurrFrameResourceIndex a
    /\ mCurrFrameResource a' = Some p
    /\ mPassCbvOffset a' = mPassCbvOffset a.
Proof.
  unfold Draw, curr_frame_resource, store_curr. intros E.
  destruct (mCurrFrameResource a) as [p|] eqn:Hp; [|discriminate].
  destruct (vec_at (mFrameResources a) p) as [fr|] eqn:Hv; [|discriminate].
  cbn [bind] in E. inversion E. clear E.
  exists p, fr. split; [reflexivity|]. split; [exact Hv|].
  cbn [set_gpu set_mCurrentFence set_mFrameResources mFrameResources
       mCurrentFence gpu mAllRitems mCurrFrameResourceIndex mCurrFrameResource
       mPassCbvOffset].
  repeat split. exact Hp.
Qed.

Lemma flat_map_ext_In {A B : Type} (f g : A -> list B) (l : list A) :
  (forall x, In x l -> f x = g x) -> flat_map f l = flat_map g l.
Proof.
  induction l as [|x l IH]; intros H; simpl; [reflexivity|].
  rewrite (H x) by (left; reflexivity).
  rewrite IH; [reflexivity|]. intros y Hy. apply H. right. exact Hy.
Qed.

(** After a frame, the table of the current frame resource holds the
    constants of every item, and the frame has recorded a binding for
    each. *)
Lemma frame_current_table (gt : GameTimer) (key1 : bool) (n : nat)
    (a a' : ShapesApp) :
  scene_inv a -> stale_within_counter a -> frame gt key1 n a = Done a' ->
  exists fr,
    vec_at (mFrameResources a') (mCurrFrameResourceIndex a') = Some fr
    /\ mCurrFrameResource a' = Some (mCurrFrameResourceIndex a')
    /\ forall (k : nat) (e : RenderItem),
         mAllRitems a' !! k = Some e ->
         ObjCBIndex e = Z.of_nat k
         /\ In (SetGraphicsRootDescriptorTable 0
                  (cbvIndex (objCount a') (mCurrFrameResourceIndex a')
                     (ObjCBIndex e)))
               (CmdListAlloc fr)
         /\ ObjectCB fr !! k = Some (object_constants_of e).
Proof.
  intros Hs Hst E.
  unfold frame in E. apply bind_Done in E as (a1 & E1 & E2).
  pose proof (Update_scene _ _ _ _ Hs E1) as Hs1.
  pose proof (Update_current_table _ _ _ _ Hs Hst E1) as Hcur.
  destruct (Update_flags _ _ _ _ E1) as (_ & _ & F3 & _).
  destruct (Update_objects _ _ _ _ Hs E1) as (_ & U2 & _).
  apply Draw_commands in E2
    as (p & fr & Hp & Hv & Hfrs & _ & _ & Hitems & Hidx & Hp' & _).
  cbn [set_gpu mAllRitems mCurrFrameResourceIndex mFrameResources
       mCurrFrameResource mIsWireframe mPassCbvOffset mCurrentFence]
    in Hp, Hv, Hfrs, Hitems, Hidx.
  rewrite F3 in Hp. inversion Hp; subst p. clear Hp.
  rewrite <- U2 in Hv, Hfrs, Hp'. rewrite <- Hidx in Hv, Hfrs, Hp'.
  eexists. split.
  { rewrite Hfrs. eapply vec_at_insert. exact Hv. }
  split; [exact Hp'|].
  intros k e Hk. rewrite Hitems in Hk.
  destruct Hs1 as (_ & _ & _ & S4 & _).
  assert (Hi : ObjCBIndex e = Z.of_nat k)
    by (rewrite (indexed_from_lookup _ _ _ _ S4 Hk); lia).
  split; [exact Hi|]. split.
  - cbn [CmdListAlloc]. apply in_or_app. right.
    unfold DrawRenderItems. apply in_flat_map. exists e.
    split; [apply In_lookup; eauto|]. left.
    cbn [set_gpu mCurrFrameResourceIndex]. rewrite Hidx.
    f_equal. f_equal. unfold objCount. cbn [set_gpu mAllRitems].
    rewrite Hitems. reflexivity.
  - cbn [ObjectCB]. eapply Hcur; [exact Hk|].
    apply vec_at_Some in Hv as [_ Hv]. rewrite <- Hidx. exact Hv.
Qed.

End Commands.

(** ** The fence values the frame resources record *)

Section Fences.

Context {math : DirectXMath}.

(** [Draw] records the advanced fence value in the current frame
    resource and changes no other. *)
Lemma Draw_fences (a a' : ShapesApp) :
  scene_inv a -> Draw a = Done a' ->
  forall (j : nat) (fr : FrameResource),
    mFrameResources a !! j = Some fr ->
    exists fr', mFrameResources a' !! j = Some fr'
      /\ Fence fr' = if Z.of_nat j =? mCurrFrameResourceIndex a
                     then to_UINT64 (mCurrentFence a + 1) else Fence fr.
Proof.
  intros Hs E j fr Hj.
  destruct Hs as (_ & H2 & H3 & _).
  apply Draw_commands in E as (p & fr0 & Hp & Hv & -> & _).
  rewrite (H3 p Hp) in *.
  apply vec_at_Some in Hv as [_ Hv].
  destruct (Nat.eq_dec j (Z.to_nat (mCurrFrameResourceIndex a))) as [-> | Hne].
  - eexists. split.
    { apply list_lookup_insert_eq. eapply lookup_lt_Some. exact Hv. }
    cbn [Fence].
    replace (Z.of_nat (Z.to_nat (mCurrFrameResourceIndex a))
             =? mCurrFrameResourceIndex a) with true
      by (symmetry; apply Z.eqb_eq; lia).
    reflexivity.
  - exists fr. split.
    { rewrite list_lookup_insert_ne by congruence. exact Hj. }
    replace (Z.of_nat j =? mCurrFrameResourceIndex a) with false
      by (symmetry; apply Z.eqb_neq; lia).
    reflexivity.
Qed.

Lemma frame_fences (gt : GameTimer) (key1 : bool) (n : nat) (a a' : ShapesApp) :
  scene_inv a -> 0 <= mCurrentFence a ->
  mCurrentFence a + 1 < UINT64_MAX_plus_1 ->
  frame gt key1 n a = Done a' ->
  mCurrentFence a' = mCurrentFence a + 1
  /\ forall (j : nat) (fr : FrameResource),
       mFrameResources a !! j = Some fr ->
       exists fr', mFrameResources a' !! j = Some fr'
         /\ Fence fr' = if Z.of_nat j =? next_index a
                        then mCurrentFence a + 1 else Fence fr.
Proof.
  intros Hs H0 Hw E.
  unfold frame in E. apply bind_Done in E as (a1 & E1 & E2).
  pose proof (Update_scene _ _ _ _ Hs E1) as Hs1.
  destruct (Update_flags _ _ _ _ E1) as (_ & _ & _ & F4).
  destruct (Update_objects _ _ _ _ Hs E1) as (_ & U2 & _).
  assert (Hs2 : scene_inv (set_gpu (gpu_run n (gpu a1)) a1)) by exact Hs1.
  pose proof (Draw_fences _ _ Hs2 E2) as HD.
  apply Draw_commands in E2 as (_ & _ & _ & _ & _ & Hcf & _).
  cbn [set_gpu mCurrentFence mFrameResources mCurrFrameResourceIndex] in HD, Hcf.
  rewrite F4, to_UINT64_small in Hcf by (unfold UINT64_MAX_plus_1 in Hw; lia).
  split; [exact Hcf|].
  intros j fr Hj.
  destruct (Update_fences _ _ _ _ E1 j fr Hj) as (fr1 & Hj1 & Hf1).
  destruct (HD j fr1 Hj1) as (fr2 & Hj2 & Hf2).
  exists fr2. split; [exact Hj2|].
  rewrite Hf2, U2, F4, Hf1.
  rewrite to_UINT64_small by (unfold UINT64_MAX_plus_1 in Hw; lia).
  reflexivity.
Qed.

(** One event: a frame advances the ring and the counter by one and
    records the new value in the frame resource it selects. *)
Lemma handle_fences (fence0 n : Z) (ev : Event) (a a' : ShapesApp) :
  scene_inv a -> 0 <= fence0 -> 0 <= n ->
  fence0 + n + (if is_frame ev then 1 else 0) < UINT64_MAX_plus_1 ->
  fences_of_ring fence0 n a -> handle ev a = Done a' ->
  fences_of_ring fence0 (n + (if is_frame ev then 1 else 0)) a'.
Proof.
  intros Hs Hf0 Hn Hw (Hc & Hi & Hfr) E.
  destruct ev as [gt key1 m | | theta phi radius proj w h | k' w];
    cbn [handle is_frame] in *;
    try (inversion E; subst a'; rewrite Z.add_0_r;
         split; [exact Hc|]; split; [exact Hi|]; exact Hfr).
  destruct (frame_fences gt key1 m a a' Hs) as [Hc' Hfr']; [lia | lia | exact E |].
  destruct (handle_scene (EvFrame gt key1 m) _ _ Hs E) as [_ Hi'].
  cbn [is_frame] in Hi'.
  destruct (next_index_range a) as [_ Hnx]; [destruct Hs as (_ & ? & _); lia|].
  assert (Hnext : next_index a = (n + 1) mod gNumFrameResources).
  { unfold next_index. rewrite Hnx, Hi, Zplus_mod_idemp_l. reflexivity. }
  split; [lia|]. split; [congruence|].
  intros i Hir.
  assert (Hcase : i = 0 \/ 1 <= i) by lia.
  destruct Hcase as [-> | Hi1].
  - destruct (Hfr 2) as (fr & Hj & _); [unfold gNumFrameResources; lia|].
    replace ((n + 1 - 0) mod gNumFrameResources)
      with ((n - 2) mod gNumFrameResources).
    2:{ unfold gNumFrameResources.
        replace (n + 1 - 0) with (n - 2 + 1 * 3) by lia.
        rewrite Z.mod_add by lia. reflexivity. }
    destruct (Hfr' _ _ Hj) as (fr' & Hj' & Hf').
    exists fr'. split; [exact Hj'|]. rewrite Hf'.
    replace (Z.of_nat (Z.to_nat ((n - 2) mod gNumFrameResources)) =? next_index a)
      with true.
    2:{ symmetry. apply Z.eqb_eq. rewrite Hnext.
        pose proof (Z.mod_pos_bound (n - 2) gNumFrameResources).
        rewrite Z2Nat.id by (unfold gNumFrameResources in *; lia).
        unfold gNumFrameResources.
        replace (n + 1) with (n - 2 + 1 * 3) by lia.
        rewrite Z.mod_add by lia. reflexivity. }
    replace (0 <? n + 1) with true by (symmetry; apply Z.ltb_lt; lia).
    lia.
  - destruct (Hfr (i - 1)) as (fr & Hj & Hfe); [lia|].
    replace (n + 1 - i) with (n - (i - 1)) by lia.
    destruct (Hfr' _ _ Hj) as (fr' & Hj' & Hf').
    exists fr'. split; [exact Hj'|]. rewrite Hf', Hfe.
    replace (Z.of_nat (Z.to_nat ((n - (i - 1)) mod gNumFrameResources))
             =? next_index a) with false.
    2:{ symmetry. apply Z.eqb_neq. rewrite Hnext.
        pose proof (Z.mod_pos_bound (n - (i - 1)) gNumFrameResources).
        rewrite Z2Nat.id by (unfold gNumFrameResources in *; lia).
        unfold gNumFrameResources in *.
        intros Heq.
        assert (Hd : ((n + 1) - (n - (i - 1))) mod 3 = 0).
        { rewrite Zminus_mod, Heq, Z.sub_diag. reflexivity. }
        replace (n + 1 - (n - (i - 1))) with i in Hd by lia.
        assert (Hc2 : i = 1 \/ i = 2) by lia.
        destruct Hc2 as [-> | ->]; vm_compute in Hd; discriminate. }
    destruct (i - 1 <? n) eqn:H1; destruct (i <? n + 1) eqn:H2;
      try reflexivity; lia.
Qed.

Lemma run_fences (tr : list Event) :
  forall (fence0 n : Z) (a a' : ShapesApp),
    scene_inv a -> 0 <= fence0 -> 0 <= n ->
    fence0 + n + frames tr < UINT64_MAX_plus_1 ->
    fences_of_ring fence0 n a -> run tr a = Done a' ->
    fences_of_ring fence0 (n + frames tr) a'.
Proof.
  induction tr as [|ev tr IH]; intros fence0 n a a' Hs Hf0 Hn Hw Hr E;
    cbn [run] in E.
  - inversion E; subst a'. unfold frames. simpl. rewrite Z.add_0_r. exact Hr.
  - apply bind_Done in E as (a1 & E1 & E).
    rewrite frames_cons in *.
    pose proof (frames_nonneg tr) as Hfn.
    destruct (handle_scene _ _ _ Hs E1) as [Hs1 _].
    assert (H1 : fences_of_ring fence0 (n + (if is_frame ev then 1 else 0)) a1).
    { eapply handle_fences; [exact Hs | exact Hf0 | exact Hn | | exact Hr | exact E1].
      destruct (is_frame ev); lia. }
    rewrite Z.add_assoc.
    eapply IH; [exact Hs1 | exact Hf0 | | | exact H1 | exact E].
    + destruct (is_frame ev); lia.
    + destruct (is_frame ev); lia.
Qed.

Lemma Initialize_fences (shapes : list Shape) (fence0 : Z)
    (pass0 : PassConstants) (obj0 : ObjectConstants)
    (theta phi radius : float) (proj : XMFLOAT4X4) (w h : Z) :
  fences_of_ring fence0 0
    (Initialize shapes fence0 pass0 obj0 theta phi radius proj w h).
Proof.
  unfold fences_of_ring, Initialize.
  cbn [mCurrentFence mCurrFrameResourceIndex mFrameResources].
  split; [lia|]. split; [reflexivity|].
  intros i Hi. unfold BuildFrameResources.
  eexists. split.
  - apply lookup_replicate_2.
    pose proof (Z.mod_pos_bound (0 - i) gNumFrameResources).
    unfold gNumFrameResources in *. lia.
  - replace (i <? 0) with false by (symmetry; apply Z.ltb_ge; lia).
    reflexivity.
Qed.

End Fences.

(** ** When the per-object commit is defined *)

(** The loop returns exactly when every store it makes is inside the
    table. *)
Lemma UpdateObjectCBs_loop_defined (items : list RenderItem) :
  forall cb : UploadBuffer ObjectConstants,
    (exists r, UpdateObjectCBs_loop items cb = Done r)
    <-> (forall e, In e items -> 0 < NumFramesDirty e ->
           0 <= int_of_UINT (ObjCBIndex e) < Z.of_nat (length cb)).
Proof.
  induction items as [|e rest IH]; intros cb; cbn [UpdateObjectCBs_loop].
  - split; [intros _ e [] | intros _; eexists; reflexivity].
  - destruct (0 <? NumFramesDirty e) eqn:Hd.
    + apply Z.ltb_lt in Hd. split.
      * intros (r & E).
        apply bind_Done in E as (cb1 & E1 & E).
        apply bind_Done in E as (r1 & E2 & _).
        apply CopyData_Done in E1 as [Hi ->].
        assert (Hrest : exists r, UpdateObjectCBs_loop rest
                          (<[Z.to_nat (int_of_UINT (ObjCBIndex e)) :=
                               mkObjectConstants
                                 (XMStoreFloat4x4 (XMMatrixTranspose
                                    (XMLoadFloat4x4 (World e))))]> cb) = Done r)
          by eauto.
        pose proof (proj1 (IH _) Hrest) as Hrest'. rewrite length_insert in Hrest'.
        intros e' [<- | He'] Hpos; [exact Hi | apply Hrest'; assumption].
      * intros H.
        rewrite CopyData_in_range by (apply H; [left; reflexivity | exact Hd]).
        cbn [bind].
        destruct (proj2 (IH (<[Z.to_nat (int_of_UINT (ObjCBIndex e)) :=
                               mkObjectConstants
                                 (XMStoreFloat4x4 (XMMatrixTranspose
                                    (XMLoadFloat4x4 (World e))))]> cb)))
          as (r & Hr).
        { rewrite length_insert. intros e' He'. apply H. right. exact He'. }
        rewrite Hr. cbn [bind]. eexists. reflexivity.
    + apply Z.ltb_ge in Hd. split.
      * intros (r & E). apply bind_Done in E as (r1 & E1 & _).
        assert (Hrest : exists r, UpdateObjectCBs_loop rest cb = Done r) by eauto.
        pose proof (proj1 (IH _) Hrest) as Hrest'.
        intros e' [<- | He'] Hpos; [lia | apply Hrest'; assumption].
      * intros H. destruct (proj2 (IH cb)) as (r & Hr).
        { intros e' He'. apply H. right. exact He'. }
        rewrite Hr. cbn [bind]. eexists. reflexivity.
Qed.

Lemma CopyData_not_Blocked {T : Type} (i : Z) (x : T) (b : UploadBuffer T) :
  CopyData i x b <> Blocked.
Proof. unfold CopyData. destruct (_ && _); discriminate. Qed.

Lemma UpdateObjectCBs_loop_not_Blocked (items : list RenderItem) :
  forall cb : UploadBuffer ObjectConstants,
    UpdateObjectCBs_loop items cb <> Blocked.
Proof.
  induction items as [|e rest IH]; intros cb; cbn [UpdateObjectCBs_loop];
    [discriminate|].
  destruct (0 <? NumFramesDirty e).
  - destruct (CopyData _ _ cb) as [cb1| |] eqn:Hc; cbn [bind];
      [|exfalso; eapply CopyData_not_Blocked; exact Hc | discriminate].
    destruct (UpdateObjectCBs_loop rest cb1) eqn:Hr; cbn [bind];
      [discriminate | exfalso; eapply IH; exact Hr | discriminate].
  - destruct (UpdateObjectCBs_loop rest cb) eqn:Hr; cbn [bind];
      [discriminate | exfalso; eapply IH; exact Hr | discriminate].
Qed.

(** ** The descriptor heap, entry by entry *)

(** Which view each descriptor of the filled heap holds. *)
Lemma heap_entry (n : Z) (heap : DescriptorHeap) :
  0 <= n -> (n + 1) * gNumFrameResources <= INT_MAX ->
  BuildConstantBufferViews n (passCbvOffset n) (BuildDescriptorHeaps n)
  = Done heap ->
  Z.of_nat (length heap) = (n + 1) * gNumFrameResources
  /\ forall p : nat, (p < length heap)%nat ->
       heap !! p
       = Some (Some (if Z.of_nat p <? n * gNumFrameResources
                     then ObjectCBV (Z.of_nat p / n) (Z.of_nat p mod n)
                     else PassCBV (Z.of_nat p - n * gNumFrameResources))).
Proof.
  intros Hn Hb E.
  destruct (BuildConstantBufferViews_spec n Hn Hb) as (heap' & E' & Hl & Hov & Hpv).
  rewrite E in E'. inversion E'; subst heap'. clear E'.
  assert (Hlen : Z.of_nat (length heap) = (n + 1) * gNumFrameResources).
  { rewrite Hl. unfold numDescriptors. apply to_UINT_small.
    unfold INT_MAX, gNumFrameResources in *. lia. }
  split; [exact Hlen|].
  intros p Hp.
  destruct (Z.of_nat p <? n * gNumFrameResources) eqn:Hc.
  - apply Z.ltb_lt in Hc.
    assert (Hn0 : 0 < n) by (unfold gNumFrameResources in *; lia).
    pose proof (Z.div_mod (Z.of_nat p) n ltac:(lia)) as Hdm.
    pose proof (Z.mod_pos_bound (Z.of_nat p) n Hn0) as Hm.
    assert (Hq : 0 <= Z.of_nat p / n < gNumFrameResources).
    { split; [apply Z.div_pos; lia|].
      apply Z.div_lt_upper_bound; [lia|]. lia. }
    rewrite <- (Hov (Z.of_nat p / n) (Z.of_nat p mod n) Hq Hm).
    f_equal. lia.
  - apply Z.ltb_ge in Hc.
    rewrite <- (Hpv (Z.of_nat p - n * gNumFrameResources)) by lia.
    f_equal. lia.
Qed.

(** ** The shared vertex and index buffer *)

(** A loop over the vertices of a mesh stays inside [vertices]: the
    counter [k] never exceeds the number [w] of vertices written so far,
    wrapped or not. *)
Lemma copy_positions_in_bounds (positions : list XMFLOAT3) (c : Colors) :
  forall (k w : Z) (vertices : list Vertex),
    0 <= k <= w ->
    w + Z.of_nat (length positions) <= Z.of_nat (length vertices) ->
    exists k' vs,
      copy_positions positions c k vertices = Done (k', vs)
      /\ 0 <= k' <= w + Z.of_nat (length positions)
      /\ length vs = length vertices.
Proof.
  induction positions as [|pos rest IH]; intros k w vertices Hk Hlen;
    cbn [copy_positions].
  - exists k, vertices. cbn [length] in *. repeat split; lia.
  - cbn [length] in Hlen.
    assert (Hlt : (Z.to_nat k < length vertices)%nat) by lia.
    destruct (lookup_lt_is_Some_2 _ _ Hlt) as [v Hv].
    assert (Hva : vec_at vertices k = Some v) by (apply vec_at_Some; split; [lia | exact Hv]).
    rewrite Hva.
    destruct (IH (to_UINT (k + 1)) (w + 1)
                (<[Z.to_nat k := mkVertex pos (XMFLOAT4_of c)]> vertices))
      as (k' & vs & E & Hk' & Hl).
    { unfold to_UINT, UINT_MAX_plus_1.
      pose proof (Z.mod_pos_bound (k + 1) (2 ^ 32) ltac:(lia)).
      pose proof (Z.mod_le (k + 1) (2 ^ 32) ltac:(lia) ltac:(lia)). lia. }
    { rewrite length_insert. lia. }
    exists k', vs. rewrite length_insert in Hl. cbn [length].
    repeat split; [exact E | lia | lia | exact Hl].
Qed.

Lemma fill_vertices_in_bounds (parts : list ShapePart) :
  forall (k w : Z) (vertices : list Vertex),
    0 <= k <= w ->
    w + Z.of_nat (length (all_positions parts)) <= Z.of_nat (length vertices) ->
    exists k' vs,
      fill_vertices parts k vertices = Done (k', vs)
      /\ length vs = length vertices.
Proof.
  induction parts as [|p rest IH]; intros k w vertices Hk Hlen;
    cbn [fill_vertices].
  - exists k, vertices. split; reflexivity.
  - unfold all_positions in Hlen. cbn [flat_map] in Hlen.
    rewrite length_app in Hlen. fold (all_positions rest) in Hlen.
    destruct (copy_positions_in_bounds (Vertices (partMesh p)) (partColor p)
                k w vertices Hk) as (k1 & vs1 & E1 & Hk1 & Hl1); [lia|].
    rewrite E1. cbn [bind fst snd].
    destruct (IH k1 (w + Z.of_nat (length (Vertices (partMesh p)))) vs1 Hk1)
      as (k' & vs & E & Hl); [rewrite Hl1; lia|].
    exists k', vs. split; [exact E | congruence].
Qed.

(** Without wrap-around the loop writes the coloured vertices of the mesh
    at [k], [k + 1], ... and leaves the rest of the array alone. *)
Lemma copy_positions_spec (positions : list XMFLOAT3) (c : Colors) :
  forall (k : Z) (vertices : list Vertex),
    0 <= k ->
    k + Z.of_nat (length positions) <= Z.of_nat (length vertices) ->
    k + Z.of_nat (length positions) < UINT_MAX_plus_1 ->
    copy_positions positions c k vertices
    = Done (k + Z.of_nat (length positions),
            take (Z.to_nat k) vertices
            ++ map (fun pos => mkVertex pos (XMFLOAT4_of c)) positions
            ++ drop (Z.to_nat k + length positions) vertices).
Proof.
  induction positions as [|pos rest IH]; intros k vertices Hk Hlen Hw;
    cbn [copy_positions length map app] in *.
  - rewrite Z.add_0_r, Nat.add_0_r, take_drop. reflexivity.
  - assert (Hlt : (Z.to_nat k < length vertices)%nat) by lia.
    destruct (lookup_lt_is_Some_2 _ _ Hlt) as [v Hv].
    assert (Hva : vec_at vertices k = Some v)
      by (apply vec_at_Some; split; [lia | exact Hv]).
    rewrite Hva, to_UINT_small by (unfold UINT_MAX_plus_1 in *; lia).
    rewrite IH; [| lia | rewrite length_insert; lia | lia].
    f_equal. f_equal; [lia|].
    replace (Z.to_nat (k + 1)) with (S (Z.to_nat k)) by lia.
    rewrite (take_S_r _ _ (mkVertex pos (XMFLOAT4_of c)))
      by (apply list_lookup_insert_eq; exact Hlt).
    rewrite take_insert_ge by lia.
    rewrite drop_insert_lt by lia.
    rewrite <- app_assoc. cbn [app].
    replace (S (Z.to_nat k) + length rest)%nat
      with (Z.to_nat k + S (length rest))%nat by lia.
    reflexivity.
Qed.

Lemma fill_vertices_spec (parts : list ShapePart) :
  forall (k : Z) (vertices : list Vertex),
    0 <= k ->
    k + Z.of_nat (length (all_positions parts)) <= Z.of_nat (length vertices) ->
    k + Z.of_nat (length (all_positions parts)) < UINT_MAX_plus_1 ->
    fill_vertices parts k vertices
    = Done (k + Z.of_nat (length (all_positions parts)),
            take (Z.to_nat k) vertices
            ++ flat_map coloured parts
            ++ drop (Z.to_nat k + length (all_positions parts)) vertices).
Proof.
  induction parts as [|p rest IH]; intros k vertices Hk Hlen Hw;
    cbn [fill_vertices].
  - cbn. rewrite Z.add_0_r, Nat.add_0_r, take_drop. reflexivity.
  - unfold all_positions in *. cbn [flat_map] in *.
    rewrite length_app in *. fold (all_positions rest) in *.
    set (m := length (Vertices (partMesh p))) in *.
    rewrite copy_positions_spec by (fold m; lia).
    cbn [bind fst snd]. fold m.
    assert (Hc : length (coloured p) = m) by (unfold coloured; apply length_map).
    fold (coloured p).
    rewrite IH.
    2:{ lia. }
    2:{ rewrite !length_app, length_take, length_drop, Hc. lia. }
    2:{ lia. }
    f_equal. f_equal; [lia|].
    replace (Z.to_nat (k + Z.of_nat m)) with (Z.to_nat k + m)%nat by lia.
    assert (Ht : length (take (Z.to_nat k) vertices) = Z.to_nat k)
      by (rewrite length_take; lia).
    assert (Htake : take (Z.to_nat k + m)
                      (take (Z.to_nat k) vertices ++ coloured p
                       ++ drop (Z.to_nat k + m) vertices)
                    = take (Z.to_nat k) vertices ++ coloured p).
    { rewrite app_assoc. apply take_app_length'.
      rewrite length_app, Ht, Hc. reflexivity. }
    assert (Hdrop : drop (Z.to_nat k + m + length (all_positions rest))
                      (take (Z.to_nat k) vertices ++ coloured p
                       ++ drop (Z.to_nat k + m) vertices)
                    = drop (Z.to_nat k + (m + length (all_positions rest)))
                        vertices).
    { rewrite app_assoc.
      rewrite drop_app_ge by (rewrite length_app, Ht, Hc; lia).
      rewrite length_app, Ht, Hc, drop_drop. f_equal. lia. }
    rewrite Htake, Hdrop, <- !app_assoc. reflexivity.
Qed.

(** The part of a concatenation that comes from its [n]-th piece. *)
Lemma flat_map_slice {A B : Type} (f : A -> list B) (l : list A) :
  forall (n : nat) (x : A),
    l !! n = Some x ->
    take (length (f x)) (drop (length (flat_map f (take n l))) (flat_map f l))
    = f x.
Proof.
  induction l as [|y l IH]; intros n x Hn; [discriminate|].
  destruct n as [|n]; cbn [take flat_map].
  - inversion Hn; subst y. cbn [length drop]. apply take_app_length.
  - rewrite length_app, drop_app_add. apply IH. exact Hn.
Qed.

Lemma flat_map_take_le {A B : Type} (f : A -> list B) (l : list A) :
  forall (n : nat) (x : A),
    l !! n = Some x ->
    (length (flat_map f (take n l)) + length (f x) <= length (flat_map f l))%nat.
Proof.
  induction l as [|y l IH]; intros n x Hn; [discriminate|].
  destruct n as [|n]; cbn [take flat_map].
  - inversion Hn; subst y. rewrite length_app. cbn [length]. lia.
  - rewrite !length_app. specialize (IH n x Hn). lia.
Qed.

Lemma flat_map_take_mono {A B : Type} (f : A -> list B) (l : list A) :
  forall (i j : nat) (x : A),
    l !! i = Some x -> (i < j)%nat ->
    (length (flat_map f (take i l)) + length (f x)
     <= length (flat_map f (take j l)))%nat.
Proof.
  induction l as [|y l IH]; intros i j x Hi Hij; [discriminate|].
  destruct j as [|j]; [lia|].
  destruct i as [|i]; cbn [take flat_map].
  - inversion Hi; subst y. rewrite length_app. cbn [length]. lia.
  - rewrite !length_app. specialize (IH i j x Hi ltac:(lia)). lia.
Qed.

Lemma all_indices_length (parts : list ShapePart) :
  length (all_indices parts)
  = length (flat_map (fun p => Indices32 (partMesh p)) parts).
Proof.
  unfold all_indices. induction parts as [|p rest IH]; [reflexivity|].
  cbn [flat_map]. rewrite !length_app, IH. unfold GetIndices16.
  rewrite length_map. reflexivity.
Qed.

Lemma submeshes_from_names (parts : list ShapePart) :
  forall vo io : Z,
    map fst (submeshes_from vo io parts) = map partName parts.
Proof.
  induction parts as [|p rest IH]; intros vo io; [reflexivity|].
  cbn [submeshes_from map fst]. rewrite IH. reflexivity.
Qed.

(** The submesh of the [n]-th mesh: its offsets are the sums of the sizes
    of the meshes before it, exactly so while the sums fit their type. *)
Lemma submeshes_from_lookup (parts : list ShapePart) :
  forall (vo io : Z) (n : nat) (p : ShapePart),
    0 <= vo -> 0 <= io ->
    parts !! n = Some p ->
    exists sm,
      submeshes_from vo io parts !! n = Some (partName p, sm)
      /\ (io + Z.of_nat (length (all_indices parts)) < UINT_MAX_plus_1 ->
          Submesh.IndexCount sm = Z.of_nat (length (Indices32 (partMesh p)))
          /\ Submesh.StartIndexLocation sm
             = io + Z.of_nat (length (all_indices (take n parts))))
      /\ (vo + Z.of_nat (length (all_positions parts)) <= INT_MAX ->
          Submesh.BaseVertexLocation sm
          = vo + Z.of_nat (length (all_positions (take n parts)))).
Proof.
  induction parts as [|q rest IH]; intros vo io n p Hvo Hio Hn; [discriminate|].
  unfold all_indices, all_positions in *.
  destruct n as [|n]; cbn [submeshes_from take flat_map].
  - inversion Hn; subst q. eexists. split; [reflexivity|].
    cbn [Submesh.IndexCount Submesh.StartIndexLocation Submesh.BaseVertexLocation
         length].
    rewrite !length_app. unfold GetIndices16. rewrite length_map.
    split.
    + intros Hb. unfold size_UINT.
      rewrite to_UINT_small by (unfold UINT_MAX_plus_1 in *; lia).
      split; [reflexivity | lia].
    + intros Hb. rewrite int_of_UINT_small by (unfold INT_MAX in *; lia). lia.
  - cbn [lookup list_lookup] in Hn |- *.
    assert (Hsv : 0 <= to_UINT (vo + size_UINT (Vertices (partMesh q)))).
    { unfold to_UINT, UINT_MAX_plus_1. apply Z.mod_pos_bound. lia. }
    assert (Hsi : 0 <= to_UINT (io + size_UINT (Indices32 (partMesh q)))).
    { unfold to_UINT, UINT_MAX_plus_1. apply Z.mod_pos_bound. lia. }
    destruct (IH _ _ n p Hsv Hsi Hn) as (sm & Hl & Hi & Hv).
    exists sm. split; [exact Hl|].
    rewrite !length_app. unfold GetIndices16 at 1 3. rewrite !length_map.
    split.
    + intros Hb. unfold size_UINT in Hi.
      rewrite (to_UINT_small (Z.of_nat _)) in Hi
        by (unfold UINT_MAX_plus_1 in *; lia).
      rewrite to_UINT_small in Hi by (unfold UINT_MAX_plus_1 in *; lia).
      destruct Hi as [Hi1 Hi2]; [lia|]. split; [exact Hi1 | lia].
    + intros Hb. unfold size_UINT in Hv.
      rewrite (to_UINT_small (Z.of_nat _)) in Hv
        by (unfold UINT_MAX_plus_1, INT_MAX in *; lia).
      rewrite to_UINT_small in Hv by (unfold UINT_MAX_plus_1, INT_MAX in *; lia).
      rewrite Hv by lia. lia.
Qed.

Lemma foldl_insert_absent {V : Type} (l : list (string * V)) :
  forall (m : gmap string V) (k : string),
    ~ In k (map fst l) ->
    foldl (fun m kv => <[fst kv := snd kv]> m) m l !! k = m !! k.
Proof.
  induction l as [|[k0 v0] l IH]; intros m k Hk; [reflexivity|].
  cbn [foldl fst snd]. cbn [map fst In] in Hk.
  rewrite IH by tauto. apply lookup_insert_ne. tauto.
Qed.

(** Assignments [m[k] = v] with distinct keys: each key ends up with its
    value. *)
Lemma foldl_insert_lookup {V : Type} (l : list (string * V)) :
  forall (m : gmap string V) (k : string) (v : V),
    List.NoDup (map fst l) -> In (k, v) l ->
    foldl (fun m kv => <[fst kv := snd kv]> m) m l !! k = Some v.
Proof.
  induction l as [|[k0 v0] l IH]; intros m k v Hnd Hin; [destruct Hin|].
  cbn [foldl fst snd]. cbn [map fst] in Hnd.
  apply NoDup_cons_iff in Hnd as [Hk0 Hnd].
  destruct Hin as [Heq | Hin].
  - inversion Heq; subst k0 v0.
    rewrite foldl_insert_absent by exact Hk0. apply lookup_insert_eq.
  - apply IH; assumption.
Qed.

(** [pack_shapes] returns; without wrap-around of [k] the vertex array is
    the concatenation of the coloured vertices of the meshes. *)
Lemma pack_shapes_Done (parts : list ShapePart) :
  exists vs,
    pack_shapes parts
    = Done (mkMeshGeometry "shapeGeo" vs (all_indices parts)
              (foldl (fun m kv => <[fst kv := snd kv]> m) ∅
                 (submeshes_from 0 0 parts)))
    /\ length vs = length (all_positions parts)
    /\ (Z.of_nat (length (all_positions parts)) < UINT_MAX_plus_1 ->
        vs = flat_map coloured parts).
Proof.
  unfold pack_shapes.
  destruct (fill_vertices_in_bounds parts 0 0
              (replicate (length (all_positions parts)) Vertex_zero))
    as (k' & vs & E & Hl); [lia | rewrite length_replicate; lia |].
  rewrite E. cbn [bind snd]. exists vs. split; [reflexivity|].
  rewrite length_replicate in Hl. split; [exact Hl|].
  intros Hb.
  rewrite fill_vertices_spec in E
    by (rewrite ?length_replicate; lia).
  inversion E as [[Hk Hvs]].
  cbn [Z.to_nat take app Nat.add].
  rewrite drop_ge by (rewrite length_replicate; lia).
  apply app_nil_r.
Qed.

(** The eleven keys are distinct. *)
Lemma shape_parts_NoDup
    (box grid sphere cylinder cone torus diamond wedge pyramid
     triangularPrism quad : MeshData) :
  List.NoDup
    (map partName
       (shape_parts box grid sphere cylinder cone torus diamond wedge pyramid
          triangularPrism quad)).
Proof.
  cbn [shape_parts map partName].
  repeat (constructor; [cbn [In]; intuition discriminate|]).
  constructor.
Qed.

Lemma pack_shapes_submesh (parts : list ShapePart) (geo : MeshGeometry)
    (n : nat) (p : ShapePart) :
  List.NoDup (map partName parts) ->
  pack_shapes parts = Done geo ->
  parts !! n = Some p ->
  exists sm,
    DrawArgs geo !! partName p = Some sm
    /\ DrawArgs_at geo (partName p) = sm
    /\ (Z.of_nat (length (all_indices parts)) < UINT_MAX_plus_1 ->
        Submesh.IndexCount sm = Z.of_nat (length (Indices32 (partMesh p)))
        /\ Submesh.StartIndexLocation sm
           = Z.of_nat (length (all_indices (take n parts))))
    /\ (Z.of_nat (length (all_positions parts)) <= INT_MAX ->
        Submesh.BaseVertexLocation sm
        = Z.of_nat (length (all_positions (take n parts)))).
Proof.
  intros Hnd E Hn.
  destruct (pack_shapes_Done parts) as (vs & E' & _).
  rewrite E in E'. inversion E'; subst geo. clear E'.
  destruct (submeshes_from_lookup parts 0 0 n p ltac:(lia) ltac:(lia) Hn)
    as (sm & Hl & Hi & Hv).
  exists sm.
  assert (Hlk : foldl (fun m kv => <[fst kv := snd kv]> m)
                  (∅ : gmap string SubmeshGeometry)
                  (submeshes_from 0 0 parts) !! partName p = Some sm).
  { apply foldl_insert_lookup.
    - rewrite submeshes_from_names. exact Hnd.
    - apply In_lookup. eauto. }
  unfold DrawArgs_at. cbn [DrawArgs]. rewrite Hlk.
  split; [reflexivity|]. split; [reflexivity|].
  split; [exact Hi | exact Hv].
Qed.

Lemma coloured_length (l : list ShapePart) :
  length (flat_map coloured l) = length (all_positions l).
Proof.
  unfold all_positions. induction l as [|q l IH]; [reflexivity|].
  cbn [flat_map]. rewrite !length_app, IH. unfold coloured.
  rewrite length_map. reflexivity.
Qed.

Lemma pack_shapes_indices (parts : list ShapePart) (geo : MeshGeometry)
    (n : nat) (p : ShapePart) :
  List.NoDup (map partName parts) ->
  Z.of_nat (length (all_indices parts)) < UINT_MAX_plus_1 ->
  pack_shapes parts = Done geo ->
  parts !! n = Some p ->
  Submesh.IndexCount (DrawArgs_at geo (partName p))
  = Z.of_nat (length (Indices32 (partMesh p)))
  /\ Submesh.StartIndexLocation (DrawArgs_at geo (partName p))
     = Z.of_nat (length (all_indices (take n parts)))
  /\ Submesh.StartIndexLocation (DrawArgs_at geo (partName p))
     + Submesh.IndexCount (DrawArgs_at geo (partName p))
     <= Z.of_nat (length (IndexBufferCPU geo))
  /\ take (Z.to_nat (Submesh.IndexCount (DrawArgs_at geo (partName p))))
       (drop (Z.to_nat (Submesh.StartIndexLocation
                          (DrawArgs_at geo (partName p))))
          (IndexBufferCPU geo))
     = GetIndices16 (partMesh p).
Proof.
  intros Hnd Hb E Hn.
  destruct (pack_shapes_submesh parts geo n p Hnd E Hn)
    as (sm & _ & -> & Hi & _).
  destruct (Hi Hb) as [Hc Hs].
  destruct (pack_shapes_Done parts) as (vs & E' & _).
  assert (Hidx : IndexBufferCPU geo = all_indices parts).
  { rewrite E in E'. injection E' as ->. reflexivity. }
  rewrite Hidx.
  pose proof (flat_map_take_le (fun q => GetIndices16 (partMesh q)) parts n p Hn)
    as Hle.
  cbv beta in Hle.
  fold (all_indices parts) in Hle. fold (all_indices (take n parts)) in Hle.
  assert (Hg : length (GetIndices16 (partMesh p))
               = length (Indices32 (partMesh p)))
    by (unfold GetIndices16; apply length_map).
  rewrite Hg in Hle.
  split; [exact Hc|]. split; [exact Hs|]. split; [lia|].
  rewrite Hc, Hs, !Nat2Z.id, <- Hg.
  apply (flat_map_slice (fun q => GetIndices16 (partMesh q))). exact Hn.
Qed.

Lemma pack_shapes_vertices (parts : list ShapePart) (geo : MeshGeometry)
    (n : nat) (p : ShapePart) :
  List.NoDup (map partName parts) ->
  Z.of_nat (length (all_positions parts)) <= INT_MAX ->
  pack_shapes parts = Done geo ->
  parts !! n = Some p ->
  Submesh.BaseVertexLocation (DrawArgs_at geo (partName p))
  = Z.of_nat (length (all_positions (take n parts)))
  /\ Submesh.BaseVertexLocation (DrawArgs_at geo (partName p))
     + Z.of_nat (length (Vertices (partMesh p)))
     <= Z.of_nat (length (VertexBufferCPU geo))
  /\ take (length (Vertices (partMesh p)))
       (drop (Z.to_nat (Submesh.BaseVertexLocation
                          (DrawArgs_at geo (partName p))))
          (VertexBufferCPU geo))
     = coloured p.
Proof.
  intros Hnd Hb E Hn.
  destruct (pack_shapes_submesh parts geo n p Hnd E Hn)
    as (sm & _ & -> & _ & Hv).
  specialize (Hv Hb).
  destruct (pack_shapes_Done parts) as (vs & E' & Hl & Hvs).
  assert (Hvb : VertexBufferCPU geo = flat_map coloured parts).
  { rewrite E in E'. injection E' as ->. cbn [VertexBufferCPU].
    apply Hvs. unfold INT_MAX, UINT_MAX_plus_1 in *. lia. }
  rewrite Hvb.
  pose proof (flat_map_take_le coloured parts n p Hn) as Hle.
  assert (Hc : length (coloured p) = length (Vertices (partMesh p)))
    by (unfold coloured; apply length_map).
  rewrite !coloured_length in *. rewrite Hc in Hle.
  split; [exact Hv|]. split; [lia|].
  rewrite Hv, Nat2Z.id, <- coloured_length, <- Hc.
  apply (flat_map_slice coloured). exact Hn.
Qed.

(** The render item at position [k]. *)
Lemma BuildRenderItems_from_lookup (shapes : list Shape) :
  forall (i : Z) (k : nat) (s : Shape),
    0 <= i -> i + Z.of_nat (length shapes) < UINT_MAX_plus_1 ->
    shapes !! k = Some s ->
    BuildRenderItems_from i shapes !! k
    = Some (mkRenderItem (shapeWorld s) gNumFrameResources (i + Z.of_nat k)
              (shapeIndexCount s) (shapeStartIndexLocation s)
              (shapeBaseVertexLocation s)).
Proof.
  induction shapes as [|s0 rest IH]; intros i k s Hi Hlen Hk; [discriminate|].
  cbn [BuildRenderItems_from length] in *.
  destruct k as [|k].
  - inversion Hk; subst s0. cbn. rewrite Z.add_0_r. reflexivity.
  - cbn [lookup list_lookup] in Hk |- *.
    rewrite to_UINT_small by (unfold UINT_MAX_plus_1 in *; lia).
    specialize (IH (i + 1) k s ltac:(lia) ltac:(lia) Hk).
    etransitivity; [exact IH|]. do 2 f_equal. lia.
Qed.

(** Reading a slice element by element. *)
Lemma slice_lookup {A : Type} (l piece : list A) (start : nat) :
  take (length piece) (drop start l) = piece ->
  forall (i : nat) (x : A), piece !! i = Some x -> l !! (start + i)%nat = Some x.
Proof.
  intros H i x Hi.
  pose proof (lookup_lt_Some _ _ _ Hi) as Hlt.
  rewrite <- H in Hi. rewrite lookup_take_lt in Hi by exact Hlt.
  rewrite lookup_drop in Hi. exact Hi.
Qed.

(** * The claims *)

Section Claims.

Context {math : DirectXMath}.

(** C1.  Whatever frame resource [Update] selects, a returning [Update]
    has seen the fence reach the target last recorded in that frame
    resource before it wrote the object table and the pass record, and the
    fence is still at or beyond that target when [Draw] later resets the
    command allocator.  When the recorded target is nonzero and ahead of the
    completed value, the step [Update] takes is the blocking wait on exactly
    that target, and [Update] does not return at all if no queued signal
    reaches it. *)
Theorem C1_update_waits_for_recorded_fence
    (gt : GameTimer) (key1 : bool) (a : ShapesApp) (fr : FrameResource) :
  0 <= completed (gpu a) ->
  mCurrFrameResourceIndex a < INT_MAX ->
  vec_at (mFrameResources a) (next_index a) = Some fr ->
  (forall a', Update gt key1 a = Done a' ->
     exists g,
       wait_for_frame_resource fr (gpu a) = Done g
       /\ Fence fr <= completed g
       /\ bind (UpdateObjectCBs (set_gpu g (select_frame_resource key1 a)))
               (UpdateMainPassCB gt) = Done a'
       /\ gpu a' = g
       /\ (forall (n : nat) (hi : Z),
             chain (completed (gpu a)) (pending (gpu a)) hi = true ->
             Fence fr <= completed (gpu_run n (gpu a'))))
  /\ (Fence fr <> 0 -> completed (gpu a) < Fence fr ->
        wait_for_frame_resource fr (gpu a)
        = WaitForSingleObject (Fence fr) (gpu a)
        /\ ((forall v, In v (pending (gpu a)) -> v < Fence fr) ->
            Update gt key1 a = Blocked)).
Proof.
  intros H0 Hov Hv. split.
  - intros a' E.
    pose proof E as E'. rewrite (Update_unfold gt key1 a fr Hov Hv) in E'.
    apply bind_Done in E' as (g & Hg & Hrest).
    exists g. split; [exact Hg|].
    destruct (wait_for_frame_resource_Done _ _ _ Hg H0) as (Hle & _).
    split; [exact Hle|]. split; [exact Hrest|].
    apply Update_inv in E as (fr1 & g1 & r & pcb & _ & Hv1 & Hg1 & _ & _ & ->).
    rewrite Hv in Hv1. inversion Hv1; subst fr1.
    rewrite Hg in Hg1. inversion Hg1; subst g1.
    cbn [gpu]. split; [reflexivity|].
    intros n hi Hc.
    pose proof (wait_for_frame_resource_keeps_chain _ _ _ _ Hc Hg) as Hc'.
    destruct (gpu_run_chain n g hi Hc') as (Hmono & _). lia.
  - intros Hnz Hlt.
    assert (Hw : wait_for_frame_resource fr (gpu a)
                 = WaitForSingleObject (Fence fr) (gpu a)).
    { unfold wait_for_frame_resource, GetCompletedValue.
      apply Z.eqb_neq in Hnz. apply Z.ltb_lt in Hlt. rewrite Hnz, Hlt.
      reflexivity. }
    split; [exact Hw|].
    intros Hq. rewrite (Update_unfold gt key1 a fr Hov Hv), Hw.
    unfold WaitForSingleObject.
    rewrite wait_queue_Blocked by assumption. reflexivity.
Qed.

(** C6, amended.  In every run from a well-formed state the number of
    submitted frames the GPU has not completed never exceeds the ring depth
    N; from the moment [Update] returns until [Draw] submits the frame it
    does not exceed N - 1. *)
Theorem C6_frames_in_flight_bound (tr : list Event) (a a' : ShapesApp) :
  scene_ok a = true -> fence_ok a = true ->
  mCurrentFence a + frames tr < UINT64_MAX_plus_1 ->
  run tr a = Done a' ->
  frames_in_flight (gpu a') <= gNumFrameResources
  /\ (forall gt key1 a1 (n : nat),
        Update gt key1 a' = Done a1 ->
        frames_in_flight (gpu_run n (gpu a1)) <= gNumFrameResources - 1).
Proof.
  intros Hs Hf Hw E.
  apply scene_ok_iff in Hs. apply fence_ok_iff in Hf.
  destruct (run_invariants tr a Hs Hf Hw) as (a2 & E2 & Hs' & Hf' & _).
  rewrite E in E2. inversion E2; subst a2. clear E2.
  split; [apply in_flight_bound; assumption|].
  intros gt key1 a1 n E1.
  pose proof (Update_scene _ _ _ _ Hs' E1) as Hs1.
  destruct (Update_fence _ _ _ _ Hs' Hf' E1) as (Hf1 & (fr & Hv & Hp & Hle) & _).
  destruct (gpu_run_fence n a1 Hf1) as [Hf2 Hmono].
  apply (in_flight_bound_retired (set_gpu (gpu_run n (gpu a1)) a1));
    [exact Hs1 | exact Hf2 |].
  exists fr. split; [exact Hv|]. split; [exact Hp|]. cbn. lia.
Qed.

(** C8.  The ring has depth 3 and is walked round-robin: [Update] moves
    the index to [(current + 1) mod 3], so a run returns to a frame
    resource exactly when its number of frames is a multiple of 3.  After
    [Initialize] every frame resource has the completion target 0, and a
    frame resource whose target is 0 is taken without any wait: the GPU
    timeline is left as it was. *)
Theorem C8_round_robin_selection :
  gNumFrameResources = 3
  /\ (forall gt key1 a a',
        0 <= mCurrFrameResourceIndex a ->
        Update gt key1 a = Done a' ->
        mCurrFrameResourceIndex a'
        = (mCurrFrameResourceIndex a + 1) mod gNumFrameResources
        /\ mCurrFrameResource a' = Some (mCurrFrameResourceIndex a'))
  /\ (forall tr a a',
        scene_ok a = true -> run tr a = Done a' ->
        mCurrFrameResourceIndex a'
        = (mCurrFrameResourceIndex a + frames tr) mod gNumFrameResources
        /\ (mCurrFrameResourceIndex a' = mCurrFrameResourceIndex a
            <-> frames tr mod gNumFrameResources = 0))
  /\ (forall shapes fence0 pass0 obj0 theta phi radius proj w h fr,
        In fr (mFrameResources
                 (Initialize shapes fence0 pass0 obj0 theta phi radius proj w h)) ->
        Fence fr = 0)
  /\ (forall fr g, Fence fr = 0 -> wait_for_frame_resource fr g = Done g)
  /\ (forall gt key1 a fr,
        scene_ok a = true -> fence_ok a = true ->
        vec_at (mFrameResources a) (next_index a) = Some fr ->
        Fence fr = 0 ->
        exists a', Update gt key1 a = Done a' /\ gpu a' = gpu a).
Proof.
  split; [reflexivity|]. split; [|split; [|split; [|split]]].
  - intros gt key1 a a' H0 E.
    apply Update_inv in E as (fr & g & r & pcb & _ & _ & _ & _ & _ & ->).
    cbn [mCurrFrameResourceIndex mCurrFrameResource].
    destruct (next_index_range a H0) as [_ Hn]. unfold next_index.
    rewrite Hn. split; reflexivity.
  - intros tr a a' Hs E. apply scene_ok_iff in Hs.
    destruct (run_index tr a a' Hs E) as [_ Hi]. split; [exact Hi|].
    rewrite Hi. destruct Hs as (_ & H2 & _).
    unfold gNumFrameResources in *.
    pose proof (Z.mod_pos_bound (frames tr) 3 ltac:(lia)) as Hb.
    rewrite <- (Zplus_mod_idemp_r (frames tr)).
    split.
    + intros Heq.
      assert (Hcases : frames tr mod 3 = 0 \/ frames tr mod 3 = 1
                       \/ frames tr mod 3 = 2) by lia.
      destruct Hcases as [Hc | [Hc | Hc]]; [exact Hc | |];
        rewrite Hc in Heq; exfalso;
        assert (Hi3 : mCurrFrameResourceIndex a = 0
                      \/ mCurrFrameResourceIndex a = 1
                      \/ mCurrFrameResourceIndex a = 2) by lia;
        destruct Hi3 as [Hi3 | [Hi3 | Hi3]]; rewrite Hi3 in Heq;
        vm_compute in Heq; discriminate.
    + intros ->. rewrite Z.add_0_r. apply Z.mod_small. lia.
  - intros shapes fence0 pass0 obj0 theta phi radius proj w h fr Hfr.
    unfold Initialize, BuildFrameResources in Hfr. cbn [mFrameResources] in Hfr.
    apply In_replicate in Hfr. subst fr. reflexivity.
  - intros fr g Hz. unfold wait_for_frame_resource. rewrite Hz. reflexivity.
  - intros gt key1 a fr Hs Hf Hv Hz.
    apply scene_ok_iff in Hs. apply fence_ok_iff in Hf.
    destruct (Update_returns gt key1 a Hs Hf) as [a' E].
    exists a'. split; [exact E|].
    apply Update_inv in E as (fr1 & g & r & pcb & _ & Hv1 & Hg & _ & _ & ->).
    rewrite Hv in Hv1. inversion Hv1; subst fr1.
    unfold wait_for_frame_resource in Hg. rewrite Hz in Hg.
    inversion Hg. reflexivity.
Qed.

(** C10.  A returning [Update] changes a single element of
    [mFrameResources], the one it made current: there the object table and
    the pass record are the ones written by [UpdateObjectCBs] and
    [UpdateMainPassCB], the allocator and the target are untouched; every
    other frame resource is exactly as before. *)
Theorem C10_update_touches_current_slot_only
    (gt : GameTimer) (key1 : bool) (a a' : ShapesApp) :
  Update gt key1 a = Done a' ->
  mCurrFrameResourceIndex a' = next_index a
  /\ mCurrFrameResource a' = Some (next_index a)
  /\ length (mFrameResources a') = length (mFrameResources a)
  /\ (forall j : nat,
        j <> Z.to_nat (mCurrFrameResourceIndex a') ->
        mFrameResources a' !! j = mFrameResources a !! j)
  /\ (exists fr fr' r,
        mFrameResources a !! Z.to_nat (mCurrFrameResourceIndex a') = Some fr
        /\ mFrameResources a' !! Z.to_nat (mCurrFrameResourceIndex a') = Some fr'
        /\ UpdateObjectCBs_loop (mAllRitems a) (ObjectCB fr) = Done r
        /\ ObjectCB fr' = snd r
        /\ PassCB fr' = <[0%nat := mMainPassCB a']> (PassCB fr)
        /\ CmdListAlloc fr' = CmdListAlloc fr
        /\ Fence fr' = Fence fr).
Proof.
  intros E.
  apply Update_inv in E as (fr & g & r & pcb & _ & Hv & _ & Hr & Hp & ->).
  apply vec_at_Some in Hv as [_ Hv].
  apply CopyData_Done in Hp as [_ Hp].
  cbn [mCurrFrameResourceIndex mCurrFrameResource mFrameResources mMainPassCB].
  split; [reflexivity|]. split; [reflexivity|].
  split; [apply length_insert|]. split.
  - intros j Hj. apply list_lookup_insert_ne. congruence.
  - exists fr. eexists. exists r. split; [exact Hv|]. split.
    { apply list_lookup_insert_eq. eapply lookup_lt_Some. exact Hv. }
    split; [exact Hr|]. cbn. repeat split. exact Hp.
Qed.

(** C4.  On a well-formed state with a current frame resource,
    [UpdateObjectCBs] returns, and for every render item: if its counter is
    positive, the entry of the current table at the item's [ObjCBIndex] is
    the transpose of the item's world matrix and the counter is one less;
    if the counter is zero, that entry and the item are unchanged.  Nothing
    else of the table exists: it has one entry per item. *)
Theorem C4_commit_writes_exactly_the_dirty_items (a : ShapesApp) (p : Z) :
  scene_ok a = true ->
  mCurrFrameResource a = Some p ->
  exists a' fr fr',
    UpdateObjectCBs a = Done a'
    /\ vec_at (mFrameResources a) p = Some fr
    /\ vec_at (mFrameResources a') p = Some fr'
    /\ length (ObjectCB fr') = length (mAllRitems a)
    /\ length (mAllRitems a') = length (mAllRitems a)
    /\ (forall (k : nat) (e : RenderItem),
          mAllRitems a !! k = Some e ->
          (0 < NumFramesDirty e ->
             ObjectCB fr' !! Z.to_nat (ObjCBIndex e)
             = Some (mkObjectConstants (XMMatrixTranspose (World e)))
             /\ mAllRitems a' !! k
                = Some (set_NumFramesDirty (NumFramesDirty e - 1) e))
          /\ (NumFramesDirty e <= 0 ->
                ObjectCB fr' !! Z.to_nat (ObjCBIndex e)
                = ObjectCB fr !! Z.to_nat (ObjCBIndex e)
                /\ mAllRitems a' !! k = Some e)).
Proof.
  intros Hs Hp. apply scene_ok_iff in Hs.
  destruct Hs as (H1 & H2 & H3 & H4 & H5 & H6 & H7).
  pose proof (H3 p Hp) as ->.
  assert (Hlt : (Z.to_nat (mCurrFrameResourceIndex a)
                 < length (mFrameResources a))%nat)
    by (unfold gNumFrameResources in H2; lia).
  destruct (lookup_lt_is_Some_2 _ _ Hlt) as [fr Hfr].
  assert (Hv : vec_at (mFrameResources a) (mCurrFrameResourceIndex a) = Some fr)
    by (apply vec_at_Some; split; [lia | exact Hfr]).
  assert (Hin : In fr (mFrameResources a)) by (apply In_lookup; eauto).
  destruct (H7 fr Hin) as [Hfo Hfp].
  destruct (UpdateObjectCBs_loop_spec (mAllRitems a) 0 (ObjectCB fr))
    as (cb' & Hloop & Hcl & _ & Hcb); [assumption | lia | lia | |].
  { unfold INT_MAX, gNumFrameResources in H6. lia. }
  eexists. exists fr. eexists.
  split.
  { unfold UpdateObjectCBs, curr_frame_resource. rewrite Hp, Hv. cbn [bind].
    rewrite Hloop. cbn [bind fst snd]. reflexivity. }
  unfold store_curr. rewrite Hp.
  cbn [set_mAllRitems set_mFrameResources mFrameResources mAllRitems].
  split; [exact Hv|]. split.
  { apply vec_at_Some. split; [lia|]. apply list_lookup_insert_eq. exact Hlt. }
  cbn [set_ObjectCB ObjectCB].
  split; [congruence|]. split; [apply length_map|].
  intros k e Hk.
  pose proof (indexed_from_lookup _ 0 k e H4 Hk) as Hidx.
  replace (Z.to_nat (ObjCBIndex e)) with k by lia.
  specialize (Hcb k e Hk). simpl in Hcb.
  rewrite list_lookup_fmap, Hk. cbn [fmap option_fmap option_map].
  unfold step_item. split.
  - intros Hd. apply Z.ltb_lt in Hd. rewrite Hd in Hcb |- *.
    split; [exact Hcb | reflexivity].
  - intros Hd. apply Z.ltb_ge in Hd. rewrite Hd in Hcb |- *.
    split; [exact Hcb | reflexivity].
Qed.

(** C9.  In every run from a well-formed state no counter is ever
    negative; and an item whose counter is 0 keeps the counter 0 and is not
    stored into any frame resource - its entry in every object table stays
    what it was - for as long as the run does not mark it dirty. *)
Theorem C9_counter_never_negative (tr : list Event) (a a' : ShapesApp) :
  scene_ok a = true ->
  run tr a = Done a' ->
  (forall e, In e (mAllRitems a') -> 0 <= NumFramesDirty e)
  /\ (forall (k : nat) (e : RenderItem),
        mAllRitems a !! k = Some e -> NumFramesDirty e = 0 ->
        no_marks k tr = true ->
        mAllRitems a' !! k = Some e
        /\ commits k tr a = []
        /\ (forall (j : nat) (fr : FrameResource),
              mFrameResources a !! j = Some fr ->
              exists fr', mFrameResources a' !! j = Some fr'
                /\ ObjectCB fr' !! Z.to_nat (ObjCBIndex e)
                   = ObjectCB fr !! Z.to_nat (ObjCBIndex e))).
Proof.
  intros Hs E. apply scene_ok_iff in Hs.
  destruct (run_index tr a a' Hs E) as [Hs' _]. split.
  - intros e He. destruct Hs' as (_ & _ & _ & _ & H5 & _). apply H5 in He. lia.
  - intros k e Hk Hn Hm.
    destruct (run_clean tr a a' k e Hs Hk Hn Hm E) as (R1 & R3 & R2).
    split; [exact R1|]. split; [exact R3|].
    destruct Hs as (_ & _ & _ & H4 & _).
    pose proof (indexed_from_lookup _ 0 k e H4 Hk) as Hidx.
    replace (Z.to_nat (ObjCBIndex e)) with k by lia. exact R2.
Qed.

(** C2.  Take an object whose counter equals the ring depth (as after
    creation or a dirty mark) and any run of three frames that does not
    mark it again.  The run returns; it stores the object exactly once into
    each of the three frame resources, whichever was current at the start;
    afterwards the counter is 0 and the object's entry in every frame
    resource is its world matrix as it was when the counter was set, held
    in the transposed layout of the table (transposing the entry gives the
    world matrix back). *)
Theorem C2_propagation_completeness (tr : list Event) (a : ShapesApp)
    (k : nat) (e : RenderItem) :
  scene_ok a = true -> fence_ok a = true ->
  mCurrentFence a + frames tr < UINT64_MAX_plus_1 ->
  mAllRitems a !! k = Some e ->
  NumFramesDirty e = gNumFrameResources ->
  frames tr = gNumFrameResources ->
  no_marks k tr = true ->
  exists a',
    run tr a = Done a'
    /\ (exists e', mAllRitems a' !! k = Some e'
                   /\ NumFramesDirty e' = 0 /\ World e' = World e)
    /\ Permutation (commits k tr a) [0; 1; 2]
    /\ (forall (j : nat) (fr' : FrameResource),
          mFrameResources a' !! j = Some fr' ->
          exists oc, ObjectCB fr' !! Z.to_nat (ObjCBIndex e) = Some oc
                     /\ OC_World oc = XMMatrixTranspose (World e)
                     /\ XMMatrixTranspose (OC_World oc) = World e).
Proof.
  intros Hs Hf Hw Hk Hn Hfr Hm.
  apply scene_ok_iff in Hs. apply fence_ok_iff in Hf.
  destruct (propagation_full tr a k e Hs Hf Hw Hk Hn Hfr Hm)
    as (a' & E & P1 & P2 & P3).
  exists a'. split; [exact E|]. split.
  { eexists. split; [exact P1|]. split; reflexivity. }
  split; [exact P2|].
  intros j fr' Hj.
  destruct Hs as (_ & _ & _ & H4 & _).
  pose proof (indexed_from_lookup _ 0 k e H4 Hk) as Hidx.
  replace (Z.to_nat (ObjCBIndex e)) with k by lia.
  exists (object_constants_of e). split; [apply (P3 j fr' Hj)|].
  cbn. split; [reflexivity | apply XMMatrixTranspose_involutive].
Qed.

(** C5.  Marking an object dirty sets its counter to the ring depth,
    whatever the counter was - in particular not to the old value plus the
    depth when propagation of an earlier change was still under way.  After
    three further frames without another mark of that object, its entry in
    every frame resource is the new transform (in the transposed layout):
    none holds the earlier value. *)
Theorem C5_remark_resets_counter (tr : list Event) (a : ShapesApp)
    (k : nat) (e : RenderItem) (w : XMFLOAT4X4) :
  scene_ok a = true -> fence_ok a = true ->
  mCurrentFence a + frames tr < UINT64_MAX_plus_1 ->
  mAllRitems a !! k = Some e ->
  frames tr = gNumFrameResources ->
  no_marks k tr = true ->
  exists e1 a',
    mAllRitems (mark_dirty k w a) !! k = Some e1
    /\ NumFramesDirty e1 = gNumFrameResources
    /\ (0 < NumFramesDirty e ->
          NumFramesDirty e1 <> NumFramesDirty e + gNumFrameResources)
    /\ World e1 = w
    /\ ObjCBIndex e1 = ObjCBIndex e
    /\ run tr (mark_dirty k w a) = Done a'
    /\ (exists e', mAllRitems a' !! k = Some e'
                   /\ NumFramesDirty e' = 0 /\ World e' = w)
    /\ (forall (j : nat) (fr' : FrameResource),
          mFrameResources a' !! j = Some fr' ->
          ObjectCB fr' !! Z.to_nat (ObjCBIndex e)
          = Some (mkObjectConstants (XMMatrixTranspose w))).
Proof.
  intros Hs Hf Hw Hk Hfr Hm.
  apply scene_ok_iff in Hs. apply fence_ok_iff in Hf.
  set (e1 := mkRenderItem w gNumFrameResources (ObjCBIndex e)
               (IndexCount e) (StartIndexLocation e) (BaseVertexLocation e)).
  assert (Hk1 : mAllRitems (mark_dirty k w a) !! k = Some e1).
  { unfold mark_dirty. cbn [set_mAllRitems mAllRitems].
    rewrite list_lookup_alter_eq, Hk. reflexivity. }
  pose proof (mark_dirty_scene k w a Hs) as Hs1.
  assert (Hf1 : fence_inv (mark_dirty k w a)) by exact Hf.
  destruct (propagation_full tr (mark_dirty k w a) k e1 Hs1 Hf1 Hw Hk1)
    as (a' & E & P1 & _ & P3); [reflexivity | exact Hfr | exact Hm |].
  exists e1, a'. split; [exact Hk1|]. split; [reflexivity|].
  split. { intros Hpos. cbn. lia. }
  split; [reflexivity|]. split; [reflexivity|]. split; [exact E|].
  split. { eexists. split; [exact P1|]. split; reflexivity. }
  intros j fr' Hj.
  destruct Hs as (_ & _ & _ & H4 & _).
  pose proof (indexed_from_lookup _ 0 k e H4 Hk) as Hidx.
  replace (Z.to_nat (ObjCBIndex e)) with k by lia.
  apply (P3 j fr' Hj).
Qed.

(** C7.  On every well-formed state [Update] returns and leaves, at index
    0 of the pass buffer of the frame resource it selected, a record built
    from this frame's camera: the transposes of the view matrix, the
    projection, their product and the three inverses (each obtained from
    [XMMatrixInverse] with the matrix's determinant), the eye position, the
    render-target size and its reciprocal, the near and far planes, and the
    total and delta times.  Nothing in the state gates the write. *)
Theorem C7_pass_constants_written_every_frame
    (gt : GameTimer) (key1 : bool) (a : ShapesApp) :
  scene_ok a = true -> fence_ok a = true ->
  exists a' fr' pc,
    Update gt key1 a = Done a'
    /\ vec_at (mFrameResources a') (mCurrFrameResourceIndex a') = Some fr'
    /\ mCurrFrameResourceIndex a' = next_index a
    /\ PassCB fr' !! 0%nat = Some pc
    /\ mMainPassCB a' = pc
    /\ mView a' = mView (UpdateCamera a)
    /\ mEyePos a' = mEyePos (UpdateCamera a)
    /\ (let view := mView a' in
        let proj := mProj a in
        let viewProj := XMMatrixMultiply view proj in
        View pc = XMMatrixTranspose view
        /\ InvView pc
           = XMMatrixTranspose (XMMatrixInverse (XMMatrixDeterminant view) view)
        /\ Proj pc = XMMatrixTranspose proj
        /\ InvProj pc
           = XMMatrixTranspose (XMMatrixInverse (XMMatrixDeterminant proj) proj)
        /\ ViewProj pc = XMMatrixTranspose viewProj
        /\ InvViewProj pc
           = XMMatrixTranspose
               (XMMatrixInverse (XMMatrixDeterminant viewProj) viewProj)
        /\ EyePosW pc = mEyePos a'
        /\ RenderTargetSize pc
           = mkXMFLOAT2 (float_of_int (mClientWidth a))
                        (float_of_int (mClientHeight a))
        /\ InvRenderTargetSize pc
           = mkXMFLOAT2 (fdiv (float_of_int 1) (float_of_int (mClientWidth a)))
                        (fdiv (float_of_int 1) (float_of_int (mClientHeight a)))
        /\ NearZ pc = float_of_int 1
        /\ FarZ pc = float_of_int 1000
        /\ TotalTime pc = gtTotalTime gt
        /\ DeltaTime pc = gtDeltaTime gt).
Proof.
  intros Hs Hf. apply scene_ok_iff in Hs. apply fence_ok_iff in Hf.
  destruct (Update_returns gt key1 a Hs Hf) as [a' E].
  pose proof E as E'.
  apply Update_inv in E' as (fr & g & r & pcb & _ & Hv & _ & _ & Hp & ->).
  apply vec_at_Some in Hv as [Hge Hv].
  apply CopyData_Done in Hp as [Hrange ->].
  eexists. eexists. exists (main_pass_constants gt (UpdateCamera a)).
  split; [exact E|].
  cbn [mFrameResources mCurrFrameResourceIndex mMainPassCB mView mEyePos].
  split.
  { apply vec_at_Some. split; [exact Hge|].
    apply list_lookup_insert_eq. eapply lookup_lt_Some. exact Hv. }
  split; [reflexivity|]. split.
  { cbn [PassCB]. apply list_lookup_insert_eq. simpl in Hrange. lia. }
  repeat split.
Qed.

(** C3.  Whenever the descriptor count [(objCount + 1) * 3] fits an
    [int], the heap index computed for the object views is
    [frameIndex * objCount + i], in [BuildConstantBufferViews] and in
    [DrawRenderItems] alike, and the one computed for the pass views is
    [objCount * 3 + frameIndex]; two object indices coincide only for the
    same frame resource and the same object, two pass indices only for the
    same frame resource, an object index never equals a pass index, and all
    of them lie inside the heap.  In the heap [BuildConstantBufferViews]
    fills, the descriptor at the index of (frame resource, object) is the
    view of that object's entry in that frame resource, and the descriptor
    at the pass index of a frame resource is the view of its pass record. *)
Theorem C3_binding_indices_do_not_alias (n s1 s2 o1 o2 : Z) :
  0 <= n ->
  (n + 1) * gNumFrameResources <= INT_MAX ->
  0 <= s1 < gNumFrameResources -> 0 <= s2 < gNumFrameResources ->
  0 <= o1 < n -> 0 <= o2 < n ->
  objHeapIndex n s1 o1 = s1 * n + o1
  /\ cbvIndex n s1 o1 = s1 * n + o1
  /\ passHeapIndex (passCbvOffset n) s1 = n * gNumFrameResources + s1
  /\ (objHeapIndex n s1 o1 = objHeapIndex n s2 o2 <-> s1 = s2 /\ o1 = o2)
  /\ (cbvIndex n s1 o1 = objHeapIndex n s2 o2 <-> s1 = s2 /\ o1 = o2)
  /\ (passHeapIndex (passCbvOffset n) s1 = passHeapIndex (passCbvOffset n) s2
      <-> s1 = s2)
  /\ objHeapIndex n s1 o1 <> passHeapIndex (passCbvOffset n) s2
  /\ 0 <= objHeapIndex n s1 o1 < passCbvOffset n
  /\ passCbvOffset n <= passHeapIndex (passCbvOffset n) s2 < numDescriptors n
  /\ (exists heap,
        BuildConstantBufferViews n (passCbvOffset n) (BuildDescriptorHeaps n)
        = Done heap
        /\ Z.of_nat (length heap) = numDescriptors n
        /\ heap !! Z.to_nat (cbvIndex n s1 o1) = Some (Some (ObjectCBV s1 o1))
        /\ heap !! Z.to_nat (passHeapIndex (passCbvOffset n) s1)
           = Some (Some (PassCBV s1))).
Proof.
  unfold gNumFrameResources, INT_MAX. intros Hn Hfit Hs1 Hs2 Ho1 Ho2.
  assert (Hobj : forall s o, 0 <= s < 3 -> 0 <= o < n ->
            objHeapIndex n s o = s * n + o /\ 0 <= s * n + o < n * 3).
  { intros s o Hs Ho.
    assert (Hb : 0 <= s * n + o < n * 3).
    { assert (Hc : s = 0 \/ s = 1 \/ s = 2) by lia.
      destruct Hc as [-> | [-> | ->]]; lia. }
    unfold objHeapIndex. rewrite to_UINT_small, int_of_UINT_small by lia.
    split; [reflexivity | exact Hb]. }
  assert (Hoff : passCbvOffset n = n * 3).
  { unfold passCbvOffset, gNumFrameResources. apply to_UINT_small. lia. }
  assert (Hpass : forall s, 0 <= s < 3 ->
            passHeapIndex (passCbvOffset n) s = n * 3 + s).
  { intros s Hs. unfold passHeapIndex. rewrite Hoff.
    rewrite to_UINT_small, int_of_UINT_small by lia. reflexivity. }
  assert (Hnum : numDescriptors n = (n + 1) * 3).
  { unfold numDescriptors, gNumFrameResources. apply to_UINT_small. lia. }
  destruct (Hobj s1 o1 Hs1 Ho1) as [E1 B1].
  destruct (Hobj s2 o2 Hs2 Ho2) as [E2 B2].
  destruct (BuildConstantBufferViews_spec n Hn) as (heap & Hb & Hl & Ho & Hp);
    [unfold gNumFrameResources, INT_MAX; lia|].
  specialize (Ho s1 o1 Hs1 Ho1). specialize (Hp s1 Hs1).
  unfold gNumFrameResources in Hp.
  change (cbvIndex n s1 o1) with (objHeapIndex n s1 o1).
  rewrite E1, E2, (Hpass s1 Hs1), (Hpass s2 Hs2), Hoff, Hnum.
  assert (Hinj : s1 * n + o1 = s2 * n + o2 <-> s1 = s2 /\ o1 = o2).
  { split; [|intros [-> ->]; reflexivity]. intros Heq.
    assert (Hc1 : s1 = 0 \/ s1 = 1 \/ s1 = 2) by lia.
    assert (Hc2 : s2 = 0 \/ s2 = 1 \/ s2 = 2) by lia.
    destruct Hc1 as [-> | [-> | ->]]; destruct Hc2 as [-> | [-> | ->]]; lia. }
  repeat split; try lia; try (apply Hinj; assumption);
    try (intros [-> ->]; reflexivity).
  exists heap. rewrite <- Hnum. rewrite Hoff in Hb.
  repeat split; assumption.
Qed.

End Claims.

(** * Further properties of the program *)

(** ** The frame ring *)

Section Ring.

Context {math : DirectXMath}.

(** X1. Every run of the program from start-up returns: whatever the
    sequence of frames, GPU progress, window messages and marks, no
    [Update] waits for a fence value that is never signalled and no call
    leaves the mapped buffers or dereferences a null frame resource, as
    long as the 64-bit fence counter does not wrap; the state it ends in is
    well formed. *)
Theorem run_never_blocks
    (shapes : list Shape) (fence0 : Z)
    (pass0 : PassConstants) (obj0 : ObjectConstants)
    (theta phi radius : float) (proj : XMFLOAT4X4) (w h : Z)
    (tr : list Event) :
  (Z.of_nat (length shapes) + 1) * gNumFrameResources <= INT_MAX ->
  0 <= fence0 ->
  fence0 + frames tr < UINT64_MAX_plus_1 ->
  exists a',
    run tr (Initialize shapes fence0 pass0 obj0 theta phi radius proj w h)
    = Done a'
    /\ scene_ok a' = true /\ fence_ok a' = true.
Proof.
  intros Hb Hf Hw.
  destruct (Initialize_ok shapes fence0 pass0 obj0 theta phi radius proj w h Hb Hf)
    as (Hs0 & Hfi0 & _).
  destruct (run_invariants tr _ Hs0 Hfi0) as (a1 & E1 & Hs1 & Hfi1 & _).
  { cbn [Initialize mCurrentFence]. exact Hw. }
  exists a1. split; [exact E1|].
  split; [apply scene_ok_iff | apply fence_ok_iff]; assumption.
Qed.

(** X2. No frame draws with stale object constants.  In every frame of a
    run from start-up, for every render item, [Draw] binds the entry of
    the current frame resource's object table at the item's index, and
    that entry holds the item's current world matrix (transposed), also
    right after the item has been marked dirty. *)
Theorem draw_reads_current_constants
    (shapes : list Shape) (fence0 : Z)
    (pass0 : PassConstants) (obj0 : ObjectConstants)
    (theta phi radius : float) (proj : XMFLOAT4X4) (w h : Z)
    (tr : list Event) (gt : GameTimer) (key1 : bool) (n : nat)
    (a1 a2 : ShapesApp) :
  (Z.of_nat (length shapes) + 1) * gNumFrameResources <= INT_MAX ->
  0 <= fence0 ->
  run tr (Initialize shapes fence0 pass0 obj0 theta phi radius proj w h)
  = Done a1 ->
  frame gt key1 n a1 = Done a2 ->
  exists fr,
    vec_at (mFrameResources a2) (mCurrFrameResourceIndex a2) = Some fr
    /\ mCurrFrameResource a2 = Some (mCurrFrameResourceIndex a2)
    /\ forall (k : nat) (e : RenderItem),
         mAllRitems a2 !! k = Some e ->
         ObjCBIndex e = Z.of_nat k
         /\ In (SetGraphicsRootDescriptorTable 0
                  (cbvIndex (objCount a2) (mCurrFrameResourceIndex a2)
                     (ObjCBIndex e)))
               (CmdListAlloc fr)
         /\ ObjectCB fr !! k
            = Some (mkObjectConstants (XMMatrixTranspose (World e))).
Proof.
  intros Hb Hf E1 E2.
  destruct (Initialize_ok shapes fence0 pass0 obj0 theta phi radius proj w h Hb Hf)
    as (Hs0 & _ & _).
  pose proof (Initialize_stale shapes fence0 pass0 obj0 theta phi radius proj w h Hb)
    as Hst0.
  destruct (run_stale _ _ _ Hs0 Hst0 E1) as [Hs1 Hst1].
  exact (frame_current_table _ _ _ _ _ Hs1 Hst1 E2).
Qed.

(** X3. What a frame records.  The command list of the frame resource
    begins with the pipeline state chosen by the '1' key of this frame's
    [Update], binds root parameter 1 to descriptor [3 n + s] and then, for
    every render item in order, binds root parameter 0 to descriptor
    [s n + ObjCBIndex] and issues the item's indexed draw ([n] the number
    of items, [s] the current frame resource); in the heap filled by
    [BuildConstantBufferViews] these descriptors are the pass view of [s]
    and the view of entry [k] of the object table of [s]. *)
Theorem frame_records_bindings
    (gt : GameTimer) (key1 : bool) (n : nat) (a a' : ShapesApp) :
  scene_ok a = true ->
  mPassCbvOffset a = passCbvOffset (objCount a) ->
  frame gt key1 n a = Done a' ->
  exists fr heap,
    vec_at (mFrameResources a') (mCurrFrameResourceIndex a') = Some fr
    /\ BuildConstantBufferViews (objCount a') (mPassCbvOffset a')
         (BuildDescriptorHeaps (objCount a')) = Done heap
    /\ CmdListAlloc fr
       = SetPipelineState key1
         :: SetGraphicsRootDescriptorTable 1
              (Z.of_nat (length (mAllRitems a')) * gNumFrameResources
               + mCurrFrameResourceIndex a')
         :: flat_map
              (fun e =>
                 [ SetGraphicsRootDescriptorTable 0
                     (mCurrFrameResourceIndex a' * Z.of_nat (length (mAllRitems a'))
                      + ObjCBIndex e);
                   DrawIndexedInstanced (IndexCount e) (StartIndexLocation e)
                     (BaseVertexLocation e) ])
              (mAllRitems a')
    /\ heap !! Z.to_nat (Z.of_nat (length (mAllRitems a')) * gNumFrameResources
                         + mCurrFrameResourceIndex a')
       = Some (Some (PassCBV (mCurrFrameResourceIndex a')))
    /\ (forall (k : nat) (e : RenderItem),
          mAllRitems a' !! k = Some e ->
          ObjCBIndex e = Z.of_nat k
          /\ heap !! Z.to_nat (mCurrFrameResourceIndex a'
                               * Z.of_nat (length (mAllRitems a')) + Z.of_nat k)
             = Some (Some (ObjectCBV (mCurrFrameResourceIndex a') (Z.of_nat k)))).
Proof.
  intros Hs Hoff E. apply scene_ok_iff in Hs.
  unfold frame in E. apply bind_Done in E as (a1 & E1 & E2).
  pose proof (Update_scene _ _ _ _ Hs E1) as Hs1.
  destruct (Update_flags _ _ _ _ E1) as (F1 & F2 & F3 & _).
  destruct (Update_objects _ _ _ _ Hs E1) as (U1 & U2 & _).
  apply Draw_commands in E2
    as (p & fr & Hp & Hv & Hfrs & _ & _ & Hitems & Hidx & _ & Hpo).
  cbn [set_gpu mCurrFrameResource mFrameResources mIsWireframe mPassCbvOffset
       mCurrFrameResourceIndex mAllRitems mCurrentFence] in Hp, Hv, Hfrs, Hitems, Hidx, Hpo.
  rewrite F3 in Hp. inversion Hp; subst p. clear Hp.
  destruct Hs1 as (_ & S2 & _ & S4 & _ & S6 & _).
  set (cnt := Z.of_nat (length (mAllRitems a'))).
  assert (Hcnt : Z.of_nat (length (mAllRitems a1)) = cnt) by (unfold cnt; congruence).
  assert (Hlen : Z.of_nat (length (mAllRitems a)) = cnt).
  { rewrite <- Hcnt, U1, length_map. reflexivity. }
  assert (Hbound : (cnt + 1) * gNumFrameResources <= INT_MAX) by (rewrite <- Hcnt; exact S6).
  assert (Hcnt0 : 0 <= cnt) by (unfold cnt; lia).
  assert (Hobj : forall b : ShapesApp,
             Z.of_nat (length (mAllRitems b)) = cnt -> objCount b = cnt).
  { intros b Hb. unfold objCount. rewrite Hb. apply to_UINT_small.
    unfold INT_MAX, gNumFrameResources in Hbound. lia. }
  assert (Hoff' : mPassCbvOffset a' = passCbvOffset cnt).
  { rewrite Hpo, F2, Hoff, (Hobj a Hlen). reflexivity. }
  rewrite (Hobj a' eq_refl), Hoff', Hidx.
  destruct (BuildConstantBufferViews_spec cnt Hcnt0 Hbound)
    as (heap & Hheap & _ & Hov & Hpv).
  assert (Hitems' : forall (k : nat) (e : RenderItem),
            mAllRitems a' !! k = Some e ->
            ObjCBIndex e = Z.of_nat k /\ 0 <= Z.of_nat k < cnt).
  { intros k e Hk. split.
    - rewrite Hitems in Hk.
      rewrite (indexed_from_lookup _ _ _ _ S4 Hk). lia.
    - apply lookup_lt_Some in Hk. unfold cnt. lia. }
  rewrite U2 in *.
  eexists. exists heap.
  split.
  { rewrite Hfrs. eapply vec_at_insert. exact Hv. }
  split; [exact Hheap|].
  split.
  { cbn [CmdListAlloc app]. rewrite F1. f_equal. f_equal.
    - rewrite F2, Hoff, (Hobj a Hlen). rewrite passHeapIndex_eq by assumption.
      reflexivity.
    - unfold DrawRenderItems. rewrite <- Hitems. apply flat_map_ext_In.
      intros e He. apply In_lookup in He as [k Hk].
      destruct (Hitems' k e Hk) as [Hi Hr].
      f_equal. f_equal.
      cbn [set_gpu mCurrFrameResourceIndex]. rewrite U2.
      change (cbvIndex ?n0 ?f ?o) with (objHeapIndex n0 f o).
      rewrite (Hobj (set_gpu (gpu_run n (gpu a1)) a1) Hcnt).
      destruct (objHeapIndex_eq cnt (next_index a) (ObjCBIndex e)) as [Hx _];
        [assumption | assumption | lia |].
      exact Hx. }
  split; [apply Hpv; exact S2|].
  intros k e Hk. destruct (Hitems' k e Hk) as [Hi Hr].
  split; [exact Hi|]. apply Hov; assumption.
Qed.

(** X4. The fence values of the ring.  After [m] frames from start-up the
    counter [mCurrentFence] has advanced by [m], the frame resource used
    [i] frames ago (i = 0, 1, 2) records the fence value of that frame, a
    frame resource not used yet records 0, and from the third frame on the
    next [Update] returns only when the GPU has completed the frame two
    frames back. *)
Theorem frame_resource_fences
    (shapes : list Shape) (fence0 : Z)
    (pass0 : PassConstants) (obj0 : ObjectConstants)
    (theta phi radius : float) (proj : XMFLOAT4X4) (w h : Z)
    (tr : list Event) (a' : ShapesApp) :
  (Z.of_nat (length shapes) + 1) * gNumFrameResources <= INT_MAX ->
  0 <= fence0 ->
  fence0 + frames tr < UINT64_MAX_plus_1 ->
  run tr (Initialize shapes fence0 pass0 obj0 theta phi radius proj w h)
  = Done a' ->
  mCurrentFence a' = fence0 + frames tr
  /\ (forall i : Z, 0 <= i < gNumFrameResources ->
        exists fr,
          vec_at (mFrameResources a') ((frames tr - i) mod gNumFrameResources)
          = Some fr
          /\ Fence fr = if i <? frames tr then fence0 + frames tr - i else 0)
  /\ (forall (gt : GameTimer) (key1 : bool) (a'' : ShapesApp),
        gNumFrameResources <= frames tr ->
        Update gt key1 a' = Done a'' ->
        fence0 + frames tr - (gNumFrameResources - 1) <= completed (gpu a'')).
Proof.
  intros Hb Hf Hw E.
  destruct (Initialize_ok shapes fence0 pass0 obj0 theta phi radius proj w h Hb Hf)
    as (Hs0 & Hfi0 & _).
  pose proof (Initialize_fences shapes fence0 pass0 obj0 theta phi radius proj w h)
    as Hr0.
  pose proof (frames_nonneg tr) as Hfn.
  destruct (run_fences tr fence0 0 _ _ Hs0 Hf ltac:(lia) ltac:(lia) Hr0 E)
    as (Hc & Hi & Hfr).
  rewrite Z.add_0_l in Hc, Hi, Hfr.
  destruct (run_invariants tr _ Hs0 Hfi0) as (a1 & E1 & Hs1 & Hfi1 & _).
  { cbn [Initialize mCurrentFence]. exact Hw. }
  rewrite E in E1. inversion E1; subst a1. clear E1.
  split; [exact Hc|]. split.
  - intros i Hir. destruct (Hfr i Hir) as (fr & Hj & Hfe).
    exists fr. split; [|exact Hfe].
    apply vec_at_Some. split; [|exact Hj].
    apply Z.mod_pos_bound. unfold gNumFrameResources. lia.
  - intros gt key1 a'' Hm EU.
    apply Update_inv in EU
      as (fr & g & r & pcb & _ & Hv & Hg & _ & _ & ->).
    cbn [gpu].
    destruct Hfi1 as (Hc0 & _).
    destruct (wait_for_frame_resource_Done _ _ _ Hg Hc0) as (Hle & _).
    destruct (Hfr 2) as (fr2 & Hj2 & Hfe2); [unfold gNumFrameResources; lia|].
    assert (Hnext : next_index a' = (frames tr - 2) mod gNumFrameResources).
    { destruct (next_index_range a') as [_ Hnx];
        [destruct Hs1 as (_ & ? & _); lia|].
      unfold next_index. rewrite Hnx, Hi, Zplus_mod_idemp_l.
      unfold gNumFrameResources.
      replace (frames tr + 1) with (frames tr - 2 + 1 * 3) by lia.
      apply Z.mod_add. lia. }
    apply vec_at_Some in Hv as [_ Hv]. rewrite Hnext, Hj2 in Hv.
    inversion Hv; subst fr2.
    replace (2 <? frames tr) with true in Hfe2
      by (symmetry; apply Z.ltb_lt; unfold gNumFrameResources in Hm; lia).
    unfold gNumFrameResources. lia.
Qed.

(** X5. [Draw] changes nothing but the recording and the fence: the
    current frame resource keeps its object table and its pass record and
    records the advanced fence value, which is also the new
    [mCurrentFence] and the one signal appended to the queue; every other
    frame resource, the render items and the ring index are untouched. *)
Theorem Draw_touches_current_only (a a' : ShapesApp) :
  Draw a = Done a' ->
  exists (p : Z) (fr fr' : FrameResource),
    mCurrFrameResource a = Some p
    /\ vec_at (mFrameResources a) p = Some fr
    /\ vec_at (mFrameResources a') p = Some fr'
    /\ ObjectCB fr' = ObjectCB fr
    /\ PassCB fr' = PassCB fr
    /\ Fence fr' = to_UINT64 (mCurrentFence a + 1)
    /\ mCurrentFence a' = Fence fr'
    /\ pending (gpu a') = pending (gpu a) ++ [Fence fr']
    /\ completed (gpu a') = completed (gpu a)
    /\ length (mFrameResources a') = length (mFrameResources a)
    /\ (forall j : nat, j <> Z.to_nat p ->
          mFrameResources a' !! j = mFrameResources a !! j)
    /\ mAllRitems a' = mAllRitems a
    /\ mCurrFrameResourceIndex a' = mCurrFrameResourceIndex a
    /\ mCurrFrameResource a' = mCurrFrameResource a.
Proof.
  intros E.
  apply Draw_commands in E
    as (p & fr & Hp & Hv & Hfrs & Hcf & Hg & Hitems & Hidx & Hp' & _).
  exists p, fr. eexists.
  split; [exact Hp|]. split; [exact Hv|]. split.
  { rewrite Hfrs. eapply vec_at_insert. exact Hv. }
  cbn [ObjectCB PassCB Fence].
  repeat (split; [reflexivity|]).
  split; [exact Hcf|]. split; [rewrite Hg; reflexivity|].
  split; [rewrite Hg; reflexivity|].
  split; [rewrite Hfrs; apply length_insert|].
  split.
  { intros j Hj. rewrite Hfrs. apply list_lookup_insert_ne. congruence. }
  split; [exact Hitems|]. split; [exact Hidx|]. congruence.
Qed.

(** X6. In a well-formed state [Draw] returns exactly when a frame
    resource has been selected, that is, once [Update] has run; before, it
    dereferences the null [mCurrFrameResource].  [Draw] never waits. *)
Theorem Draw_needs_selected_frame_resource (a : ShapesApp) :
  scene_ok a = true ->
  ((exists a', Draw a = Done a') <-> mCurrFrameResource a <> None)
  /\ (mCurrFrameResource a = None -> Draw a = Undefined)
  /\ Draw a <> Blocked.
Proof.
  intros Hs. apply scene_ok_iff in Hs.
  destruct Hs as (L & H2 & H3 & _).
  unfold Draw, curr_frame_resource.
  destruct (mCurrFrameResource a) as [p|] eqn:Hp.
  - rewrite (H3 p eq_refl).
    assert (Hlt : (Z.to_nat (mCurrFrameResourceIndex a)
                   < length (mFrameResources a))%nat)
      by (unfold gNumFrameResources in H2; lia).
    destruct (lookup_lt_is_Some_2 _ _ Hlt) as [fr Hj].
    assert (Hv : vec_at (mFrameResources a) (mCurrFrameResourceIndex a) = Some fr)
      by (apply vec_at_Some; split; [lia | exact Hj]).
    rewrite Hv. cbn [bind]. split; [|split; discriminate].
    split; [intros _; discriminate | intros _; eauto].
  - cbn [bind]. split; [|split; [reflexivity | discriminate]].
    split; [intros (a' & E); discriminate | intros H; contradiction].
Qed.

(** X7. [UpdateObjectCBs] with a frame resource selected returns exactly
    when the index of every dirty item lies inside the object table of
    that frame resource; it never waits.  A dirty item left with the
    default [ObjCBIndex = -1] therefore has no defined behaviour, a clean
    one is harmless. *)
Theorem UpdateObjectCBs_defined_iff (a : ShapesApp) (p : Z) (fr : FrameResource) :
  mCurrFrameResource a = Some p ->
  vec_at (mFrameResources a) p = Some fr ->
  ((exists a', UpdateObjectCBs a = Done a')
   <-> (forall e, In e (mAllRitems a) -> 0 < NumFramesDirty e ->
          0 <= int_of_UINT (ObjCBIndex e) < Z.of_nat (length (ObjectCB fr))))
  /\ ((exists e, In e (mAllRitems a) /\ 0 < NumFramesDirty e
                 /\ ~ 0 <= int_of_UINT (ObjCBIndex e)
                         < Z.of_nat (length (ObjectCB fr))) ->
      UpdateObjectCBs a = Undefined)
  /\ UpdateObjectCBs a <> Blocked.
Proof.
  intros Hp Hv. rewrite (UpdateObjectCBs_eq a p fr Hp Hv).
  assert (Hiff : (exists a', bind (UpdateObjectCBs_loop (mAllRitems a) (ObjectCB fr))
                    (fun r => Done (set_mAllRitems (fst r)
                       (set_mFrameResources
                          (<[Z.to_nat p := set_ObjectCB (snd r) fr]>
                             (mFrameResources a)) a))) = Done a')
                 <-> (forall e, In e (mAllRitems a) -> 0 < NumFramesDirty e ->
                        0 <= int_of_UINT (ObjCBIndex e)
                        < Z.of_nat (length (ObjectCB fr)))).
  { rewrite <- UpdateObjectCBs_loop_defined. split.
    - intros (a' & E). apply bind_Done in E as (r & Hr & _). eauto.
    - intros (r & Hr). rewrite Hr. cbn [bind]. eauto. }
  split; [exact Hiff|].
  destruct (UpdateObjectCBs_loop (mAllRitems a) (ObjectCB fr)) eqn:Hr;
    cbn [bind] in *.
  - split; [|discriminate].
    intros (e & He & Hd & Hout). exfalso. apply Hout.
    apply (proj1 Hiff); eauto.
  - exfalso. eapply UpdateObjectCBs_loop_not_Blocked. exact Hr.
  - split; [reflexivity | discriminate].
Qed.


End Ring.

(** ** The shared vertex and index buffer *)

Section ShapeGeometry.

Variables box grid sphere cylinder cone torus diamond wedge pyramid
  triangularPrism quad : MeshData.

Local Abbreviation parts :=
  (shape_parts box grid sphere cylinder cone torus diamond wedge pyramid
     triangularPrism quad).

Local Abbreviation build :=
  (BuildShapeGeometry box grid sphere cylinder cone torus diamond wedge pyramid
     triangularPrism quad).




(** X12. The submeshes do not overlap: of two meshes, the index range
    and the vertex range of the one laid out first end before those of
    the other begin. *)
Theorem submeshes_do_not_overlap (geo : MeshGeometry) (i j : nat)
    (p q : ShapePart) :
  Z.of_nat (length (all_indices parts)) < UINT_MAX_plus_1 ->
  Z.of_nat (length (all_positions parts)) <= INT_MAX ->
  build = Done geo ->
  parts !! i = Some p -> parts !! j = Some q -> (i < j)%nat ->
  let smp := DrawArgs_at geo (partName p) in
  let smq := DrawArgs_at geo (partName q) in
  Submesh.StartIndexLocation smp + Submesh.IndexCount smp
  <= Submesh.StartIndexLocation smq
  /\ Submesh.BaseVertexLocation smp + Z.of_nat (length (Vertices (partMesh p)))
     <= Submesh.BaseVertexLocation smq.
Proof.
  intros Hbi Hbv E Hi Hj Hij smp smq. subst smp smq.
  pose proof (shape_parts_NoDup box grid sphere cylinder cone torus diamond
                wedge pyramid triangularPrism quad) as Hnd.
  destruct (pack_shapes_indices parts geo i p Hnd Hbi E Hi) as (Hc1 & Hs1 & _).
  destruct (pack_shapes_indices parts geo j q Hnd Hbi E Hj) as (_ & Hs2 & _).
  destruct (pack_shapes_vertices parts geo i p Hnd Hbv E Hi) as (Hv1 & _).
  destruct (pack_shapes_vertices parts geo j q Hnd Hbv E Hj) as (Hv2 & _).
  rewrite Hc1, Hs1, Hs2, Hv1, Hv2.
  pose proof (flat_map_take_mono (fun r => GetIndices16 (partMesh r))
                parts i j p Hi Hij) as Hm1.
  pose proof (flat_map_take_mono (fun r => Vertices (partMesh r))
                parts i j p Hi Hij) as Hm2.
  cbv beta in Hm1, Hm2.
  fold (all_indices (take i parts)) in Hm1.
  fold (all_indices (take j parts)) in Hm1.
  fold (all_positions (take i parts)) in Hm2.
  fold (all_positions (take j parts)) in Hm2.
  assert (Hg : length (GetIndices16 (partMesh p))
               = length (Indices32 (partMesh p)))
    by (unfold GetIndices16; apply length_map).
  rewrite Hg in Hm1.
  split; lia.
Qed.

End ShapeGeometry.

Section RenderGeometry.

Variables box grid sphere cylinder cone torus diamond wedge pyramid
  triangularPrism quad : MeshData.

Local Abbreviation parts :=
  (shape_parts box grid sphere cylinder cone torus diamond wedge pyramid
     triangularPrism quad).


End RenderGeometry.

(** ** Mouse input *)

Section MouseProps.

Context {math : DirectXMath} {helper : MathHelper}.


End MouseProps.

(** * The theorems at work on the demo scene *)

Lemma C1_witness :
  let a := demo_after [demo_frame 1; demo_frame 2; demo_frame 3] in
  let fr := next_frame_resource a in
  0 <= completed (gpu a)
  /\ mCurrFrameResourceIndex a < INT_MAX
  /\ vec_at (mFrameResources a) (next_index a) = Some fr
  /\ Fence fr = 2 /\ completed (gpu a) = 1
  /\ (forall a', Update (math := PlainMath) (demo_timer 4) false a = Done a' ->
        exists g, wait_for_frame_resource fr (gpu a) = Done g
                  /\ Fence fr <= completed g).
Proof.
  intros a fr.
  assert (H1 : 0 <= completed (gpu a)) by evaluate.
  assert (H2 : mCurrFrameResourceIndex a < INT_MAX) by evaluate.
  assert (H3 : vec_at (mFrameResources a) (next_index a) = Some fr) by evaluate.
  split; [exact H1|]. split; [exact H2|]. split; [exact H3|].
  split; [evaluate|]. split; [evaluate|].
  intros a' E.
  destruct (proj1 (C1_update_waits_for_recorded_fence (math := PlainMath)
                     (demo_timer 4) false a fr H1 H2 H3) a' E)
    as (g & Hg & Hle & _).
  exists g. split; [exact Hg | exact Hle].
Defined.

Lemma C2_witness :
  let tr := [demo_frame 1; EvGpu; demo_frame 2; demo_frame 3] in
  let e := demo_item demo_app 1 in
  scene_ok demo_app = true /\ fence_ok demo_app = true
  /\ mCurrentFence demo_app + frames tr < UINT64_MAX_plus_1
  /\ mAllRitems demo_app !! 1%nat = Some e
  /\ NumFramesDirty e = gNumFrameResources
  /\ frames tr = gNumFrameResources
  /\ no_marks 1 tr = true
  /\ exists a', run (math := PlainMath) tr demo_app = Done a'
                /\ Permutation (commits (math := PlainMath) 1 tr demo_app) [0; 1; 2].
Proof.
  intros tr e.
  assert (H1 : scene_ok demo_app = true) by evaluate.
  assert (H2 : fence_ok demo_app = true) by evaluate.
  assert (H3 : mCurrentFence demo_app + frames tr < UINT64_MAX_plus_1) by evaluate.
  assert (H4 : mAllRitems demo_app !! 1%nat = Some e) by evaluate.
  assert (H5 : NumFramesDirty e = gNumFrameResources) by evaluate.
  assert (H6 : frames tr = gNumFrameResources) by evaluate.
  assert (H7 : no_marks 1 tr = true) by evaluate.
  repeat (split; [assumption|]).
  destruct (C2_propagation_completeness (math := PlainMath)
              tr demo_app 1 e H1 H2 H3 H4 H5 H6 H7) as (a' & E & _ & P & _).
  exists a'. split; [exact E | exact P].
Defined.

Lemma C3_witness :
  0 <= 31 /\ (31 + 1) * gNumFrameResources <= INT_MAX
  /\ objHeapIndex 31 2 5 = 67
  /\ objHeapIndex 31 2 5 <> passHeapIndex (passCbvOffset 31) 1.
Proof.
  assert (H1 : 0 <= 31) by lia.
  assert (H2 : (31 + 1) * gNumFrameResources <= INT_MAX) by evaluate.
  destruct (C3_binding_indices_do_not_alias 31 2 1 5 7 H1 H2)
    as (E & _ & _ & _ & _ & _ & N & _);
    try (unfold gNumFrameResources; lia).
  split; [exact H1|]. split; [exact H2|]. split; [exact E | exact N].
Defined.

Lemma C4_witness :
  let a := demo_after [demo_frame 1] in
  scene_ok a = true /\ mCurrFrameResource a = Some 1
  /\ exists a', UpdateObjectCBs a = Done a'.
Proof.
  intros a.
  assert (H1 : scene_ok a = true) by evaluate.
  assert (H2 : mCurrFrameResource a = Some 1) by evaluate.
  split; [exact H1|]. split; [exact H2|].
  destruct (C4_commit_writes_exactly_the_dirty_items a 1 H1 H2)
    as (a' & _ & _ & E & _).
  exists a'. exact E.
Defined.

Lemma C5_witness :
  let a := demo_after [demo_frame 1] in
  let tr := [demo_frame 2; demo_frame 3; demo_frame 4] in
  let e := demo_item a 1 in
  let w := translation 7 8 9 in
  scene_ok a = true /\ fence_ok a = true
  /\ mCurrentFence a + frames tr < UINT64_MAX_plus_1
  /\ mAllRitems a !! 1%nat = Some e
  /\ NumFramesDirty e = 2
  /\ frames tr = gNumFrameResources
  /\ no_marks 1 tr = true
  /\ exists e1, mAllRitems (mark_dirty 1 w a) !! 1%nat = Some e1
                /\ NumFramesDirty e1 = gNumFrameResources.
Proof.
  intros a tr e w.
  assert (H1 : scene_ok a = true) by evaluate.
  assert (H2 : fence_ok a = true) by evaluate.
  assert (H3 : mCurrentFence a + frames tr < UINT64_MAX_plus_1) by evaluate.
  assert (H4 : mAllRitems a !! 1%nat = Some e) by evaluate.
  assert (H5 : frames tr = gNumFrameResources) by evaluate.
  assert (H6 : no_marks 1 tr = true) by evaluate.
  split; [exact H1|]. split; [exact H2|]. split; [exact H3|].
  split; [exact H4|]. split; [evaluate|]. split; [exact H5|].
  split; [exact H6|].
  destruct (C5_remark_resets_counter (math := PlainMath)
              tr a 1 e w H1 H2 H3 H4 H5 H6) as (e1 & _ & E & N & _).
  exists e1. split; [exact E | exact N].
Defined.

(** C6 as stated fails: after three frames during which the GPU completes
    nothing, three submitted frames are in flight, one more than N - 1. *)
Lemma C6_counterexample :
  exists a',
    run (math := PlainMath)
      [demo_frame 1; demo_frame 2; demo_frame 3] demo_app = Done a'
    /\ frames_in_flight (gpu a') = 3
    /\ ~ frames_in_flight (gpu a') <= gNumFrameResources - 1.
Proof.
  exists (demo_after [demo_frame 1; demo_frame 2; demo_frame 3]).
  split; [evaluate|]. split; [evaluate|].
  vm_compute. intros H. apply H. reflexivity.
Qed.

Lemma C6_witness :
  let tr := [demo_frame 1; demo_frame 2; demo_frame 3] in
  scene_ok demo_app = true /\ fence_ok demo_app = true
  /\ mCurrentFence demo_app + frames tr < UINT64_MAX_plus_1
  /\ run (math := PlainMath) tr demo_app = Done (demo_after tr)
  /\ frames_in_flight (gpu (demo_after tr)) <= gNumFrameResources.
Proof.
  intros tr.
  assert (H1 : scene_ok demo_app = true) by evaluate.
  assert (H2 : fence_ok demo_app = true) by evaluate.
  assert (H3 : mCurrentFence demo_app + frames tr < UINT64_MAX_plus_1) by evaluate.
  assert (H4 : run (math := PlainMath) tr demo_app = Done (demo_after tr))
    by evaluate.
  repeat (split; [assumption|]).
  exact (proj1 (C6_frames_in_flight_bound (math := PlainMath)
                  tr demo_app (demo_after tr) H1 H2 H3 H4)).
Defined.

Lemma C7_witness :
  scene_ok demo_app = true /\ fence_ok demo_app = true
  /\ exists a', Update (math := PlainMath) (demo_timer 1) false demo_app = Done a'
                /\ NearZ (mMainPassCB a') = float_of_int 1
                /\ FarZ (mMainPassCB a') = float_of_int 1000.
Proof.
  assert (H1 : scene_ok demo_app = true) by evaluate.
  assert (H2 : fence_ok demo_app = true) by evaluate.
  split; [exact H1|]. split; [exact H2|].
  destruct (C7_pass_constants_written_every_frame (math := PlainMath)
              (demo_timer 1) false demo_app H1 H2)
    as (a' & fr' & pc & E & _ & _ & _ & Hpc & _ & _ & F).
  exists a'. split; [exact E|]. rewrite Hpc.
  destruct F as (_ & _ & _ & _ & _ & _ & _ & _ & _ & N & Fz & _).
  split; [exact N | exact Fz].
Defined.

Lemma C8_witness :
  let a := demo_app in
  scene_ok a = true /\ fence_ok a = true
  /\ vec_at (mFrameResources a) (next_index a) = Some (next_frame_resource a)
  /\ Fence (next_frame_resource a) = 0
  /\ exists a', Update (math := PlainMath) (demo_timer 1) false a = Done a'
                /\ gpu a' = gpu a.
Proof.
  intros a.
  assert (H1 : scene_ok a = true) by evaluate.
  assert (H2 : fence_ok a = true) by evaluate.
  assert (H3 : vec_at (mFrameResources a) (next_index a)
               = Some (next_frame_resource a)) by evaluate.
  assert (H4 : Fence (next_frame_resource a) = 0) by evaluate.
  repeat (split; [assumption|]).
  exact (proj2 (proj2 (proj2 (proj2 (proj2
           (C8_round_robin_selection (math := PlainMath))))))
           (demo_timer 1) false a (next_frame_resource a) H1 H2 H3 H4).
Defined.

Lemma C9_witness :
  let a := demo_after [demo_frame 1; demo_frame 2; demo_frame 3] in
  let tr := [demo_frame 4; EvGpu; demo_frame 5] in
  scene_ok a = true
  /\ run (math := PlainMath) tr a = Done (demo_after
         [demo_frame 1; demo_frame 2; demo_frame 3;
          demo_frame 4; EvGpu; demo_frame 5])
  /\ NumFramesDirty (demo_item a 1) = 0
  /\ forall e, In e (mAllRitems (demo_after
         [demo_frame 1; demo_frame 2; demo_frame 3;
          demo_frame 4; EvGpu; demo_frame 5])) -> 0 <= NumFramesDirty e.
Proof.
  intros a tr.
  assert (H1 : scene_ok a = true) by evaluate.
  assert (H2 : run (math := PlainMath) tr a = Done (demo_after
         [demo_frame 1; demo_frame 2; demo_frame 3;
          demo_frame 4; EvGpu; demo_frame 5])) by evaluate.
  split; [exact H1|]. split; [exact H2|]. split; [evaluate|].
  exact (proj1 (C9_counter_never_negative (math := PlainMath) tr a _ H1 H2)).
Defined.

Lemma C10_witness :
  let a' := result_or demo_app
              (Update (math := PlainMath) (demo_timer 1) false demo_app) in
  Update (math := PlainMath) (demo_timer 1) false demo_app = Done a'
  /\ mCurrFrameResourceIndex a' = 1
  /\ mFrameResources a' !! 0%nat = mFrameResources demo_app !! 0%nat
  /\ mFrameResources a' !! 2%nat = mFrameResources demo_app !! 2%nat.
Proof.
  intros a'.
  assert (H1 : Update (math := PlainMath) (demo_timer 1) false demo_app
               = Done a') by evaluate.
  destruct (C10_update_touches_current_slot_only (math := PlainMath)
              (demo_timer 1) false demo_app a' H1) as (E & _ & _ & O & _).
  split; [exact H1|]. split; [exact E|].
  split; apply O; rewrite E; evaluate.
Defined.

(** ** Further properties *)

Lemma run_never_blocks_witness :
  let tr := [demo_frame 1; EvGpu; demo_frame 2; demo_frame 3; demo_frame 4] in
  (Z.of_nat (length demo_shapes) + 1) * gNumFrameResources <= INT_MAX
  /\ 0 <= 1
  /\ 1 + frames tr < UINT64_MAX_plus_1
  /\ exists a', run (math := PlainMath) tr demo_app = Done a'
                /\ scene_ok a' = true /\ fence_ok a' = true.
Proof.
  intros tr.
  assert (H1 : (Z.of_nat (length demo_shapes) + 1) * gNumFrameResources <= INT_MAX)
    by evaluate.
  assert (H2 : 0 <= 1) by lia.
  assert (H3 : 1 + frames tr < UINT64_MAX_plus_1) by evaluate.
  split; [exact H1|]. split; [exact H2|]. split; [exact H3|].
  exact (run_never_blocks (math := PlainMath) demo_shapes 1 demo_pass0
           (mkObjectConstants Identity4x4)
           (float_of_int 4) (float_of_int 1) (float_of_int 15) Identity4x4
           800 600 tr H1 H2 H3).
Defined.

Lemma draw_reads_current_constants_witness :
  let tr := [demo_frame 1; EvMarkDirty 1 (translation 7 8 9); demo_frame 2] in
  let a1 := demo_after tr in
  let a2 := demo_after (tr ++ [demo_frame 3]) in
  (Z.of_nat (length demo_shapes) + 1) * gNumFrameResources <= INT_MAX
  /\ 0 <= 1
  /\ run (math := PlainMath) tr demo_app = Done a1
  /\ frame (math := PlainMath) (demo_timer 3) false 0 a1 = Done a2
  /\ exists fr,
       vec_at (mFrameResources a2) (mCurrFrameResourceIndex a2) = Some fr
       /\ ObjectCB fr !! 1%nat
          = Some (mkObjectConstants (XMMatrixTranspose (translation 7 8 9))).
Proof.
  intros tr a1 a2.
  assert (H1 : (Z.of_nat (length demo_shapes) + 1) * gNumFrameResources <= INT_MAX)
    by evaluate.
  assert (H2 : 0 <= 1) by lia.
  assert (H3 : run (math := PlainMath) tr demo_app = Done a1) by evaluate.
  assert (H4 : frame (math := PlainMath) (demo_timer 3) false 0 a1 = Done a2)
    by evaluate.
  split; [exact H1|]. split; [exact H2|]. split; [exact H3|]. split; [exact H4|].
  destruct (draw_reads_current_constants (math := PlainMath) demo_shapes 1
              demo_pass0 (mkObjectConstants Identity4x4)
              (float_of_int 4) (float_of_int 1) (float_of_int 15) Identity4x4
              800 600 tr (demo_timer 3) false 0 a1 a2 H1 H2 H3 H4)
    as (fr & Hfr & _ & Hit).
  exists fr. split; [exact Hfr|].
  assert (Hk : mAllRitems a2 !! 1%nat = Some (demo_item a2 1)) by evaluate.
  destruct (Hit 1%nat _ Hk) as (_ & _ & Hcb).
  rewrite Hcb. evaluate.
Defined.

Lemma frame_records_bindings_witness :
  let a' := demo_after [demo_frame 1] in
  scene_ok demo_app = true
  /\ mPassCbvOffset demo_app = passCbvOffset (objCount demo_app)
  /\ frame (math := PlainMath) (demo_timer 1) false 0 demo_app = Done a'
  /\ exists fr,
       vec_at (mFrameResources a') (mCurrFrameResourceIndex a') = Some fr
       /\ CmdListAlloc fr
          = [ SetPipelineState false;
              SetGraphicsRootDescriptorTable 1 10;
              SetGraphicsRootDescriptorTable 0 3; DrawIndexedInstanced 36 0 0;
              SetGraphicsRootDescriptorTable 0 4; DrawIndexedInstanced 36 0 0;
              SetGraphicsRootDescriptorTable 0 5; DrawIndexedInstanced 2400 36 24 ].
Proof.
  intros a'.
  assert (H1 : scene_ok demo_app = true) by evaluate.
  assert (H2 : mPassCbvOffset demo_app = passCbvOffset (objCount demo_app))
    by evaluate.
  assert (H3 : frame (math := PlainMath) (demo_timer 1) false 0 demo_app = Done a')
    by evaluate.
  split; [exact H1|]. split; [exact H2|]. split; [exact H3|].
  destruct (frame_records_bindings (math := PlainMath) (demo_timer 1) false 0
              demo_app a' H1 H2 H3) as (fr & heap & Hfr & _ & Hcmd & _).
  exists fr. split; [exact Hfr|]. rewrite Hcmd. evaluate.
Defined.

Lemma frame_resource_fences_witness :
  let tr := [demo_frame 1; demo_frame 2; EvGpu; demo_frame 3; demo_frame 4] in
  let a' := demo_after tr in
  (Z.of_nat (length demo_shapes) + 1) * gNumFrameResources <= INT_MAX
  /\ 0 <= 1
  /\ 1 + frames tr < UINT64_MAX_plus_1
  /\ run (math := PlainMath) tr demo_app = Done a'
  /\ mCurrentFence a' = 5
  /\ exists fr, vec_at (mFrameResources a') 2 = Some fr /\ Fence fr = 3.
Proof.
  intros tr a'.
  assert (H1 : (Z.of_nat (length demo_shapes) + 1) * gNumFrameResources <= INT_MAX)
    by evaluate.
  assert (H2 : 0 <= 1) by lia.
  assert (H3 : 1 + frames tr < UINT64_MAX_plus_1) by evaluate.
  assert (H4 : run (math := PlainMath) tr demo_app = Done a') by evaluate.
  split; [exact H1|]. split; [exact H2|]. split; [exact H3|]. split; [exact H4|].
  destruct (frame_resource_fences (math := PlainMath) demo_shapes 1 demo_pass0
              (mkObjectConstants Identity4x4)
              (float_of_int 4) (float_of_int 1) (float_of_int 15) Identity4x4
              800 600 tr a' H1 H2 H3 H4) as (Hc & Hfr & _).
  split; [exact Hc|].
  destruct (Hfr 2 ltac:(unfold gNumFrameResources; lia)) as (fr & Hv & Hf).
  exists fr. split; [exact Hv | exact Hf].
Defined.

Lemma UpdateObjectCBs_defined_iff_witness :
  let a := demo_after [demo_frame 1] in
  let fr := demo_frame_resource a 1 in
  let e := demo_item a 1 in
  mCurrFrameResource a = Some 1
  /\ vec_at (mFrameResources a) 1 = Some fr
  /\ (exists a', UpdateObjectCBs a = Done a')
  /\ 0 <= int_of_UINT (ObjCBIndex e) < Z.of_nat (length (ObjectCB fr)).
Proof.
  intros a fr e.
  assert (H1 : mCurrFrameResource a = Some 1) by evaluate.
  assert (H2 : vec_at (mFrameResources a) 1 = Some fr) by evaluate.
  assert (H3 : exists a', UpdateObjectCBs a = Done a')
    by (exists (result_or a (UpdateObjectCBs a)); evaluate).
  assert (H4 : In e (mAllRitems a)) by (right; left; reflexivity).
  assert (H5 : 0 < NumFramesDirty e) by evaluate.
  split; [exact H1|]. split; [exact H2|]. split; [exact H3|].
  exact (proj1 (proj1 (UpdateObjectCBs_defined_iff a 1 fr H1 H2)) H3 e H4 H5).
Defined.


Lemma Draw_needs_selected_frame_resource_witness :
  scene_ok demo_app = true
  /\ mCurrFrameResource demo_app = None
  /\ ~ (exists a', Draw demo_app = Done a').
Proof.
  assert (H1 : scene_ok demo_app = true) by evaluate.
  assert (H2 : mCurrFrameResource demo_app = None) by evaluate.
  split; [exact H1|]. split; [exact H2|].
  intros H.
  exact (proj1 (proj1 (Draw_needs_selected_frame_resource demo_app H1)) H H2).
Defined.

Lemma Draw_touches_current_only_witness :
  let a := result_or demo_app
             (Update (math := PlainMath) (demo_timer 1) false demo_app) in
  let a' := demo_after [demo_frame 1] in
  Draw a = Done a'
  /\ exists fr', vec_at (mFrameResources a') 1 = Some fr' /\ Fence fr' = 2.
Proof.
  intros a a'.
  assert (H1 : Draw a = Done a') by evaluate.
  split; [exact H1|].
  destruct (Draw_touches_current_only a a' H1)
    as (p & fr & fr' & Hp & _ & Hv' & _ & _ & Hf & _).
  assert (Hp1 : mCurrFrameResource a = Some 1) by evaluate.
  rewrite Hp1 in Hp. inversion Hp; subst p.
  exists fr'. split; [exact Hv'|]. rewrite Hf. evaluate.
Defined.



Lemma submeshes_do_not_overlap_witness :
  let p := mkShapePart "grid" demo_triangle ForestGreen in
  let q := mkShapePart "cylinder" demo_quad SteelBlue in
  Z.of_nat (length (all_indices demo_parts)) < UINT_MAX_plus_1
  /\ Z.of_nat (length (all_positions demo_parts)) <= INT_MAX
  /\ BuildShapeGeometry demo_quad demo_triangle demo_triangle demo_quad
       demo_triangle demo_triangle demo_quad demo_triangle demo_triangle
       demo_triangle demo_quad = Done demo_geo
  /\ demo_parts !! 1%nat = Some p /\ demo_parts !! 3%nat = Some q
  /\ (1 < 3)%nat
  /\ Submesh.StartIndexLocation (DrawArgs_at demo_geo "grid")
     + Submesh.IndexCount (DrawArgs_at demo_geo "grid")
     <= Submesh.StartIndexLocation (DrawArgs_at demo_geo "cylinder").
Proof.
  intros p q.
  assert (H1 : Z.of_nat (length (all_indices demo_parts)) < UINT_MAX_plus_1)
    by evaluate.
  assert (H2 : Z.of_nat (length (all_positions demo_parts)) <= INT_MAX)
    by evaluate.
  assert (H3 : BuildShapeGeometry demo_quad demo_triangle demo_triangle demo_quad
                 demo_triangle demo_triangle demo_quad demo_triangle
                 demo_triangle demo_triangle demo_quad = Done demo_geo)
    by evaluate.
  assert (H4 : demo_parts !! 1%nat = Some p) by reflexivity.
  assert (H5 : demo_parts !! 3%nat = Some q) by reflexivity.
  assert (H6 : (1 < 3)%nat) by lia.
  split; [exact H1|]. split; [exact H2|]. split; [exact H3|].
  split; [exact H4|]. split; [exact H5|]. split; [exact H6|].
  exact (proj1 (submeshes_do_not_overlap demo_quad demo_triangle demo_triangle
                  demo_quad demo_triangle demo_triangle demo_quad demo_triangle
                  demo_triangle demo_triangle demo_quad demo_geo 1 3 p q
                  H1 H2 H3 H4 H5 H6)).
Defined.


